(** * flow-runtime: the type-node hierarchy and its validation protocol

    A shallow embedding of the runtime type descriptors of flow-runtime
    ([Type], [VoidType], [ThisType], [SymbolLiteralType], [NullableType],
    [FlowIntoType], [FunctionType]) together with the statements of the
    specification that concern them.

    JavaScript values are a small inductive type, the mutable [recorded] field
    of type parameters lives in an explicit store, exceptions are a
    constructor of the result of every operation, and the parts of the
    library whose sources are not available are fields of a [Library]
    record over which every definition is parametric. *)

From Stdlib Require Import ZArith List String Bool Lia.
From stdpp Require Import gmap.
Import ListNotations.

Set Warnings "-register-all".

Local Open Scope string_scope.
Local Open Scope Z_scope.

(** ** JavaScript values *)

Module JS.

(** The numbers are the integers and [NaN], the one number that is not
    equal to itself; fractions, infinities and BigInts behave as the
    integers do in everything below.  An object or a function carries its
    identity and the identities of the constructors whose [prototype] lies
    on its prototype chain, and nothing else: methods of its own (a
    [toString], a [Symbol.hasInstance]) are not part of it.  A [function]
    has a [prototype] object, as a function declared with [function] or
    [class] has; an [arrow] is a function whose [prototype] is not an
    object: an arrow function or a method. *)
Inductive value : Type :=
| undefined
| null
| boolean (b : bool)
| number (n : Z)
| str (s : string)
| symbol (id : nat)
| object (id : nat) (chain : list nat)
| function (id : nat) (chain : list nat)
| NaN
| arrow (id : nat) (chain : list nat).

Definition value_eq_dec (a b : value) : {a = b} + {a <> b}.
Proof.
  decide equality;
    try apply (List.list_eq_dec Nat.eq_dec); try apply Nat.eq_dec;
    try apply String.string_dec; try apply Z.eq_dec; try apply Bool.bool_dec.
Defined.

(** [a === b]: [NaN] is equal to nothing, itself included. *)
Definition strict_equal (a b : value) : bool :=
  match a with
  | NaN => false
  | _ => if value_eq_dec a b then true else false
  end.

(** [a == null] *)
Definition loose_equal_null (a : value) : bool :=
  match a with
  | undefined | null => true
  | _ => false
  end.

(** [typeof a] *)
Definition typeof (a : value) : string :=
  match a with
  | undefined => "undefined"
  | null => "object"
  | boolean _ => "boolean"
  | number _ => "number"
  | str _ => "string"
  | symbol _ => "symbol"
  | object _ _ => "object"
  | function _ _ => "function"
  | NaN => "number"
  | arrow _ _ => "function"
  end.

(** The truthiness test of [if (a)], [a && b] and [!a]. *)
Definition truthy (a : value) : bool :=
  match a with
  | undefined | null | NaN => false
  | boolean b => b
  | number n => negb (n =? 0)
  | str s => negb (String.eqb s "")
  | symbol _ | object _ _ | function _ _ | arrow _ _ => true
  end.

(** [a instanceof c]; [None] is the [TypeError] of the engine.  A value
    [c] that is not callable is no right-hand side.  For a function [c] and
    a primitive [a] the answer is false, whatever [c.prototype] is; for an
    object or a function [a], [c.prototype] is looked for on the prototype
    chain of [a], and has to be an object for that. *)
Definition instanceof (a c : value) : option bool :=
  match c with
  | function f _ =>
      match a with
      | object _ chain | function _ chain | arrow _ chain =>
          Some (existsb (Nat.eqb f) chain)
      | _ => Some false
      end
  | arrow _ _ =>
      match a with
      | object _ _ | function _ _ | arrow _ _ => None
      | _ => Some false
      end
  | _ => None
  end.

End JS.

Import JS.

(** ** Type nodes *)

(** [FunctionTypeParam], [FunctionTypeRestParam] and [FunctionTypeReturn]
    are the classes of the fields [params], [rest] and [returnType] of a
    [FunctionType]; the sources read their fields [name], [optional] and
    [type]. *)
Record FunctionTypeParam_ (T : Type) : Type := mkParam
  { param_name : string; param_optional : bool; param_type : T }.

Record FunctionTypeRestParam_ (T : Type) : Type := mkRestParam
  { rest_name : string; rest_type : T }.

Record FunctionTypeReturn_ (T : Type) : Type := mkReturn
  { return_type : T }.

Arguments mkParam {T}.
Arguments param_name {T}.
Arguments param_optional {T}.
Arguments param_type {T}.
Arguments mkRestParam {T}.
Arguments rest_name {T}.
Arguments rest_type {T}.
Arguments mkReturn {T}.
Arguments return_type {T}.

(** The first seven constructors are the classes whose sources are at hand.
    [Type_] is a direct instance of the base class.  A [FlowIntoType] refers
    to its [typeParameter]: the parameter's identity is a slot of the store
    that holds its mutable [recorded] field, its [bound] is fixed when the
    node is built.  The remaining constructors are the classes that the
    sources name but do not define; [LeafType] stands for any class without
    fields, identified by its [typeName] (["AnyType"], ["EmptyType"], ...). *)
Inductive type : Type :=
| Type_
| VoidType
| ThisType (recorded : value)
| SymbolLiteralType (val : value)
| NullableType (inner : type)
| FlowIntoType (slot : nat) (bound : option type)
| FunctionType (params : list (FunctionTypeParam_ type))
               (rest : option (FunctionTypeRestParam_ type))
               (returnType : FunctionTypeReturn_ type)
| NullLiteralType
| FunctionTypeParam (param : FunctionTypeParam_ type)
| FunctionTypeRestParam (param : FunctionTypeRestParam_ type)
| FunctionTypeReturn (ret : FunctionTypeReturn_ type)
| UnionType (types : list type)
| LeafType (name : string).

(** ** Effects: the store of recorded types, exceptions, non-termination *)

(** [recorded] of every type parameter, absent while unset. *)
Abbreviation store := (gmap nat type).

Inductive exn : Type :=
| Error (message : string)
| TypeError (message : string).

(** No method of the sources catches an exception, so the store after a
    [throw] is never observed.  [Diverges] is the result of a call whose
    chain of dynamic dispatches does not end; in JavaScript such a call
    exhausts the stack and ends in a [RangeError]. *)
Inductive outcome (A : Type) : Type :=
| Returns (a : A) (s : store)
| Throws (e : exn)
| Diverges.

Arguments Returns {A}.
Arguments Throws {A}.
Arguments Diverges {A}.

Definition M (A : Type) : Type := store -> outcome A.

Definition ret {A} (a : A) : M A := fun s => Returns a s.

Definition throw {A} (e : exn) : M A := fun _ => Throws e.

(** The [TypeError]s of the engine: [a instanceof c] for a function [c]
    whose [prototype] is not an object, and a method called on [null] or
    [undefined].  The texts stand for the messages of the engine. *)
Definition prototype_error : exn :=
  TypeError "Function has non-object prototype in instanceof check".

Definition nullish_error : exn :=
  TypeError "Cannot read properties of null or undefined".

Definition diverge {A} : M A := fun _ => Diverges.

Definition bind {A B} (m : M A) (k : A -> M B) : M B :=
  fun s =>
    match m s with
    | Returns a s' => k a s'
    | Throws e => Throws e
    | Diverges => Diverges
    end.

Notation "x <- m ;; k" := (bind m (fun x => k))
  (at level 100, m at next level, right associativity).
Notation "m ;;; k" := (bind m (fun _ => k))
  (at level 100, right associativity).

(** [typeParameter.recorded] and [typeParameter.recorded = t] *)
Definition get_recorded (slot : nat) : M (option type) :=
  fun s => Returns (s !! slot) s.

Definition set_recorded (slot : nat) (t : type) : M unit :=
  fun s => Returns tt (<[slot := t]> s).

(** ** Validation sessions *)

Definition IdentifierPath : Type := list string.

Definition ErrorRecord : Type := IdentifierPath * type * string.

(** The [errors] of a [Validation], oldest first. *)
Definition Validation : Type := list ErrorRecord.

(** [validation.addError(path, expected, message)] *)
Definition addError (validation : Validation) (path : IdentifierPath)
    (expected : type) (message : string) : Validation :=
  (validation ++ [(path, expected, message)])%list.

(** ** The rest of the library *)

(** The methods of a class that the sources do not define.  [None] is a
    method that the class inherits from [Type].  A method receives the
    dynamic dispatch of the operation it belongs to, for the calls it makes
    on other nodes. *)
Record methods : Type := mkMethods
  { typeName_of : string;
    accepts_of :
      option ((type -> value -> M bool) -> value -> M bool);
    collectErrors_of :
      option ((type -> Validation -> IdentifierPath -> value ->
               M (bool * Validation)) ->
              Validation -> IdentifierPath -> value -> M (bool * Validation));
    compareWith_of : option (type -> M Z);
    toString_of : option ((type -> M string) -> M string) }.

(** What the sources import and call without defining it: the classes
    behind [NullLiteralType], [FunctionTypeParam], [FunctionTypeRestParam],
    [FunctionTypeReturn], [UnionType] and [LeafType] ([class_of] is only
    consulted at these), [compareTypes], the [TypeContext] operations
    [union], [typeOf], [any] and [empty], [getErrorMessage], the text that
    [value.toString()] returns for a value other than [null] and
    [undefined] (the method that the value inherits, which returns a text),
    the rendering of a type parameter as text, the annotation
    [input[TypeSymbol]] of a function value, and what
    [node.acceptsType(undefined)] answers. *)
Record Library : Type := mkLibrary
  { class_of : type -> methods;
    compareTypes : type -> type -> M Z;
    acceptsType_undefined : type -> M bool;
    union : type -> type -> type;
    typeOf : value -> type;
    any : type;
    empty : type;
    getErrorMessage : string -> list string -> string;
    value_toString : value -> string;
    typeParameter_toString : nat -> option type -> M string;
    TypeSymbol :
      value -> option (list (FunctionTypeParam_ type) * FunctionTypeReturn_ type) }.

(** ** Loops *)

(** [for (i = start; ...; i++) { if (!check(i, l[i - start])) return false; }]:
    the checks run in order and the first one that fails ends the loop. *)
Fixpoint every {A} (check : nat -> A -> M bool) (i : nat) (l : list A)
    : M bool :=
  match l with
  | [] => ret true
  | a :: l' =>
      ok <- check i a ;;
      if ok then every check (S i) l' else ret false
  end.

(** A loop whose body cannot leave it. *)
Fixpoint each {A B} (body : A -> M B) (l : list A) : M unit :=
  match l with
  | [] => ret tt
  | a :: l' => body a ;;; each body l'
  end.

Section Classes.

Variable L : Library.

(** ** Type.js *)

Definition Type_collectErrors (validation : Validation)
    (path : IdentifierPath) (input : value) : bool * Validation :=
  (false, validation).

Definition Type_accepts (input : value) : M bool :=
  throw (Error "Not implemented.").

Definition Type_compareWith (input : type) : M Z :=
  throw (Error "Not implemented.").

Definition Type_toString : M string :=
  throw (Error "Not implemented.").

(** No class of the sources overrides [acceptsType]. *)
Definition acceptsType (this input : type) : M bool :=
  result <- compareTypes L this input ;;
  if result =? -1 then ret false else ret true.

(** ** VoidType.js *)

Definition VoidType_collectErrors (validation : Validation)
    (path : IdentifierPath) (input : value) : bool * Validation :=
  if strict_equal input undefined then (false, validation)
  else (true, addError validation path VoidType
                (getErrorMessage L "ERR_EXPECT_VOID" [])).

Definition VoidType_accepts (input : value) : bool :=
  strict_equal input undefined.

Definition VoidType_compareWith (input : type) : Z :=
  match input with
  | VoidType => 0
  | _ => -1
  end.

Definition VoidType_toString : string := "void".

(** ** ThisType.js *)

(** [typeof recorded === 'function' && input instanceof recorded] *)
Definition ThisType_isInstance (recorded : value) (input : value) : M bool :=
  if String.eqb (typeof recorded) "function"
  then match instanceof input recorded with
       | Some holds => ret holds
       | None => throw prototype_error
       end
  else ret false.

Definition ThisType_collectErrors (recorded : value) (validation : Validation)
    (path : IdentifierPath) (input : value) : M (bool * Validation) :=
  if strict_equal input recorded then ret (false, validation)
  else
    holds <- ThisType_isInstance recorded input ;;
    if holds then ret (false, validation)
    else if negb (loose_equal_null recorded)
    then ret (true, addError validation path (ThisType recorded)
                      (getErrorMessage L "ERR_EXPECT_THIS" []))
    else ret (false, validation).

Definition ThisType_accepts (recorded : value) (input : value) : M bool :=
  if strict_equal input recorded then ret true
  else
    holds <- ThisType_isInstance recorded input ;;
    if holds then ret true
    else if negb (loose_equal_null recorded) then ret false
    else ret true.

Definition ThisType_compareWith (recorded : value) (input : type) : Z :=
  match input with
  | ThisType input_recorded =>
      if truthy input_recorded && truthy recorded
      then (if strict_equal input_recorded recorded then 0 else -1)
      else if truthy recorded then 0
      else 1
  | _ => -1
  end.

Definition ThisType_toString : string := "this".

(** ** SymbolLiteralType.js *)

(** [this.value.toString()] is a method call on the value, which throws
    when the value is [null] or [undefined]. *)
Definition SymbolLiteralType_toString (val : value) : M string :=
  if loose_equal_null val then throw nullish_error
  else ret (String.append "typeof " (value_toString L val)).

Definition SymbolLiteralType_collectErrors (val : value)
    (validation : Validation) (path : IdentifierPath) (input : value)
    : M (bool * Validation) :=
  if strict_equal input val then ret (false, validation)
  else
    text <- SymbolLiteralType_toString val ;;
    ret (true, addError validation path (SymbolLiteralType val)
                 (getErrorMessage L "ERR_EXPECT_EXACT_VALUE" [text])).

Definition SymbolLiteralType_accepts (val : value) (input : value) : bool :=
  strict_equal input val.

Definition SymbolLiteralType_compareWith (val : value) (input : type) : Z :=
  match input with
  | SymbolLiteralType input_value =>
      if strict_equal input_value val then 0 else -1
  | _ => -1
  end.

(** [node.typeName] *)
Definition typeName (this : type) : string :=
  match this with
  | Type_ => "Type"
  | VoidType => "VoidType"
  | ThisType _ => "ThisType"
  | SymbolLiteralType _ => "SymbolLiteralType"
  | NullableType _ => "NullableType"
  | FlowIntoType _ _ => "FlowIntoType"
  | FunctionType _ _ _ => "FunctionType"
  | _ => typeName_of (class_of L this)
  end.

(** ** Methods that call methods of other nodes

    The calls [node.accepts(...)], [node.collectErrors(...)],
    [node.compareWith(...)] and [node.toString()] are dispatched on the class
    of [node]; the dispatch is a variable here and is tied to the methods
    below in [accepts], [collectErrors], [compareWith] and [toString]. *)

Section Dispatch.

Variable accepts : type -> value -> M bool.
Variable collectErrors :
  type -> Validation -> IdentifierPath -> value -> M (bool * Validation).
Variable compareWith : type -> type -> M Z.
Variable toString : type -> M string.

(** *** NullableType (SymbolLiteralType.js, second part) *)

Definition NullableType_collectErrors (inner : type) (validation : Validation)
    (path : IdentifierPath) (input : value) : M (bool * Validation) :=
  if loose_equal_null input then ret (false, validation)
  else collectErrors inner validation path input.

Definition NullableType_accepts (inner : type) (input : value) : M bool :=
  if loose_equal_null input then ret true
  else accepts inner input.

Definition NullableType_compareWith (inner : type) (input : type) : M Z :=
  match input with
  | NullLiteralType | VoidType => ret 1
  | NullableType input_type => compareTypes L inner input_type
  | _ =>
      result <- compareTypes L inner input ;;
      if result =? -1 then ret (-1) else ret 1
  end.

Definition NullableType_toString (inner : type) : M string :=
  s <- toString inner ;;
  ret (String.append "? " s).

(** *** FlowIntoType (part_002) *)

Definition is_FlowIntoType (t : type) : bool :=
  match t with
  | FlowIntoType _ _ => true
  | _ => false
  end.

Definition FlowIntoType_collectErrors (slot : nat) (bound : option type)
    (validation : Validation) (path : IdentifierPath) (input : value)
    : M (bool * Validation) :=
  recorded <- get_recorded slot ;;
  match bound with
  | Some (FlowIntoType _ _ as bound) =>
      collectErrors bound validation path input
  | _ =>
      match recorded with
      | Some recorded =>
          r <- match bound with
               | Some bound => collectErrors bound validation path input
               | None => ret (false, validation)
               end ;;
          let '(failed, validation) := r in
          if failed then ret (true, validation)
          else
            fits <- accepts recorded input ;;
            if fits then ret (false, validation)
            else
              set_recorded slot (union L recorded (typeOf L input)) ;;;
              ret (false, validation)
      | None =>
          match bound with
          | Some bound =>
              if String.eqb (typeName bound) "AnyType"
                 || String.eqb (typeName bound) "ExistentialType"
              then ret (false, validation)
              else
                r <- collectErrors bound validation path input ;;
                let '(failed, validation) := r in
                if failed then ret (true, validation)
                else
                  set_recorded slot (typeOf L input) ;;;
                  ret (false, validation)
          | None =>
              set_recorded slot (typeOf L input) ;;;
              ret (false, validation)
          end
      end
  end.

Definition FlowIntoType_accepts (slot : nat) (bound : option type)
    (input : value) : M bool :=
  recorded <- get_recorded slot ;;
  match bound with
  | Some (FlowIntoType _ _ as bound) => accepts bound input
  | _ =>
      match recorded with
      | Some recorded =>
          ok <- match bound with
                | Some bound => accepts bound input
                | None => ret true
                end ;;
          if negb ok then ret false
          else
            fits <- accepts recorded input ;;
            if fits then ret true
            else
              set_recorded slot (union L recorded (typeOf L input)) ;;;
              ret true
      | None =>
          match bound with
          | Some bound =>
              if String.eqb (typeName bound) "AnyType"
                 || String.eqb (typeName bound) "ExistentialType"
              then ret true
              else
                ok <- accepts bound input ;;
                if negb ok then ret false
                else
                  set_recorded slot (typeOf L input) ;;;
                  ret true
          | None =>
              set_recorded slot (typeOf L input) ;;;
              ret true
          end
      end
  end.

Definition FlowIntoType_compareWith (slot : nat) (bound : option type)
    (input : type) : M Z :=
  recorded <- get_recorded slot ;;
  match bound with
  | Some (FlowIntoType _ _ as bound) => compareWith bound input
  | _ =>
      match recorded with
      | Some recorded =>
          b <- match bound with
               | Some bound => compareTypes L bound input
               | None => ret 0
               end ;;
          if b =? -1 then ret (-1)
          else
            result <- compareTypes L recorded input ;;
            if result =? 0 then ret 0
            else
              set_recorded slot (union L recorded input) ;;;
              ret 1
      | None =>
          match bound with
          | Some bound =>
              if String.eqb (typeName bound) "AnyType"
                 || String.eqb (typeName bound) "ExistentialType"
              then ret 1
              else
                result <- compareTypes L bound input ;;
                if result =? -1 then ret (-1)
                else
                  set_recorded slot input ;;;
                  ret 0
          | None =>
              set_recorded slot input ;;;
              ret 0
          end
      end
  end.

Definition FlowIntoType_toString (slot : nat) (bound : option type)
    : M string :=
  typeParameter_toString L slot bound.

(** *** FunctionType (part_003) *)

Definition hasFunctionType (input : value) : bool :=
  String.eqb (typeof input) "function".

(** [args[i]]: reading past the end of an array gives [undefined]. *)
Definition arg (args : list value) (i : nat) : value :=
  nth i args undefined.

(** The error recorded for a parameter that the annotation of the input
    does not satisfy. *)
Definition FunctionType_expectArgument (this : type) (path : IdentifierPath)
    (param : FunctionTypeParam_ type) (validation : Validation)
    : M (bool * Validation) :=
  s <- toString (param_type param) ;;
  ret (true, addError validation path this
               (getErrorMessage L "ERR_EXPECT_ARGUMENT"
                  [param_name param; s])).

(** The loop over [params] of [collectErrors], for an annotated input. *)
Fixpoint FunctionType_collectErrors_params (this : type)
    (path : IdentifierPath)
    (annotation_params : list (FunctionTypeParam_ type))
    (i : nat) (params : list (FunctionTypeParam_ type))
    (hasErrors : bool) (validation : Validation) : M (bool * Validation) :=
  match params with
  | [] => ret (hasErrors, validation)
  | param :: params' =>
      r <- match nth_error annotation_params i with
           | None =>
               if negb (param_optional param)
               then FunctionType_expectArgument this path param validation
               else
                 ok <- acceptsType_undefined L (FunctionTypeParam param) ;;
                 if negb ok
                 then FunctionType_expectArgument this path param validation
                 else ret (hasErrors, validation)
           | Some annotationParam =>
               ok <- acceptsType (FunctionTypeParam param)
                                 (FunctionTypeParam annotationParam) ;;
               if negb ok
               then FunctionType_expectArgument this path param validation
               else ret (hasErrors, validation)
           end ;;
      let '(hasErrors, validation) := r in
      FunctionType_collectErrors_params this path annotation_params
        (S i) params' hasErrors validation
  end.

Definition FunctionType_collectErrors
    (params : list (FunctionTypeParam_ type))
    (rest : option (FunctionTypeRestParam_ type))
    (returnType : FunctionTypeReturn_ type)
    (validation : Validation) (path : IdentifierPath) (input : value)
    : M (bool * Validation) :=
  let this := FunctionType params rest returnType in
  if negb (hasFunctionType input)
  then ret (true, addError validation path this
                    (getErrorMessage L "ERR_EXPECT_FUNCTION" []))
  else
    match TypeSymbol L input with
    | Some (annotation_params, annotation_returnType) =>
        r <- FunctionType_collectErrors_params this path annotation_params
               O params false validation ;;
        let '(hasErrors, validation) := r in
        ok <- acceptsType (FunctionTypeReturn returnType)
                          (FunctionTypeReturn annotation_returnType) ;;
        if negb ok
        then
          s <- toString (FunctionTypeReturn returnType) ;;
          ret (true, addError validation path this
                       (getErrorMessage L "ERR_EXPECT_RETURN" [s]))
        else ret (hasErrors, validation)
    | None =>
        each (fun param => acceptsType (FunctionTypeParam param) (any L))
             params ;;;
        acceptsType (FunctionTypeReturn returnType) (any L) ;;;
        ret (false, validation)
    end.

Definition FunctionType_accepts
    (params : list (FunctionTypeParam_ type))
    (returnType : FunctionTypeReturn_ type) (input : value) : M bool :=
  if negb (hasFunctionType input) then ret false
  else
    match TypeSymbol L input with
    | Some (annotation_params, annotation_returnType) =>
        ok <- every
                (fun i param =>
                   match nth_error annotation_params i with
                   | None =>
                       if negb (param_optional param) then ret false
                       else acceptsType_undefined L (FunctionTypeParam param)
                   | Some annotationParam =>
                       acceptsType (FunctionTypeParam param)
                                   (FunctionTypeParam annotationParam)
                   end)
                O params ;;
        if negb ok then ret false
        else
          ok <- acceptsType (FunctionTypeReturn returnType)
                            (FunctionTypeReturn annotation_returnType) ;;
          if negb ok then ret false else ret true
    | None =>
        each (fun param => acceptsType (FunctionTypeParam param) (any L))
             params ;;;
        acceptsType (FunctionTypeReturn returnType) (any L) ;;;
        ret true
    end.

(** The loop over [params] of [compareWith]; [inputParams] has at least as
    many elements when the loop is entered. *)
Fixpoint FunctionType_compareWith_params (isGreater : bool)
    (params inputParams : list (FunctionTypeParam_ type)) : M Z :=
  match params, inputParams with
  | param :: params', inputParam :: inputParams' =>
      result <- compareTypes L (FunctionTypeParam param)
                               (FunctionTypeParam inputParam) ;;
      if result =? -1 then ret (-1)
      else FunctionType_compareWith_params
             (if result =? 1 then true else isGreater) params' inputParams'
  | _, _ => ret (if isGreater then 1 else 0)
  end.

Definition FunctionType_compareWith
    (params : list (FunctionTypeParam_ type))
    (returnType : FunctionTypeReturn_ type) (input : type) : M Z :=
  match input with
  | FunctionType inputParams _ inputReturnType =>
      returnTypeResult <- compareTypes L (FunctionTypeReturn returnType)
                                         (FunctionTypeReturn inputReturnType) ;;
      if returnTypeResult =? -1 then ret (-1)
      else
        let isGreater := returnTypeResult =? 1 in
        if Nat.ltb (length inputParams) (length params) then ret (-1)
        else FunctionType_compareWith_params isGreater params inputParams
  | _ => ret (-1)
  end.

Definition FunctionType_acceptsParams
    (params : list (FunctionTypeParam_ type))
    (rest : option (FunctionTypeRestParam_ type))
    (args : list value) : M bool :=
  let paramsLength := length params in
  let argsLength := length args in
  ok <- every
          (fun i param =>
             if Nat.ltb i argsLength
             then accepts (FunctionTypeParam param) (arg args i)
             else accepts (FunctionTypeParam param) undefined)
          O params ;;
  if negb ok then ret false
  else
    match rest with
    | Some rest =>
        if Nat.ltb paramsLength argsLength
        then
          ok <- every (fun i a => accepts (FunctionTypeRestParam rest) a)
                      paramsLength (skipn paramsLength args) ;;
          if negb ok then ret false else ret true
        else ret true
    | None => ret true
    end.

Definition FunctionType_acceptsReturn
    (returnType : FunctionTypeReturn_ type) (input : value) : M bool :=
  accepts (FunctionTypeReturn returnType) input.

Definition FunctionType_invoke
    (params : list (FunctionTypeParam_ type))
    (rest : option (FunctionTypeRestParam_ type))
    (returnType : FunctionTypeReturn_ type)
    (args : list type) : M type :=
  let paramsLength := length params in
  let argsLength := length args in
  ok <- every
          (fun i param =>
             match nth_error args i with
             | Some a => acceptsType (FunctionTypeParam param) a
             | None => accepts (FunctionTypeParam param) undefined
             end)
          O params ;;
  if negb ok then ret (empty L)
  else
    match rest with
    | Some rest =>
        if Nat.ltb paramsLength argsLength
        then
          ok <- every (fun i a => acceptsType (FunctionTypeRestParam rest) a)
                      paramsLength (skipn paramsLength args) ;;
          if negb ok then ret (empty L) else ret (return_type returnType)
        else ret (return_type returnType)
    | None => ret (return_type returnType)
    end.

Fixpoint mapM {A B} (f : A -> M B) (l : list A) : M (list B) :=
  match l with
  | [] => ret []
  | a :: l' =>
      b <- f a ;;
      bs <- mapM f l' ;;
      ret (b :: bs)
  end.

Definition FunctionType_toString
    (params : list (FunctionTypeParam_ type))
    (rest : option (FunctionTypeRestParam_ type))
    (returnType : FunctionTypeReturn_ type) : M string :=
  args <- mapM (fun param => toString (FunctionTypeParam param)) params ;;
  args <- match rest with
          | Some rest =>
              s <- toString (FunctionTypeRestParam rest) ;;
              ret (args ++ [s])%list
          | None => ret args
          end ;;
  s <- toString (FunctionTypeReturn returnType) ;;
  ret (String.append "("
         (String.append (String.concat ", " args)
            (String.append ") => " s))).

End Dispatch.

(** ** Dynamic dispatch

    [accepts fuel this input] is [this.accepts(input)], and likewise for the
    other operations.  A call may go through the store (a [FlowIntoType]
    calls [recorded.accepts]) and through classes of the library, so the
    recursion is on the number of nested calls that are allowed. *)

Fixpoint toString (fuel : nat) (this : type) : M string :=
  match fuel with
  | O => diverge
  | S fuel =>
      match this with
      | Type_ => Type_toString
      | VoidType => ret VoidType_toString
      | ThisType _ => ret ThisType_toString
      | SymbolLiteralType val => SymbolLiteralType_toString val
      | NullableType inner => NullableType_toString (toString fuel) inner
      | FlowIntoType slot bound => FlowIntoType_toString slot bound
      | FunctionType params rest returnType =>
          FunctionType_toString (toString fuel) params rest returnType
      | _ =>
          match toString_of (class_of L this) with
          | Some method => method (toString fuel)
          | None => Type_toString
          end
      end
  end.

Fixpoint accepts (fuel : nat) (this : type) (input : value) : M bool :=
  match fuel with
  | O => diverge
  | S fuel =>
      match this with
      | Type_ => Type_accepts input
      | VoidType => ret (VoidType_accepts input)
      | ThisType recorded => ThisType_accepts recorded input
      | SymbolLiteralType val => ret (SymbolLiteralType_accepts val input)
      | NullableType inner => NullableType_accepts (accepts fuel) inner input
      | FlowIntoType slot bound =>
          FlowIntoType_accepts (accepts fuel) slot bound input
      | FunctionType params _ returnType =>
          FunctionType_accepts params returnType input
      | _ =>
          match accepts_of (class_of L this) with
          | Some method => method (accepts fuel) input
          | None => Type_accepts input
          end
      end
  end.

Fixpoint collectErrors (fuel : nat) (this : type) (validation : Validation)
    (path : IdentifierPath) (input : value) : M (bool * Validation) :=
  match fuel with
  | O => diverge
  | S fuel =>
      match this with
      | Type_ => ret (Type_collectErrors validation path input)
      | VoidType => ret (VoidType_collectErrors validation path input)
      | ThisType recorded =>
          ThisType_collectErrors recorded validation path input
      | SymbolLiteralType val =>
          SymbolLiteralType_collectErrors val validation path input
      | NullableType inner =>
          NullableType_collectErrors (collectErrors fuel) inner
            validation path input
      | FlowIntoType slot bound =>
          FlowIntoType_collectErrors (accepts fuel) (collectErrors fuel)
            slot bound validation path input
      | FunctionType params rest returnType =>
          FunctionType_collectErrors (toString fuel) params rest returnType
            validation path input
      | _ =>
          match collectErrors_of (class_of L this) with
          | Some method => method (collectErrors fuel) validation path input
          | None => ret (Type_collectErrors validation path input)
          end
      end
  end.

Fixpoint compareWith (this input : type) : M Z :=
  match this with
  | Type_ => Type_compareWith input
  | VoidType => ret (VoidType_compareWith input)
  | ThisType recorded => ret (ThisType_compareWith recorded input)
  | SymbolLiteralType val => ret (SymbolLiteralType_compareWith val input)
  | NullableType inner => NullableType_compareWith inner input
  | FlowIntoType slot bound =>
      FlowIntoType_compareWith compareWith slot bound input
  | FunctionType params _ returnType =>
      FunctionType_compareWith params returnType input
  | _ =>
      match compareWith_of (class_of L this) with
      | Some method => method input
      | None => Type_compareWith input
      end
  end.

(** ** makeError and assert *)

(** Modelled from the spec: [makeError] is imported by Type.js and not among
    the sources.  It runs [collectErrors] on a fresh validation session at
    the empty path and gives a type-mismatch error carrying the first
    recorded message when an error was recorded, nothing otherwise. *)
Definition makeError (fuel : nat) (expected : type) (input : value)
    : M (option exn) :=
  r <- collectErrors fuel expected [] [] input ;;
  match snd r with
  | [] => ret None
  | (_, _, message) :: _ => ret (Some (TypeError message))
  end.

(** [Type.assert], inherited by every class of the sources.
    [Error.captureStackTrace] only decorates the error. *)
Definition assert (fuel : nat) (this : type) (input : value) : M value :=
  error <- makeError fuel this input ;;
  match error with
  | Some error => throw error
  | None => ret input
  end.

(** [FunctionType.assertParams] and [FunctionType.assertReturn] *)
Definition FunctionType_assertParams (fuel : nat)
    (params : list (FunctionTypeParam_ type))
    (rest : option (FunctionTypeRestParam_ type))
    (args : list value) : M (list value) :=
  let paramsLength := length params in
  let argsLength := length args in
  (fix loop (i : nat) (params : list (FunctionTypeParam_ type)) : M unit :=
     match params with
     | [] => ret tt
     | param :: params' =>
         (if Nat.ltb i argsLength
          then assert fuel (FunctionTypeParam param) (arg args i)
          else assert fuel (FunctionTypeParam param) undefined) ;;;
         loop (S i) params'
     end) O params ;;;
  match rest with
  | Some rest =>
      if Nat.ltb paramsLength argsLength
      then
        each (fun a => assert fuel (FunctionTypeRestParam rest) a)
             (skipn paramsLength args) ;;;
        ret args
      else ret args
  | None => ret args
  end.

Definition FunctionType_assertReturn (fuel : nat)
    (returnType : FunctionTypeReturn_ type) (input : value) : M value :=
  assert fuel (FunctionTypeReturn returnType) input ;;;
  ret input.

End Classes.

(** ** A library for the examples *)

Module Sample.

Section Methods.

(** [compareTypes], for the comparisons that the methods below make. *)
Variable compare : type -> type -> M Z.

(** A class that checks its input with a predicate and ranks by class. *)
Definition leaf (this : type) (name : string) (ok : value -> bool)
    (rank : type -> Z) : methods :=
  mkMethods name
    (Some (fun _ input => ret (ok input)))
    (Some (fun _ validation path input =>
             ret (if ok input then (false, validation)
                  else (true, addError validation path this
                                (String.append "ERR_EXPECT_" name)))))
    (Some (fun input => ret (rank input)))
    (Some (fun _ => ret name)).

Definition same_leaf (name : string) (input : type) : Z :=
  match input with
  | LeafType other => if String.eqb other name then 0 else -1
  | _ => -1
  end.

(** Modelled from the spec: the classes that the sources name without
    defining them.  [NullLiteralType] accepts [null]; a parameter accepts
    what its type accepts, and [undefined] when it is optional; a rest
    parameter and a return slot accept what their type accepts; a union
    accepts what one of its members accepts; ["AnyType"] is the universal
    type, ["EmptyType"] the empty one, ["StringType"], ["NumberType"] and
    ["BooleanType"] are the leaf descriptors of the primitive values; any
    other [LeafType] is a class that overrides nothing. *)
Definition class_of (this : type) : methods :=
  match this with
  | NullLiteralType =>
      leaf this "NullLiteralType" (fun v => strict_equal v null)
        (fun input => match input with NullLiteralType => 0 | _ => -1 end)
  | FunctionTypeParam param =>
      mkMethods "FunctionTypeParam"
        (Some (fun accepts input =>
                 if param_optional param && strict_equal input undefined
                 then ret true
                 else accepts (param_type param) input))
        (Some (fun collectErrors validation path input =>
                 if param_optional param && strict_equal input undefined
                 then ret (false, validation)
                 else collectErrors (param_type param) validation path input))
        (Some (fun input =>
                 match input with
                 | FunctionTypeParam other =>
                     compare (param_type param) (param_type other)
                 | _ => compare (param_type param) input
                 end))
        (Some (fun toString =>
                 s <- toString (param_type param) ;;
                 ret (String.append (param_name param) (String.append ": " s))))
  | FunctionTypeRestParam param =>
      mkMethods "FunctionTypeRestParam"
        (Some (fun accepts input => accepts (rest_type param) input))
        (Some (fun collectErrors validation path input =>
                 collectErrors (rest_type param) validation path input))
        (Some (fun input =>
                 match input with
                 | FunctionTypeRestParam other =>
                     compare (rest_type param) (rest_type other)
                 | _ => ret (-1)
                 end))
        (Some (fun toString =>
                 s <- toString (rest_type param) ;;
                 ret (String.append "..." (String.append (rest_name param)
                                             (String.append ": " s)))))
  | FunctionTypeReturn r =>
      mkMethods "FunctionTypeReturn"
        (Some (fun accepts input => accepts (return_type r) input))
        (Some (fun collectErrors validation path input =>
                 collectErrors (return_type r) validation path input))
        (Some (fun input =>
                 match input with
                 | FunctionTypeReturn other =>
                     compare (return_type r) (return_type other)
                 | _ => compare (return_type r) input
                 end))
        (Some (fun toString => toString (return_type r)))
  | UnionType types =>
      mkMethods "UnionType"
        (Some (fun (accepts : type -> value -> M bool) input =>
                 (fix some (types : list type) : M bool :=
                    match types with
                    | [] => ret false
                    | t :: types' =>
                        ok <- accepts t input ;;
                        if ok then ret true else some types'
                    end) types))
        None None None
  | LeafType name =>
      if String.eqb name "AnyType"
      then leaf this name (fun _ => true) (fun _ => 1)
      else if String.eqb name "EmptyType"
      then leaf this name (fun _ => false) (same_leaf name)
      else if String.eqb name "StringType"
      then leaf this name (fun v => String.eqb (typeof v) "string")
             (same_leaf name)
      else if String.eqb name "NumberType"
      then leaf this name (fun v => String.eqb (typeof v) "number")
             (same_leaf name)
      else if String.eqb name "BooleanType"
      then leaf this name (fun v => String.eqb (typeof v) "boolean")
             (same_leaf name)
      else mkMethods name None None None None
  | _ => mkMethods "Type" None None None None
  end.

(** Modelled from the spec: [typeOf] classifies a value into the narrowest
    leaf descriptor that matches it. *)
Definition typeOf (input : value) : type :=
  match input with
  | undefined => VoidType
  | null => NullLiteralType
  | boolean _ => LeafType "BooleanType"
  | number _ | NaN => LeafType "NumberType"
  | str _ => LeafType "StringType"
  | symbol _ => SymbolLiteralType input
  | object _ _ => LeafType "ObjectType"
  | function _ _ | arrow _ _ => LeafType "FunctionType"
  end.

Definition library_with : Library :=
  mkLibrary class_of compare
    (fun _ => ret false)
    (fun a b => UnionType [a; b])
    typeOf
    (LeafType "AnyType")
    (LeafType "EmptyType")
    (fun key args => String.concat " " (key :: args))
    (fun v => typeof v)
    (fun _ _ => ret "T")
    (fun _ => None).

End Methods.

(** Modelled from the spec: [compareTypes a b] is the comparison
    [a.compareWith(b)] of section 4.2. *)
Fixpoint compareTypes (fuel : nat) (a b : type) : M Z :=
  match fuel with
  | O => diverge
  | S fuel => compareWith (library_with (compareTypes fuel)) a b
  end.

Definition library (fuel : nat) : Library := library_with (compareTypes fuel).

(** The nodes of the signatures of the examples. *)
Definition string_ : type := LeafType "StringType".
Definition number_ : type := LeafType "NumberType".
Definition boolean_ : type := LeafType "BooleanType".

Definition param (name : string) (t : type) : FunctionTypeParam_ type :=
  mkParam name false t.

End Sample.

(** * Definitions for the statements *)

(** ** Classes and comparisons *)

(** The classes that the sources name without defining them. *)
Definition is_library_class (this : type) : bool :=
  match this with
  | NullLiteralType | FunctionTypeParam _ | FunctionTypeRestParam _
  | FunctionTypeReturn _ | UnionType _ | LeafType _ => true
  | _ => false
  end.

(** [input instanceof NullLiteralType || input instanceof VoidType ||
    input instanceof NullableType] *)
Definition nullable_special_case (input : type) : bool :=
  match input with
  | NullLiteralType | VoidType | NullableType _ => true
  | _ => false
  end.

(** A class that rejects every value and inherits [collectErrors]. *)
Definition rejecting_library : Library :=
  mkLibrary
    (fun this =>
       mkMethods "Never" (Some (fun _ _ => ret false)) None None None)
    (fun _ _ => ret 0) (fun _ => ret false)
    (fun a b => UnionType [a; b]) Sample.typeOf (LeafType "AnyType")
    (LeafType "EmptyType") (fun key _ => key) typeof
    (fun _ _ => ret "T") (fun _ => None).

(** The ranking of two signatures in the words of the specification:
    [returnResult] is the comparison of the return types, [fewer] tells
    whether the compared signature declares fewer parameters, and
    [paramResults] are the comparisons of the parameters, by position. *)
Definition FunctionType_ranking (returnResult : Z) (fewer : bool)
    (paramResults : list Z) : Z :=
  if returnResult =? -1 then -1
  else if fewer then -1
  else if existsb (Z.eqb (-1)) paramResults then -1
  else if (returnResult =? 1) || existsb (Z.eqb 1) paramResults then 1
  else 0.

(** The comparisons of the parameters by position, in order: parameter [i]
    of this signature with parameter [i] of the compared one. *)
Definition compare_positions (L : Library)
    (params inputParams : list (FunctionTypeParam_ type)) : M (list Z) :=
  mapM (fun pq => compareTypes L (FunctionTypeParam (fst pq))
                                 (FunctionTypeParam (snd pq)))
       (combine params inputParams).

(** ** The checks of acceptsParams and invoke *)

(** Checks that run in order until one fails. *)
Fixpoint all_of (checks : list (M bool)) : M bool :=
  match checks with
  | [] => ret true
  | check :: checks' =>
      ok <- check ;;
      if ok then all_of checks' else ret false
  end.

Definition indexed {A} (start : nat) (l : list A) : list (nat * A) :=
  combine (seq start (length l)) l.

(** One check per declared parameter: against the argument at its position,
    against [undefined] when there is none. *)
Definition declared_checks (accepts : type -> value -> M bool)
    (params : list (FunctionTypeParam_ type)) (args : list value)
    : list (M bool) :=
  map (fun ip => accepts (FunctionTypeParam (snd ip)) (arg args (fst ip)))
      (indexed 0 params).

(** One check per argument beyond the declared parameters. *)
Definition excess_checks (accepts : type -> value -> M bool)
    (params : list (FunctionTypeParam_ type))
    (rest : FunctionTypeRestParam_ type) (args : list value)
    : list (M bool) :=
  map (fun a => accepts (FunctionTypeRestParam rest) a)
      (skipn (length params) args).

(** The same for [invoke], whose arguments are types. *)
Definition declared_type_checks (L : Library)
    (accepts : type -> value -> M bool)
    (params : list (FunctionTypeParam_ type)) (args : list type)
    : list (M bool) :=
  map (fun ip =>
         match nth_error args (fst ip) with
         | Some a => acceptsType L (FunctionTypeParam (snd ip)) a
         | None => accepts (FunctionTypeParam (snd ip)) undefined
         end)
      (indexed 0 params).

Definition excess_type_checks (L : Library)
    (params : list (FunctionTypeParam_ type))
    (rest : FunctionTypeRestParam_ type) (args : list type)
    : list (M bool) :=
  map (fun a => acceptsType L (FunctionTypeRestParam rest) a)
      (skipn (length params) args).

(** ** What an operation preserves *)

(** [m], run from [s], returns a result and a store that satisfy [Q], or
    throws an exception of [E], or does not end. *)
Definition hoare {A} (E : exn -> Prop) (s : store) (m : M A)
    (Q : A -> store -> Prop) : Prop :=
  match m s with
  | Returns a s' => Q a s'
  | Throws e => E e
  | Diverges => True
  end.

(** Whatever store [m] is run from, [R] relates it to the store that [m]
    returns, and [m] throws exceptions of [E] only. *)
Definition respects {A} (R : store -> store -> Prop) (E : exn -> Prop)
    (m : M A) : Prop :=
  forall s, hoare E s m (fun _ s' => R s s').

(** The library preserves [R] and [E]; a method of a class does when the
    dispatch it is given does. *)
Record library_respects (L : Library) (R : store -> store -> Prop)
    (E : exn -> Prop) : Prop := mkLibraryRespects
  { respects_compareTypes :
      forall a b, respects R E (compareTypes L a b);
    respects_acceptsType_undefined :
      forall t, respects R E (acceptsType_undefined L t);
    respects_typeParameter_toString :
      forall slot bound, respects R E (typeParameter_toString L slot bound);
    respects_accepts_of :
      forall this method,
        accepts_of (class_of L this) = Some method ->
        forall dispatch,
          (forall t v, respects R E (dispatch t v)) ->
          forall v, respects R E (method dispatch v);
    respects_collectErrors_of :
      forall this method,
        collectErrors_of (class_of L this) = Some method ->
        forall dispatch,
          (forall t validation path v,
             respects R E (dispatch t validation path v)) ->
          forall validation path v,
            respects R E (method dispatch validation path v);
    respects_compareWith_of :
      forall this method,
        compareWith_of (class_of L this) = Some method ->
        forall input, respects R E (method input);
    respects_toString_of :
      forall this method,
        toString_of (class_of L this) = Some method ->
        forall dispatch,
          (forall t, respects R E (dispatch t)) -> respects R E (method dispatch) }.

Arguments respects_compareTypes {L R E}.
Arguments respects_acceptsType_undefined {L R E}.
Arguments respects_typeParameter_toString {L R E}.
Arguments respects_accepts_of {L R E}.
Arguments respects_collectErrors_of {L R E}.
Arguments respects_compareWith_of {L R E}.
Arguments respects_toString_of {L R E}.

(** The number of [FlowIntoType] nodes that a node is chained to through
    [bound]. *)
Fixpoint chain_length (this : type) : nat :=
  match this with
  | FlowIntoType _ (Some bound) => S (chain_length bound)
  | _ => O
  end.

(** ** Widening of the recorded types *)

(** [X'] is [X] or a union built on [X]. *)
Inductive widened (L : Library) (X : type) : type -> Prop :=
| widened_same : widened L X X
| widened_union (X' t : type) :
    widened L X X' -> widened L X (union L X' t).

(** Every type parameter that has a recorded type in [s] has a recorded
    type in [s'], which is the former one widened. *)
Definition store_widens (L : Library) (s s' : store) : Prop :=
  forall slot X,
    s !! slot = Some X ->
    exists X', s' !! slot = Some X' /\ widened L X X'.

(** The slot is not chained to another [FlowIntoType], and its bound, if it
    has one, accepts the input. *)
Definition bound_admits (L : Library) (fuel : nat) (bound : option type)
    (input : value) (s s1 : store) : Prop :=
  match bound with
  | None => s1 = s
  | Some b =>
      is_FlowIntoType b = false /\
      accepts L fuel b input s = Returns true s1
  end.

(** The same for [collectErrors]: the bound records no error. *)
Definition bound_passes (L : Library) (fuel : nat) (bound : option type)
    (validation : Validation) (path : IdentifierPath) (input : value)
    (s : store) (validation1 : Validation) (s1 : store) : Prop :=
  match bound with
  | None => validation1 = validation /\ s1 = s
  | Some b =>
      is_FlowIntoType b = false /\
      collectErrors L fuel b validation path input s
      = Returns (false, validation1) s1
  end.

(** A store in which type parameter 0 has recorded [string]. *)
Definition recorded_string : store := {[ 0%nat := Sample.string_ ]}.

(** ** Exceptions *)





(** ** Values that separate two nodes *)













(** ** The dispatcher of the pattern fixture (part_000) *)

(** What the dispatcher returns: [_arg0], or the array [_arg1.slice(1)]. *)
Inductive returned : Type :=
| Value (v : value)
| Array (items : list value).

(** Modelled from the spec: [t.array(t.boolean()).accepts(items)] and
    [t.array(t.number()).accepts(items)], whose classes are not among the
    sources: every element of the array is a boolean, resp. a number. *)
Definition array_accepts (element : string) (items : list value) : bool :=
  forallb (fun v => String.eqb (typeof v) element) items.

(** The function [pattern] of [expected], for the candidates of [input]
    [(input: string) => input], [(foo: string, bar: number, ...input:
    boolean[]) => input], [(foo: string, ...extra: number[]) => foo],
    [(foo: string, bar: string, baz: string, qux: string) => foo] and
    [_ => _].  The first component of the result is the number of the
    [return] statement that was reached, which is the number of the
    candidate that it was generated from. *)
Definition pattern (_arg0 : value) (_arg1 : list value) : nat * returned :=
  if String.eqb (typeof _arg0) "string"
  then (1%nat, Value _arg0)
  else if String.eqb (typeof _arg0) "string"
          && String.eqb (typeof (arg _arg1 0)) "number"
          && array_accepts "boolean" (skipn 1 _arg1)
  then (2%nat, Array (skipn 1 _arg1))
  else if String.eqb (typeof _arg0) "string"
          && array_accepts "number" _arg1
  then (3%nat, Value _arg0)
  else if String.eqb (typeof _arg0) "string"
          && String.eqb (typeof (arg _arg1 0)) "string"
          && String.eqb (typeof (arg _arg1 1)) "string"
          && String.eqb (typeof (arg _arg1 2)) "string"
  then (4%nat, Value _arg0)
  else (5%nat, Value _arg0).

(** * Definitions for further properties *)

(** ** Nodes of the classes at hand *)

(** Nodes built from [VoidType], [ThisType], [SymbolLiteralType] and
    [NullableType] alone: none of their methods reads or writes the store. *)
Fixpoint stateless (t : type) : bool :=
  match t with
  | VoidType | ThisType _ | SymbolLiteralType _ => true
  | NullableType inner => stateless inner
  | _ => false
  end.

(** How deep the calls of a method of a stateless node nest. *)
Fixpoint nesting (t : type) : nat :=
  match t with
  | NullableType inner => S (nesting inner)
  | _ => O
  end.

(** What [ThisType.accepts] answers when it returns: true for the capture
    itself, for an instance of a captured function, and for every value when
    nothing is captured. *)
Definition ThisType_accepted (recorded : value) (input : value) : bool :=
  strict_equal input recorded
  || (String.eqb (typeof recorded) "function"
      && match instanceof input recorded with
         | Some holds => holds
         | None => false
         end)
  || loose_equal_null recorded.

(** The values that a stateless node accepts. *)
Fixpoint accepted (t : type) (input : value) : bool :=
  match t with
  | VoidType => VoidType_accepts input
  | ThisType recorded => ThisType_accepted recorded input
  | SymbolLiteralType val => SymbolLiteralType_accepts val input
  | NullableType inner => loose_equal_null input || accepted inner input
  | _ => false
  end.


(** Every [SymbolLiteralType] of the node holds a symbol, as the class
    declares. *)
Fixpoint symbolic (t : type) : bool :=
  match t with
  | SymbolLiteralType val => String.eqb (typeof val) "symbol"
  | NullableType inner => symbolic inner
  | FlowIntoType _ (Some bound) => symbolic bound
  | _ => true
  end.

(** The same nodes and the [FlowIntoType]s over them, chained through
    their bounds. *)
Fixpoint diagnosable (t : type) : bool :=
  match t with
  | VoidType | ThisType _ | SymbolLiteralType _ => true
  | NullableType inner => diagnosable inner
  | FlowIntoType _ None => true
  | FlowIntoType _ (Some bound) => diagnosable bound
  | _ => false
  end.

(** The outcome [c] of [collectErrors] on [validation] and [path] is what
    the outcome [a] of [accepts] announces: the opposite boolean and the same
    store, nothing recorded when the input is accepted and one error at
    [path] when it is not; an exception or no end when [accepts] has one. *)
Definition outcomes_agree (validation : Validation) (path : IdentifierPath)
    (a : outcome bool) (c : outcome (bool * Validation)) : Prop :=
  match a with
  | Returns ok s' =>
      exists errors,
        c = Returns (negb ok, (validation ++ errors)%list) s' /\
        (if ok then errors = []
         else exists expected message, errors = [(path, expected, message)])
  | Throws e => c = Throws e
  | Diverges => c = Diverges
  end.

Definition channels_agree (L : Library) (fuel : nat) (this : type)
    (input : value) (s : store) : Prop :=
  forall validation path,
    outcomes_agree validation path
      (accepts L fuel this input s)
      (collectErrors L fuel this validation path input s).

(** ** What an operation returns *)

(** Whenever [m] returns, its result satisfies [Q]. *)
Definition returns_only {A} (Q : A -> Prop) (m : M A) : Prop :=
  forall s a s', m s = Returns a s' -> Q a.

(** The three rankings of the comparator. *)
Definition ternary (z : Z) : Prop := z = -1 \/ z = 0 \/ z = 1.

(** The result of a [collectErrors] that was given [validation]: the
    session holds the errors it held, followed by those that the call
    recorded, and the boolean tells whether the call recorded any. *)
Definition records (validation : Validation) (r : bool * Validation) : Prop :=
  exists errors,
    snd r = (validation ++ errors)%list /\ (fst r = true <-> errors <> []).

(** The methods [collectErrors] of the library only record, given a
    dispatch that only records. *)
Definition library_records (L : Library) : Prop :=
  forall this method,
    collectErrors_of (class_of L this) = Some method ->
    forall dispatch,
      (forall t validation path v,
         returns_only (records validation) (dispatch t validation path v)) ->
      forall validation path v,
        returns_only (records validation) (method dispatch validation path v).

(** ** The assertions of assertParams *)

(** The node and the value of each check on a declared parameter, and of
    each check on an argument beyond them. *)
Definition declared_pairs (params : list (FunctionTypeParam_ type))
    (args : list value) : list (type * value) :=
  map (fun ip => (FunctionTypeParam (snd ip), arg args (fst ip)))
      (indexed 0 params).

Definition excess_pairs (params : list (FunctionTypeParam_ type))
    (rest : option (FunctionTypeRestParam_ type)) (args : list value)
    : list (type * value) :=
  match rest with
  | Some rest =>
      map (fun a => (FunctionTypeRestParam rest, a))
          (skipn (length params) args)
  | None => []
  end.

(** ** A library with annotated functions *)

(** The library of the examples, where the function of identity 2 carries
    the annotation [(x: string) => string] and every other function the
    annotation [() => number]. *)
Definition annotated_library : Library :=
  mkLibrary (Sample.class_of (Sample.compareTypes 3)) (Sample.compareTypes 3)
    (fun _ => ret false) (fun a b => UnionType [a; b]) Sample.typeOf
    (LeafType "AnyType") (LeafType "EmptyType")
    (fun key args => String.concat " " (key :: args)) typeof
    (fun _ _ => ret "T")
    (fun v => match v with
              | function 2 _ =>
                  Some ([Sample.param "x" Sample.string_],
                        mkReturn Sample.string_)
              | function _ _ => Some ([], mkReturn Sample.number_)
              | _ => None
              end).

(** The signature [(x: string) => string]. *)
Definition string_to_string : type :=
  FunctionType [Sample.param "x" Sample.string_] None
    (mkReturn Sample.string_).

(** ** FunctionType and the annotation of a function *)

(** The test of the parameter at position [i] against the annotation of the
    input, as [accepts] and [collectErrors] both make it. *)
Definition annotation_check (L : Library)
    (annotation_params : list (FunctionTypeParam_ type))
    (i : nat) (param : FunctionTypeParam_ type) : M bool :=
  match nth_error annotation_params i with
  | None =>
      if negb (param_optional param) then ret false
      else acceptsType_undefined L (FunctionTypeParam param)
  | Some annotationParam =>
      acceptsType L (FunctionTypeParam param)
                    (FunctionTypeParam annotationParam)
  end.

(** ** Type parameters without a bound *)

(** A [FlowIntoType] whose type parameter has no bound, or is chained
    through its bounds to one that has none. *)
Fixpoint unbounded (t : type) : bool :=
  match t with
  | FlowIntoType _ None => true
  | FlowIntoType _ (Some bound) => unbounded bound
  | _ => false
  end.

(** The type parameter at the end of the chain. *)
Fixpoint final_slot (t : type) : nat :=
  match t with
  | FlowIntoType slot None => slot
  | FlowIntoType slot (Some bound) => final_slot bound
  | _ => O
  end.

(** The bound is one of the two that a [FlowIntoType] does not consult
    before a type is recorded. *)
Definition unconstraining (L : Library) (bound : type) : bool :=
  String.eqb (typeName L bound) "AnyType"
  || String.eqb (typeName L bound) "ExistentialType".

(** The slot is not chained to another [FlowIntoType], and its bound, if it
    has one, does not rank below the input. *)
Definition bound_allows (L : Library) (bound : option type) (input : type)
    (s s1 : store) : Prop :=
  match bound with
  | None => s1 = s
  | Some b =>
      is_FlowIntoType b = false /\
      exists r, r <> -1 /\ compareTypes L b input s = Returns r s1
  end.

(** ** The leaves of the hierarchy *)

(** The classes of the sources whose nodes hold no other node. *)
Definition is_leaf (t : type) : bool :=
  match t with
  | VoidType | ThisType _ | SymbolLiteralType _ => true
  | _ => false
  end.

Definition same_class (t u : type) : bool :=
  match t, u with
  | VoidType, VoidType => true
  | ThisType _, ThisType _ => true
  | SymbolLiteralType _, SymbolLiteralType _ => true
  | _, _ => false
  end.

(** What [compareWith] answers when a leaf is compared with itself. *)
Definition self_ranking (t : type) : Z :=
  match t with
  | ThisType recorded => if truthy recorded then 0 else 1
  | SymbolLiteralType val => if strict_equal val val then 0 else -1
  | _ => 0
  end.

(** The text of a stateless node. *)
Fixpoint rendered (L : Library) (t : type) : string :=
  match t with
  | VoidType => VoidType_toString
  | ThisType _ => ThisType_toString
  | SymbolLiteralType val => String.append "typeof " (value_toString L val)
  | NullableType inner => String.append "? " (rendered L inner)
  | _ => EmptyString
  end.

(** ** Reports that name different nodes *)

(** The errors of a session without the nodes that they name. *)
Definition messages (validation : Validation)
    : list (IdentifierPath * string) :=
  map (fun e => (fst (fst e), snd e)) validation.

(** Two outcomes of [collectErrors] that differ at most in the nodes that
    the recorded errors name. *)
Definition same_report (a b : outcome (bool * Validation)) : Prop :=
  match a, b with
  | Returns (h1, v1) s1, Returns (h2, v2) s2 =>
      h1 = h2 /\ messages v1 = messages v2 /\ s1 = s2
  | Throws e1, Throws e2 => e1 = e2
  | Diverges, Diverges => True
  | _, _ => False
  end.

(** ** unwrap *)

(** [node.unwrap()]: [Type.unwrap], which [VoidType], [SymbolLiteralType]
    and [FunctionType] inherit, and [ThisType.unwrap] return the node;
    [NullableType.unwrap] returns what its inner node unwraps to.
    [FlowIntoType.unwrap] asks its type parameter, and a class of the
    library may override the method: their sources are not available, and
    the result is [None] there. *)
Fixpoint unwrap (t : type) : option type :=
  match t with
  | Type_ | VoidType | ThisType _ | SymbolLiteralType _
  | FunctionType _ _ _ => Some t
  | NullableType inner => unwrap inner
  | _ => None
  end.

Definition is_NullableType (t : type) : bool :=
  match t with
  | NullableType _ => true
  | _ => false
  end.

(** * Properties *)

(** ** JavaScript equality *)

Lemma strict_equal_refl a : a <> NaN -> strict_equal a a = true.
Proof.
  intros Ha. unfold strict_equal.
  destruct (value_eq_dec a a); destruct a; congruence.
Qed.

Lemma strict_equal_true a b : strict_equal a b = true -> a = b /\ a <> NaN.
Proof.
  unfold strict_equal.
  destruct a; try discriminate;
    (destruct (value_eq_dec _ b); [|discriminate]);
    intros _; (split; [assumption | discriminate]).
Qed.

Lemma strict_equal_false a b : a <> b -> strict_equal a b = false.
Proof.
  intros H. unfold strict_equal.
  destruct a; try reflexivity; destruct (value_eq_dec _ b); congruence.
Qed.

Lemma strict_equal_sym (a b : value) : strict_equal a b = strict_equal b a.
Proof.
  destruct (strict_equal a b) eqn:Hab.
  - apply strict_equal_true in Hab. destruct Hab as [<- Ha].
    symmetry. apply strict_equal_refl, Ha.
  - destruct (strict_equal b a) eqn:Hba; [|reflexivity].
    apply strict_equal_true in Hba. destruct Hba as [<- Hb].
    rewrite (strict_equal_refl b Hb) in Hab. discriminate Hab.
Qed.

(** A truthy value is equal to itself. *)
Lemma truthy_own (a : value) : truthy a = true -> strict_equal a a = true.
Proof.
  intros H. apply strict_equal_refl. intros ->. discriminate H.
Qed.

(** ** Running a computation *)

Lemma bind_Returns {A B} (m : M A) (k : A -> M B) (s s' : store) (a : A) :
  m s = Returns a s' -> bind m k s = k a s'.
Proof. intros H. unfold bind. rewrite H. reflexivity. Qed.

Lemma bind_Throws {A B} (m : M A) (k : A -> M B) (s : store) (e : exn) :
  m s = Throws e -> bind m k s = Throws e.
Proof. intros H. unfold bind. rewrite H. reflexivity. Qed.

Lemma bind_Diverges {A B} (m : M A) (k : A -> M B) (s : store) :
  m s = Diverges -> bind m k s = Diverges.
Proof. intros H. unfold bind. rewrite H. reflexivity. Qed.

Lemma bind_ret_l {A B} (a : A) (k : A -> M B) (s : store) :
  bind (ret a) k s = k a s.
Proof. reflexivity. Qed.

(** What a [bind] that returns went through. *)
Lemma bind_inv_Returns {A B} (m : M A) (k : A -> M B) (s s' : store) (b : B) :
  bind m k s = Returns b s' ->
  exists a s1, m s = Returns a s1 /\ k a s1 = Returns b s'.
Proof.
  unfold bind. destruct (m s) as [a s1| |]; try discriminate.
  intros H. exists a, s1. split; [reflexivity | exact H].
Qed.

(** Where the exception of a [bind] comes from. *)
Lemma bind_inv_Throws {A B} (m : M A) (k : A -> M B) (s : store) (e : exn) :
  bind m k s = Throws e ->
  m s = Throws e \/ exists a s1, m s = Returns a s1 /\ k a s1 = Throws e.
Proof.
  unfold bind. destruct (m s) as [a s1| |]; try discriminate.
  - intros H. right. exists a, s1. split; [reflexivity | exact H].
  - intros H. left. congruence.
Qed.

(** ** NullableType *)

(** C6: for every type [T], [NullableType(T).accepts] returns true on the
    missing value, on [undefined] as well as on [null], whatever [T] is; on
    any other input it returns exactly what [T.accepts] returns: it is the
    call [T.accepts(input)], so it ends, throws or changes the store as that
    call does. *)
Theorem NullableType_accepts_missing_or_inner
    (L : Library) (T : type) (s : store) :
  (forall fuel, accepts L (S fuel) (NullableType T) undefined s = Returns true s) /\
  (forall fuel, accepts L (S fuel) (NullableType T) null s = Returns true s) /\
  (forall fuel input,
     input <> undefined -> input <> null ->
     accepts L (S fuel) (NullableType T) input s = accepts L fuel T input s) /\
  (forall input r,
     input <> undefined -> input <> null -> r <> Diverges ->
     (exists fuel, accepts L fuel (NullableType T) input s = r) <->
     (exists fuel, accepts L fuel T input s = r)).
Proof.
  assert (Hstep : forall fuel input,
             input <> undefined -> input <> null ->
             accepts L (S fuel) (NullableType T) input s
             = accepts L fuel T input s).
  { intros fuel input Hu Hn. simpl. unfold NullableType_accepts.
    destruct input; try reflexivity; congruence. }
  split; [reflexivity|]. split; [reflexivity|]. split; [exact Hstep|].
  intros input r Hu Hn Hr. split.
  - intros [[|fuel] H].
    + simpl in H. unfold diverge in H. congruence.
    + exists fuel. rewrite <- Hstep; assumption.
  - intros [fuel H]. exists (S fuel). rewrite Hstep; assumption.
Qed.

Lemma NullableType_accepts_missing_or_inner_witness :
  number 7 <> undefined /\ number 7 <> null /\
  accepts (Sample.library 1) 2 (NullableType VoidType) (number 7) ∅
  = accepts (Sample.library 1) 1 VoidType (number 7) ∅ /\
  accepts (Sample.library 1) 2 (NullableType VoidType) null ∅
  = Returns true ∅.
Proof.
  split; [discriminate|]. split; [discriminate|]. split.
  - apply (NullableType_accepts_missing_or_inner
             (Sample.library 1) VoidType ∅); discriminate.
  - apply (NullableType_accepts_missing_or_inner
             (Sample.library 1) VoidType ∅).
Defined.

(** C7: for [U] neither a [NullableType] nor a [NullLiteralType] nor a
    [VoidType], [NullableType(T).compareWith(U)] returns -1 when
    [compareTypes(T, U)] is -1 and returns 1 otherwise: a result of the inner
    comparison that is not negative is reported as 1, never as 0. *)
Theorem NullableType_compareWith_other
    (L : Library) (T U : type) (s s' : store) (r : Z) :
  nullable_special_case U = false ->
  compareTypes L T U s = Returns r s' ->
  compareWith L (NullableType T) U s
  = Returns (if r =? -1 then -1 else 1) s' /\
  (r = -1 -> compareWith L (NullableType T) U s = Returns (-1) s') /\
  (r <> -1 -> compareWith L (NullableType T) U s = Returns 1 s') /\
  compareWith L (NullableType T) U s <> Returns 0 s'.
Proof.
  intros HU Hcmp.
  assert (H : compareWith L (NullableType T) U s
              = Returns (if r =? -1 then -1 else 1) s').
  { simpl. unfold NullableType_compareWith.
    destruct U; try discriminate HU;
      (rewrite (bind_Returns _ _ _ _ _ Hcmp); now destruct (r =? -1)). }
  rewrite H. split; [reflexivity|]. split; [|split].
  - intros ->. reflexivity.
  - intros Hr. apply Z.eqb_neq in Hr. rewrite Hr. reflexivity.
  - destruct (r =? -1); congruence.
Qed.

Lemma NullableType_compareWith_other_witness :
  nullable_special_case Sample.string_ = false /\
  compareTypes (Sample.library 3) Sample.string_ Sample.string_ ∅
  = Returns 0 ∅ /\
  compareWith (Sample.library 3) (NullableType Sample.string_)
    Sample.string_ ∅ = Returns 1 ∅.
Proof.
  split; [reflexivity|]. split; [reflexivity|].
  apply (NullableType_compareWith_other (Sample.library 3)
           Sample.string_ Sample.string_ ∅ ∅ 0);
    [reflexivity | reflexivity | discriminate].
Defined.

(** ** Type *)

(** C8: for every pair of type nodes [A] and [B], [A.acceptsType(B)] returns
    false exactly when comparing [A] with [B] yields -1, and returns true
    when the comparison yields 0 or 1. *)
Theorem acceptsType_false_iff_compare_negative
    (L : Library) (A B : type) (s s' : store) (r : Z) :
  compareTypes L A B s = Returns r s' ->
  (acceptsType L A B s = Returns false s' <-> r = -1) /\
  (r = 0 \/ r = 1 -> acceptsType L A B s = Returns true s') /\
  acceptsType L A B s = Returns (negb (r =? -1)) s'.
Proof.
  intros Hcmp. unfold acceptsType.
  rewrite (bind_Returns _ _ _ _ _ Hcmp).
  destruct (Z.eqb_spec r (-1)) as [->|Hr]; simpl; unfold ret.
  - split; [split; auto|]. split; [|reflexivity].
    intros [|]; discriminate.
  - split; [split; congruence|]. split; reflexivity.
Qed.

Lemma acceptsType_false_iff_compare_negative_witness :
  compareTypes (Sample.library 3) Sample.string_ Sample.number_ ∅
  = Returns (-1) ∅ /\
  acceptsType (Sample.library 3) Sample.string_ Sample.number_ ∅
  = Returns false ∅ /\
  compareTypes (Sample.library 3) (NullableType Sample.string_)
    Sample.string_ ∅ = Returns 1 ∅ /\
  acceptsType (Sample.library 3) (NullableType Sample.string_)
    Sample.string_ ∅ = Returns true ∅.
Proof.
  split; [reflexivity|]. split.
  { apply (acceptsType_false_iff_compare_negative (Sample.library 3)
             Sample.string_ Sample.number_ ∅ ∅ (-1)); reflexivity. }
  split; [reflexivity|].
  apply (proj1 (proj2 (acceptsType_false_iff_compare_negative
                         (Sample.library 3) (NullableType Sample.string_)
                         Sample.string_ ∅ ∅ 1 eq_refl))).
  right. reflexivity.
Defined.

(** C10: the [collectErrors] of the base class returns false and records
    nothing, for every input, whereas the base [accepts] and [compareWith]
    throw.  Hence a class that does not override [collectErrors] passes
    every value at [assert], whatever its [accepts] does. *)
Theorem Type_collectErrors_never_fails
    (L : Library) (fuel : nat) (validation : Validation)
    (path : IdentifierPath) (input : value) (s : store) :
  collectErrors L (S fuel) Type_ validation path input s
  = Returns (false, validation) s /\
  accepts L (S fuel) Type_ input s = Throws (Error "Not implemented.") /\
  (forall other, compareWith L Type_ other s = Throws (Error "Not implemented.")) /\
  (forall this,
     is_library_class this = true ->
     collectErrors_of (class_of L this) = None ->
     collectErrors L (S fuel) this validation path input s
     = Returns (false, validation) s /\
     assert L (S fuel) this input s = Returns input s).
Proof.
  split; [reflexivity|]. split; [reflexivity|]. split; [reflexivity|].
  intros this Hclass Hnone.
  assert (H : forall validation path,
             collectErrors L (S fuel) this validation path input s
             = Returns (false, validation) s).
  { intros v p. destruct this; try discriminate Hclass;
      simpl; simpl in Hnone; rewrite Hnone; reflexivity. }
  split; [apply H|].
  unfold assert, makeError, bind. rewrite (H [] []). reflexivity.
Qed.

Lemma Type_collectErrors_never_fails_witness :
  accepts rejecting_library 1 (LeafType "Never") (number 7) ∅
  = Returns false ∅ /\
  collectErrors rejecting_library 1 (LeafType "Never") [] [] (number 7) ∅
  = Returns (false, []) ∅ /\
  assert rejecting_library 1 (LeafType "Never") (number 7) ∅
  = Returns (number 7) ∅.
Proof.
  split; [reflexivity|].
  apply (Type_collectErrors_never_fails rejecting_library 0 [] []
           (number 7) ∅); reflexivity.
Defined.

(** ** FunctionType.compareWith *)

Lemma FunctionType_compareWith_params_ranking (L : Library)
    (params : list (FunctionTypeParam_ type)) :
  forall (inputParams : list (FunctionTypeParam_ type)) (isGreater : bool)
         (s s2 : store) (rs : list Z),
    compare_positions L params inputParams s = Returns rs s2 ->
    exists s',
      FunctionType_compareWith_params L isGreater params inputParams s
      = Returns (if existsb (Z.eqb (-1)) rs then -1
                 else if isGreater || existsb (Z.eqb 1) rs then 1 else 0) s'
      /\ (existsb (Z.eqb (-1)) rs = false -> s' = s2).
Proof.
  unfold compare_positions.
  induction params as [|param params IH]; intros [|inputParam inputParams]
    isGreater s s2 rs H; simpl in H.
  - inversion H; subst. exists s2. simpl. rewrite orb_false_r. auto.
  - inversion H; subst. exists s2. simpl. rewrite orb_false_r. auto.
  - inversion H; subst. exists s2. simpl. rewrite orb_false_r. auto.
  - apply bind_inv_Returns in H. destruct H as (r & s1 & Hr & H).
    apply bind_inv_Returns in H. destruct H as (rs' & s3 & Hrs & H).
    inversion H; subst. clear H.
    cbn [FunctionType_compareWith_params existsb].
    rewrite (bind_Returns _ _ _ _ _ Hr).
    rewrite (Z.eqb_sym (-1) r), (Z.eqb_sym 1 r).
    destruct (Z.eqb_spec r (-1)) as [->|Hneq].
    + exists s1. split; [reflexivity | discriminate].
    + cbn [orb].
      destruct (IH inputParams (if r =? 1 then true else isGreater)
                  s1 s2 rs' Hrs) as (s' & Hloop & Hs').
      exists s'. rewrite Hloop. split; [|exact Hs'].
      destruct (existsb (Z.eqb (-1)) rs'); [reflexivity|].
      destruct (r =? 1); cbn [orb]; [|reflexivity].
      rewrite orb_true_r. reflexivity.
Qed.

(** The loop stops at the first comparison that is -1: when it answers -1
    on the first [k] parameters, it answers -1 on all of them, from the same
    store. *)
Lemma FunctionType_compareWith_params_prefix (L : Library) (k : nat) :
  forall (params inputParams : list (FunctionTypeParam_ type))
         (isGreater : bool) (s s' : store),
    FunctionType_compareWith_params L isGreater
      (firstn k params) (firstn k inputParams) s = Returns (-1) s' ->
    FunctionType_compareWith_params L isGreater params inputParams s
    = Returns (-1) s'.
Proof.
  induction k as [|k IH]; intros params inputParams isGreater s s' H.
  - simpl in H. unfold ret in H. destruct isGreater; discriminate H.
  - destruct params as [|param params], inputParams as [|inputParam inputParams];
      try (simpl in H; unfold ret in H; destruct isGreater; discriminate H).
    cbn [firstn FunctionType_compareWith_params] in H |- *.
    unfold bind in H |- *.
    destruct (compareTypes L (FunctionTypeParam param)
                (FunctionTypeParam inputParam) s) as [r s1| |];
      try discriminate H.
    destruct (r =? -1); [exact H|]. apply IH. exact H.
Qed.

(** C5: [FunctionType.compareWith] answers -1 to an input that is not a
    [FunctionType].  Otherwise it compares the return types first, and -1
    there is the answer; it answers -1 when the compared signature declares
    fewer parameters; otherwise it compares the parameters by position,
    answers -1 if one of these comparisons is -1 (the comparisons after it
    are not made), 1 if a comparison (of the return types or of a parameter)
    is 1 and none is -1, and 0 otherwise. *)
Theorem FunctionType_compareWith_ranking
    (L : Library)
    (params : list (FunctionTypeParam_ type))
    (rest : option (FunctionTypeRestParam_ type))
    (returnType : FunctionTypeReturn_ type) (s : store) :
  (forall input,
     (forall ps r rt, input <> FunctionType ps r rt) ->
     compareWith L (FunctionType params rest returnType) input s
     = Returns (-1) s) /\
  (forall inputParams inputRest inputReturnType returnResult s1 paramResults s2,
     compareTypes L (FunctionTypeReturn returnType)
                    (FunctionTypeReturn inputReturnType) s
     = Returns returnResult s1 ->
     (returnResult <> -1 ->
      (length params <= length inputParams)%nat ->
      compare_positions L params inputParams s1 = Returns paramResults s2) ->
     exists s',
       compareWith L (FunctionType params rest returnType)
                     (FunctionType inputParams inputRest inputReturnType) s
       = Returns (FunctionType_ranking returnResult
                    (Nat.ltb (length inputParams) (length params))
                    paramResults) s') /\
  (forall inputParams inputRest inputReturnType returnResult s1 k
          paramResults s2,
     compareTypes L (FunctionTypeReturn returnType)
                    (FunctionTypeReturn inputReturnType) s
     = Returns returnResult s1 ->
     compare_positions L (firstn k params) (firstn k inputParams) s1
     = Returns paramResults s2 ->
     In (-1) paramResults ->
     exists s',
       compareWith L (FunctionType params rest returnType)
                     (FunctionType inputParams inputRest inputReturnType) s
       = Returns (-1) s').
Proof.
  split; [|split].
  - intros input Hnot. simpl. unfold FunctionType_compareWith.
    destruct input; try reflexivity. exfalso. eapply Hnot. reflexivity.
  - intros inputParams inputRest inputReturnType returnResult s1
      paramResults s2 Hret Hpos.
    simpl. unfold FunctionType_compareWith, FunctionType_ranking.
    rewrite (bind_Returns _ _ _ _ _ Hret).
    destruct (Z.eqb_spec returnResult (-1)) as [->|Hneq].
    + exists s1. reflexivity.
    + destruct (Nat.ltb_spec (length inputParams) (length params))
        as [Hlt|Hge].
      * exists s1. reflexivity.
      * destruct (FunctionType_compareWith_params_ranking L params
                    inputParams (returnResult =? 1) s1 s2 paramResults
                    (Hpos Hneq Hge)) as (s' & Hloop & _).
        exists s'. exact Hloop.
  - intros inputParams inputRest inputReturnType returnResult s1 k
      paramResults s2 Hret Hpos Hin.
    simpl. unfold FunctionType_compareWith.
    rewrite (bind_Returns _ _ _ _ _ Hret).
    destruct (returnResult =? -1); [exists s1; reflexivity|].
    destruct (Nat.ltb (length inputParams) (length params));
      [exists s1; reflexivity|].
    destruct (FunctionType_compareWith_params_ranking L (firstn k params)
                (firstn k inputParams) (returnResult =? 1) s1 s2 paramResults
                Hpos) as (s' & Hloop & _).
    assert (Hex : existsb (Z.eqb (-1)) paramResults = true).
    { apply existsb_exists. exists (-1). split; [exact Hin | reflexivity]. }
    rewrite Hex in Hloop. exists s'.
    apply (FunctionType_compareWith_params_prefix L k). exact Hloop.
Qed.

Lemma FunctionType_compareWith_ranking_witness :
  compareTypes (Sample.library 5)
    (FunctionTypeReturn (mkReturn Sample.string_))
    (FunctionTypeReturn (mkReturn Sample.string_)) ∅ = Returns 0 ∅ /\
  compare_positions (Sample.library 5)
    [Sample.param "x" (NullableType Sample.string_)]
    [Sample.param "x" Sample.string_; Sample.param "y" Sample.number_] ∅
  = Returns [1] ∅ /\
  exists s',
    compareWith (Sample.library 5)
      (FunctionType [Sample.param "x" (NullableType Sample.string_)] None
         (mkReturn Sample.string_))
      (FunctionType [Sample.param "x" Sample.string_;
                     Sample.param "y" Sample.number_] None
         (mkReturn Sample.string_)) ∅
    = Returns 1 s'.
Proof.
  split; [reflexivity|]. split; [reflexivity|].
  apply (proj1 (proj2 (FunctionType_compareWith_ranking (Sample.library 5)
                  [Sample.param "x" (NullableType Sample.string_)] None
                  (mkReturn Sample.string_) ∅))
           [Sample.param "x" Sample.string_; Sample.param "y" Sample.number_]
           None (mkReturn Sample.string_) 0 ∅ [1] ∅);
    [reflexivity | intros; reflexivity].
Defined.

(** ** FunctionType.acceptsParams and FunctionType.invoke *)

Lemma every_all_of {A} (check : nat -> A -> M bool) (l : list A) :
  forall (i : nat) (s : store),
    every check i l s
    = all_of (map (fun ia => check (fst ia) (snd ia)) (indexed i l)) s.
Proof.
  unfold indexed.
  induction l as [|a l IH]; intros i s; [reflexivity|].
  cbn [every length seq combine map all_of fst snd]. unfold bind.
  destruct (check i a s) as [[|] s'| |]; try reflexivity.
  apply IH.
Qed.

Lemma every_unindexed {A} (check : A -> M bool) (l : list A) :
  forall (i : nat) (s : store),
    every (fun _ a => check a) i l s = all_of (map check l) s.
Proof.
  induction l as [|a l IH]; intros i s; [reflexivity|].
  cbn [every map all_of]. unfold bind.
  destruct (check a s) as [[|] s'| |]; try reflexivity.
  apply IH.
Qed.

Lemma all_of_app (checks1 checks2 : list (M bool)) (s : store) :
  all_of (checks1 ++ checks2) s
  = (ok <- all_of checks1 ;; if ok then all_of checks2 else ret false) s.
Proof.
  revert s. induction checks1 as [|c checks1 IH]; intros s; [reflexivity|].
  cbn [app all_of]. unfold bind at 1 2 3.
  destruct (c s) as [[|] s'| |]; try reflexivity.
  rewrite IH. reflexivity.
Qed.

Lemma bind_bool_eta (m : M bool) (s : store) :
  (ok <- m ;; if negb ok then ret false else ret true) s = m s.
Proof. unfold bind. destruct (m s) as [[|] s'| |]; reflexivity. Qed.

Lemma arg_beyond (args : list value) (i : nat) :
  (length args <= i)%nat -> arg args i = undefined.
Proof. intros H. unfold arg. apply nth_overflow. exact H. Qed.

Lemma indexed_bound {A} (l : list A) (i : nat) (a : A) :
  In (i, a) (indexed 0 l) -> (i < length l)%nat.
Proof.
  unfold indexed. intros H. apply List.in_combine_l in H.
  apply List.in_seq in H. lia.
Qed.

Lemma all_of_map_pure {A} (f : A -> M bool) (g : A -> bool) (l : list A) :
  (forall a s, In a l -> f a s = Returns (g a) s) ->
  forall s, all_of (map f l) s = Returns (forallb g l) s.
Proof.
  induction l as [|a l IH]; intros H s; [reflexivity|].
  cbn [map all_of forallb]. unfold bind. rewrite (H a s (or_introl eq_refl)).
  destruct (g a); [|reflexivity].
  apply IH. intros a' s' Hin. apply H. right. exact Hin.
Qed.

Lemma FunctionType_acceptsParams_all_of
    (accepts : type -> value -> M bool)
    (params : list (FunctionTypeParam_ type))
    (rest : option (FunctionTypeRestParam_ type))
    (args : list value) (s : store) :
  FunctionType_acceptsParams accepts params rest args s
  = all_of (declared_checks accepts params args
            ++ match rest with
               | Some rest => excess_checks accepts params rest args
               | None => []
               end) s.
Proof.
  unfold FunctionType_acceptsParams. rewrite all_of_app.
  unfold bind at 1 3. rewrite every_all_of.
  replace (map _ (indexed 0 params)) with (declared_checks accepts params args).
  2:{ unfold declared_checks. apply List.map_ext. intros [i p]. simpl.
      destruct (Nat.ltb_spec i (length args)) as [Hlt|Hge]; [reflexivity|].
      rewrite (arg_beyond args i Hge). reflexivity. }
  destruct (all_of (declared_checks accepts params args) s)
    as [[|] s1| |]; try reflexivity.
  cbn [negb]. destruct rest as [rest|]; [|reflexivity].
  destruct (Nat.ltb_spec (length params) (length args)) as [Hlt|Hge].
  - rewrite bind_bool_eta. apply every_unindexed.
  - unfold excess_checks. rewrite (List.skipn_all2 args Hge). reflexivity.
Qed.

Lemma FunctionType_invoke_all_of (L : Library)
    (accepts : type -> value -> M bool)
    (params : list (FunctionTypeParam_ type))
    (rest : option (FunctionTypeRestParam_ type))
    (returnType : FunctionTypeReturn_ type)
    (args : list type) (s : store) :
  FunctionType_invoke L accepts params rest returnType args s
  = (ok <- all_of (declared_type_checks L accepts params args
                   ++ match rest with
                      | Some rest => excess_type_checks L params rest args
                      | None => []
                      end) ;;
     ret (if ok then return_type returnType else empty L)) s.
Proof.
  unfold FunctionType_invoke. unfold bind at 1 3.
  rewrite all_of_app. unfold bind at 2. rewrite every_all_of.
  fold (declared_type_checks L accepts params args).
  destruct (all_of (declared_type_checks L accepts params args) s)
    as [[|] s1| |]; try reflexivity.
  cbn [negb]. destruct rest as [rest|]; [|reflexivity].
  destruct (Nat.ltb_spec (length params) (length args)) as [Hlt|Hge].
  - unfold bind, excess_type_checks. rewrite every_unindexed.
    destruct (all_of _ s1) as [[|] s2| |]; reflexivity.
  - unfold excess_type_checks. rewrite (List.skipn_all2 args Hge). reflexivity.
Qed.

Lemma declared_checks_firstn (accepts : type -> value -> M bool)
    (params : list (FunctionTypeParam_ type)) (args : list value) :
  declared_checks accepts params (firstn (length params) args)
  = declared_checks accepts params args.
Proof.
  unfold declared_checks. apply List.map_ext_in. intros [i p] Hin. simpl.
  apply indexed_bound in Hin. unfold arg. rewrite List.nth_firstn.
  destruct (Nat.ltb_spec i (length params)); [reflexivity | lia].
Qed.

Lemma declared_type_checks_firstn (L : Library)
    (accepts : type -> value -> M bool)
    (params : list (FunctionTypeParam_ type)) (args : list type) :
  declared_type_checks L accepts params (firstn (length params) args)
  = declared_type_checks L accepts params args.
Proof.
  unfold declared_type_checks. apply List.map_ext_in. intros [i p] Hin. simpl.
  apply indexed_bound in Hin. rewrite List.nth_error_firstn.
  destruct (Nat.ltb_spec i (length params)); [reflexivity | lia].
Qed.

(** C1, as the code has it: a [FunctionType] without a rest parameter does
    not look at the arguments beyond its declared parameters, so
    [acceptsParams] and [invoke] answer as they do on the argument list cut
    to the declared parameters, and accept exactly when every declared
    parameter is satisfied (by [undefined] where the argument is absent).
    With a rest parameter, [acceptsParams] accepts exactly when all declared
    parameters are satisfied and every excess argument is accepted by the
    rest parameter; the checks run in this order and stop at the first that
    fails. *)
Theorem FunctionType_acceptsParams_declared_then_excess
    (L : Library) (fuel : nat)
    (params : list (FunctionTypeParam_ type))
    (returnType : FunctionTypeReturn_ type) :
  (forall args s,
     FunctionType_acceptsParams (accepts L fuel) params None args s
     = all_of (declared_checks (accepts L fuel) params args) s /\
     FunctionType_acceptsParams (accepts L fuel) params None args s
     = FunctionType_acceptsParams (accepts L fuel) params None
         (firstn (length params) args) s) /\
  (forall args s,
     FunctionType_invoke L (accepts L fuel) params None returnType args s
     = FunctionType_invoke L (accepts L fuel) params None returnType
         (firstn (length params) args) s) /\
  (forall rest args s,
     FunctionType_acceptsParams (accepts L fuel) params (Some rest) args s
     = all_of (declared_checks (accepts L fuel) params args
               ++ excess_checks (accepts L fuel) params rest args) s) /\
  (forall rest args s
          (satisfies : FunctionTypeParam_ type -> value -> bool)
          (element : value -> bool),
     (forall p v s, In p params ->
        accepts L fuel (FunctionTypeParam p) v s = Returns (satisfies p v) s) ->
     (forall v s,
        accepts L fuel (FunctionTypeRestParam rest) v s
        = Returns (element v) s) ->
     FunctionType_acceptsParams (accepts L fuel) params (Some rest) args s
     = Returns
         (forallb (fun ip => satisfies (snd ip) (arg args (fst ip)))
                  (indexed 0 params)
          && forallb element (skipn (length params) args)) s).
Proof.
  split; [|split; [|split]].
  - intros args s. rewrite !FunctionType_acceptsParams_all_of.
    rewrite !app_nil_r. rewrite declared_checks_firstn. split; reflexivity.
  - intros args s. rewrite !FunctionType_invoke_all_of.
    rewrite !app_nil_r. rewrite declared_type_checks_firstn. reflexivity.
  - intros rest args s. apply FunctionType_acceptsParams_all_of.
  - intros rest args s satisfies element Hparams Hrest.
    rewrite FunctionType_acceptsParams_all_of, all_of_app.
    unfold bind, declared_checks, excess_checks.
    rewrite (all_of_map_pure _
               (fun ip => satisfies (snd ip) (arg args (fst ip)))).
    2:{ intros [i p] s' Hin. simpl. apply Hparams.
        unfold indexed in Hin. eapply List.in_combine_r. exact Hin. }
    destruct (forallb _ (indexed 0 params)); [|reflexivity].
    rewrite (all_of_map_pure _ element); [reflexivity|].
    intros v s' _. apply Hrest.
Qed.

Lemma FunctionType_acceptsParams_declared_then_excess_witness :
  (forall p v s, In p [Sample.param "x" Sample.string_] ->
     accepts (Sample.library 1) 3 (FunctionTypeParam p) v s
     = Returns (String.eqb (typeof v) "string") s) /\
  (forall v s,
     accepts (Sample.library 1) 3
       (FunctionTypeRestParam (mkRestParam "r" Sample.number_)) v s
     = Returns (String.eqb (typeof v) "number") s) /\
  FunctionType_acceptsParams (accepts (Sample.library 1) 3)
    [Sample.param "x" Sample.string_]
    (Some (mkRestParam "r" Sample.number_))
    [str "x"; number 1; number 2] ∅ = Returns true ∅ /\
  FunctionType_acceptsParams (accepts (Sample.library 1) 3)
    [Sample.param "x" Sample.string_]
    (Some (mkRestParam "r" Sample.number_))
    [str "x"; number 1; str "y"] ∅ = Returns false ∅.
Proof.
  assert (Hp : forall p v s, In p [Sample.param "x" Sample.string_] ->
             accepts (Sample.library 1) 3 (FunctionTypeParam p) v s
             = Returns (String.eqb (typeof v) "string") s).
  { intros p v s [<-|[]]. reflexivity. }
  assert (Hr : forall v s,
             accepts (Sample.library 1) 3
               (FunctionTypeRestParam (mkRestParam "r" Sample.number_)) v s
             = Returns (String.eqb (typeof v) "number") s).
  { intros v s. reflexivity. }
  split; [exact Hp|]. split; [exact Hr|]. split.
  - exact (proj2 (proj2 (proj2
             (FunctionType_acceptsParams_declared_then_excess
                (Sample.library 1) 3 [Sample.param "x" Sample.string_]
                (mkReturn Sample.boolean_))))
             (mkRestParam "r" Sample.number_)
             [str "x"; number 1; number 2] ∅
             (fun _ v => String.eqb (typeof v) "string")
             (fun v => String.eqb (typeof v) "number") Hp Hr).
  - exact (proj2 (proj2 (proj2
             (FunctionType_acceptsParams_declared_then_excess
                (Sample.library 1) 3 [Sample.param "x" Sample.string_]
                (mkReturn Sample.boolean_))))
             (mkRestParam "r" Sample.number_)
             [str "x"; number 1; str "y"] ∅
             (fun _ v => String.eqb (typeof v) "string")
             (fun v => String.eqb (typeof v) "number") Hp Hr).
Defined.

(** The signature [(input: string) => string], which has no rest
    parameter, accepts two arguments; so does [() => string] one argument,
    and [invoke] matches likewise. *)
Lemma FunctionType_acceptsParams_accepts_excess :
  (length [str "a"; str "b"]
   > length [Sample.param "input" Sample.string_])%nat /\
  FunctionType_acceptsParams (accepts (Sample.library 1) 3)
    [Sample.param "input" Sample.string_] None [str "a"; str "b"] ∅
  = Returns true ∅ /\
  FunctionType_acceptsParams (accepts (Sample.library 1) 3)
    [] None [number 1] ∅
  = Returns true ∅ /\
  FunctionType_invoke (Sample.library 3) (accepts (Sample.library 3) 3)
    [Sample.param "input" Sample.string_] None (mkReturn Sample.string_)
    [Sample.string_; Sample.string_] ∅
  = Returns Sample.string_ ∅.
Proof.
  split; [simpl; lia|]. split; [reflexivity|]. split; reflexivity.
Qed.

(** ** What every operation preserves

    A relation [R] between the store before and after a call, and a set [E]
    of exceptions, are preserved by every operation of the classes above as
    soon as the library preserves them, [R] is a preorder that admits the
    two ways in which the sources write [recorded] (a first recording, and
    the union of the recorded type with another type), and [E] contains the
    error of the unimplemented methods of [Type]. *)

Section Respect.

Variable L : Library.
Variable R : store -> store -> Prop.
Variable E : exn -> Prop.

Hypothesis R_refl : forall s, R s s.
Hypothesis R_trans : forall s1 s2 s3, R s1 s2 -> R s2 s3 -> R s1 s3.
Hypothesis R_record :
  forall s s' slot t, s !! slot = None -> R s s' -> R s (<[slot := t]> s').
Hypothesis R_union :
  forall s s' slot X t,
    s !! slot = Some X -> R s s' -> R s (<[slot := union L X t]> s').
Hypothesis E_not_implemented : E (Error "Not implemented.").
Hypothesis E_prototype : E prototype_error.
Hypothesis E_nullish : E nullish_error.

Lemma hoare_ret {A} (s : store) (a : A) (Q : A -> store -> Prop) :
  Q a s -> hoare E s (ret a) Q.
Proof. intros H. exact H. Qed.

Lemma hoare_diverge {A} (s : store) (Q : A -> store -> Prop) :
  hoare E s diverge Q.
Proof. exact I. Qed.

Lemma hoare_not_implemented {A} (s : store) (Q : A -> store -> Prop) :
  hoare E s (throw (Error "Not implemented.")) Q.
Proof. exact E_not_implemented. Qed.

Lemma hoare_bind {A B} (s : store) (m : M A) (k : A -> M B)
    (Q : A -> store -> Prop) (Q' : B -> store -> Prop) :
  hoare E s m Q ->
  (forall a s1, Q a s1 -> hoare E s1 (k a) Q') ->
  hoare E s (bind m k) Q'.
Proof.
  unfold hoare, bind. intros Hm Hk.
  destruct (m s) as [a s1|e|]; auto. apply Hk. exact Hm.
Qed.

Lemma hoare_conseq {A} (s : store) (m : M A) (Q Q' : A -> store -> Prop) :
  hoare E s m Q -> (forall a s', Q a s' -> Q' a s') -> hoare E s m Q'.
Proof.
  unfold hoare. intros Hm HQ. destruct (m s) as [a s1|e|]; auto.
Qed.

(** A call that preserves [R], made after steps that preserved it. *)
Lemma hoare_call {A} (s0 s : store) (m : M A) :
  respects R E m -> R s0 s -> hoare E s m (fun _ s' => R s0 s').
Proof.
  intros Hm Hs. eapply hoare_conseq; [apply Hm|].
  intros a s' Hs'. simpl in Hs'. eapply R_trans; eassumption.
Qed.

Lemma hoare_get_recorded (s : store) (slot : nat) :
  hoare E s (get_recorded slot) (fun recorded s' => recorded = s !! slot /\ s' = s).
Proof. split; reflexivity. Qed.

Lemma hoare_set_recorded (s : store) (slot : nat) (t : type) :
  hoare E s (set_recorded slot t) (fun _ s' => s' = <[slot := t]> s).
Proof. reflexivity. Qed.

Lemma respects_ret {A} (a : A) : respects R E (ret a).
Proof. intros s. apply hoare_ret, R_refl. Qed.

Lemma respects_bind {A B} (m : M A) (k : A -> M B) :
  respects R E m -> (forall a, respects R E (k a)) -> respects R E (bind m k).
Proof.
  intros Hm Hk s. eapply hoare_bind; [apply Hm|].
  intros a s1 Hs1. simpl in Hs1. apply hoare_call; auto.
Qed.

Lemma respects_not_implemented {A} :
  respects R E (@throw A (Error "Not implemented.")).
Proof. intros s. apply hoare_not_implemented. Qed.

Lemma respects_diverge {A} : respects R E (@diverge A).
Proof. intros s. apply hoare_diverge. Qed.

Lemma ThisType_isInstance_respects (recorded input : value) :
  respects R E (ThisType_isInstance recorded input).
Proof.
  unfold ThisType_isInstance.
  destruct (String.eqb _ _); [|apply respects_ret].
  destruct (instanceof input recorded) as [holds|]; [apply respects_ret|].
  intros s. exact E_prototype.
Qed.

Lemma ThisType_accepts_respects (recorded input : value) :
  respects R E (ThisType_accepts recorded input).
Proof.
  unfold ThisType_accepts.
  destruct (strict_equal _ _); [apply respects_ret|].
  apply respects_bind; [apply ThisType_isInstance_respects|].
  intros [|]; [apply respects_ret|].
  destruct (negb _); apply respects_ret.
Qed.

Lemma ThisType_collectErrors_respects (recorded : value)
    (validation : Validation) (path : IdentifierPath) (input : value) :
  respects R E (ThisType_collectErrors L recorded validation path input).
Proof.
  unfold ThisType_collectErrors.
  destruct (strict_equal _ _); [apply respects_ret|].
  apply respects_bind; [apply ThisType_isInstance_respects|].
  intros [|]; [apply respects_ret|].
  destruct (negb _); apply respects_ret.
Qed.

Lemma SymbolLiteralType_toString_respects (val : value) :
  respects R E (SymbolLiteralType_toString L val).
Proof.
  unfold SymbolLiteralType_toString.
  destruct (loose_equal_null val); [|apply respects_ret].
  intros s. exact E_nullish.
Qed.

Lemma SymbolLiteralType_collectErrors_respects (val : value)
    (validation : Validation) (path : IdentifierPath) (input : value) :
  respects R E (SymbolLiteralType_collectErrors L val validation path input).
Proof.
  unfold SymbolLiteralType_collectErrors.
  destruct (strict_equal _ _); [apply respects_ret|].
  apply respects_bind; [apply SymbolLiteralType_toString_respects|].
  intros text. apply respects_ret.
Qed.

Lemma respects_every {A} (check : nat -> A -> M bool) (l : list A) :
  (forall i a, respects R E (check i a)) ->
  forall i, respects R E (every check i l).
Proof.
  intros Hcheck. induction l as [|a l IH]; intros i; simpl.
  - apply respects_ret.
  - apply respects_bind; [apply Hcheck|].
    intros [|]; [apply IH | apply respects_ret].
Qed.

Lemma respects_each {A B} (body : A -> M B) (l : list A) :
  (forall a, respects R E (body a)) -> respects R E (each body l).
Proof.
  intros Hbody. induction l as [|a l IH]; simpl.
  - apply respects_ret.
  - apply respects_bind; [apply Hbody | intros _; exact IH].
Qed.

Lemma respects_mapM {A B} (f : A -> M B) (l : list A) :
  (forall a, respects R E (f a)) -> respects R E (mapM f l).
Proof.
  intros Hf. induction l as [|a l IH]; simpl.
  - apply respects_ret.
  - apply respects_bind; [apply Hf|]. intros b.
    apply respects_bind; [exact IH|]. intros bs. apply respects_ret.
Qed.

Hypothesis HL : library_respects L R E.

Lemma acceptsType_respects (this input : type) :
  respects R E (acceptsType L this input).
Proof.
  unfold acceptsType. apply respects_bind.
  - apply (respects_compareTypes HL).
  - intros r. destruct (r =? -1); apply respects_ret.
Qed.

Section Bodies.

Variable accepts : type -> value -> M bool.
Variable collectErrors :
  type -> Validation -> IdentifierPath -> value -> M (bool * Validation).
Variable compareWith : type -> type -> M Z.
Variable toString : type -> M string.

Hypothesis accepts_respects : forall t v, respects R E (accepts t v).
Hypothesis collectErrors_respects :
  forall t validation path v, respects R E (collectErrors t validation path v).
Hypothesis compareWith_respects : forall t input, respects R E (compareWith t input).
Hypothesis toString_respects : forall t, respects R E (toString t).

Lemma NullableType_accepts_respects (inner : type) (input : value) :
  respects R E (NullableType_accepts accepts inner input).
Proof.
  unfold NullableType_accepts.
  destruct (loose_equal_null input); [apply respects_ret | auto].
Qed.

Lemma NullableType_collectErrors_respects (inner : type)
    (validation : Validation) (path : IdentifierPath) (input : value) :
  respects R E (NullableType_collectErrors collectErrors inner validation path input).
Proof.
  unfold NullableType_collectErrors.
  destruct (loose_equal_null input); [apply respects_ret | auto].
Qed.

Lemma NullableType_compareWith_respects (inner input : type) :
  respects R E (NullableType_compareWith L inner input).
Proof.
  unfold NullableType_compareWith.
  destruct input; try apply respects_ret;
    try apply (respects_compareTypes HL);
    (apply respects_bind; [apply (respects_compareTypes HL)|];
     intros r; destruct (r =? -1); apply respects_ret).
Qed.

Lemma NullableType_toString_respects (inner : type) :
  respects R E (NullableType_toString toString inner).
Proof.
  unfold NullableType_toString. apply respects_bind; [auto|].
  intros s. apply respects_ret.
Qed.

(** The end of the three methods of [FlowIntoType]: [recorded] is written
    after calls that preserved [R] since the method read it. *)
Lemma hoare_record {A} (s0 s : store) (slot : nat) (t : type) (a : A) :
  s0 !! slot = None -> R s0 s ->
  hoare E s (set_recorded slot t ;;; ret a) (fun _ s' => R s0 s').
Proof. intros Hslot Hs. apply R_record; assumption. Qed.

Lemma hoare_widen {A} (s0 s : store) (slot : nat) (X t : type) (a : A) :
  s0 !! slot = Some X -> R s0 s ->
  hoare E s (set_recorded slot (union L X t) ;;; ret a) (fun _ s' => R s0 s').
Proof. intros Hslot Hs. apply R_union; assumption. Qed.

Lemma FlowIntoType_accepts_respects (slot : nat) (bound : option type)
    (input : value) :
  respects R E (FlowIntoType_accepts L accepts slot bound input).
Proof.
  intros s. unfold FlowIntoType_accepts.
  eapply hoare_bind; [apply hoare_get_recorded|].
  intros recorded s1 [-> ->].
  assert (Hcall : forall t, hoare E s (accepts t input) (fun _ s' => R s s')).
  { intros t. apply hoare_call; auto. }
  destruct (s !! slot) as [X|] eqn:Hslot.
  - assert (Hrecorded : forall s1, R s s1 ->
              hoare E s1
                (fits <- accepts X input ;;
                 if fits then ret true
                 else set_recorded slot (union L X (typeOf L input)) ;;; ret true)
                (fun _ s' => R s s')).
    { intros s1 Hs1. eapply hoare_bind; [apply hoare_call; eauto|].
      intros [|] s2 Hs2; [exact Hs2 | apply hoare_widen; assumption]. }
    destruct bound as [b|].
    + destruct b; try apply Hcall;
        (eapply hoare_bind; [apply Hcall|];
         intros [|] s1 Hs1; [apply Hrecorded; exact Hs1 | exact Hs1]).
    + apply Hrecorded, R_refl.
  - destruct bound as [b|].
    + destruct b; try apply Hcall;
        (match goal with
         | |- context [if ?c then _ else _] => destruct c
         end; [apply hoare_ret, R_refl|];
         eapply hoare_bind; [apply Hcall|];
         intros [|] s1 Hs1; [apply hoare_record; assumption | exact Hs1]).
    + apply hoare_record; auto.
Qed.

Lemma FlowIntoType_collectErrors_respects (slot : nat) (bound : option type)
    (validation : Validation) (path : IdentifierPath) (input : value) :
  respects R E (FlowIntoType_collectErrors L accepts collectErrors slot bound
              validation path input).
Proof.
  intros s. unfold FlowIntoType_collectErrors.
  eapply hoare_bind; [apply hoare_get_recorded|].
  intros recorded s1 [-> ->].
  assert (Hcall : forall t,
             hoare E s (collectErrors t validation path input)
               (fun _ s' => R s s')).
  { intros t. apply hoare_call; auto. }
  destruct (s !! slot) as [X|] eqn:Hslot.
  - assert (Hrecorded : forall s1 (validation : Validation), R s s1 ->
              hoare E s1
                (fits <- accepts X input ;;
                 if fits then ret (false, validation)
                 else set_recorded slot (union L X (typeOf L input)) ;;;
                      ret (false, validation))
                (fun _ s' => R s s')).
    { intros s1 v Hs1. eapply hoare_bind; [apply hoare_call; eauto|].
      intros [|] s2 Hs2; [exact Hs2 | apply hoare_widen; assumption]. }
    destruct bound as [b|].
    + destruct b; try apply Hcall;
        (eapply hoare_bind; [apply Hcall|];
         intros [[|] v] s1 Hs1; [exact Hs1 | apply Hrecorded; exact Hs1]).
    + apply Hrecorded, R_refl.
  - destruct bound as [b|].
    + destruct b; try apply Hcall;
        (match goal with
         | |- context [if ?c then _ else _] => destruct c
         end; [apply hoare_ret, R_refl|];
         eapply hoare_bind; [apply Hcall|];
         intros [[|] v] s1 Hs1; [exact Hs1 | apply hoare_record; assumption]).
    + apply hoare_record; auto.
Qed.

Lemma FlowIntoType_compareWith_respects (slot : nat) (bound : option type)
    (input : type) :
  (forall slot' bound',
     bound = Some (FlowIntoType slot' bound') ->
     respects R E (compareWith (FlowIntoType slot' bound') input)) ->
  respects R E (FlowIntoType_compareWith L compareWith slot bound input).
Proof.
  clear compareWith_respects.
  intros Hchained s. unfold FlowIntoType_compareWith.
  eapply hoare_bind; [apply hoare_get_recorded|].
  intros recorded s1 [-> ->].
  assert (Hcall : forall slot' bound',
             bound = Some (FlowIntoType slot' bound') ->
             hoare E s (compareWith (FlowIntoType slot' bound') input)
               (fun _ s' => R s s')).
  { intros slot' bound' Hb. apply hoare_call; auto. }
  assert (Hcompare : forall t s1, R s s1 ->
             hoare E s1 (compareTypes L t input) (fun _ s' => R s s')).
  { intros t s1 Hs1. apply hoare_call; [apply (respects_compareTypes HL)|auto]. }
  destruct (s !! slot) as [X|] eqn:Hslot.
  - assert (Hrecorded : forall s1, R s s1 ->
              hoare E s1
                (result <- compareTypes L X input ;;
                 if result =? 0 then ret 0
                 else set_recorded slot (union L X input) ;;; ret 1)
                (fun _ s' => R s s')).
    { intros s1 Hs1. eapply hoare_bind; [apply Hcompare; exact Hs1|].
      intros r s2 Hs2. destruct (r =? 0);
        [exact Hs2 | apply hoare_widen; assumption]. }
    destruct bound as [b|].
    + destruct b; try (apply Hcall; reflexivity);
        (eapply hoare_bind; [apply Hcompare, R_refl|];
         intros r s1 Hs1; destruct (r =? -1);
         [exact Hs1 | apply Hrecorded; exact Hs1]).
    + apply Hrecorded, R_refl.
  - destruct bound as [b|].
    + destruct b; try (apply Hcall; reflexivity);
        (match goal with
         | |- context [if ?c then _ else _] => destruct c
         end; [apply hoare_ret, R_refl|];
         eapply hoare_bind; [apply Hcompare, R_refl|];
         intros r s1 Hs1; destruct (r =? -1);
         [exact Hs1 | apply hoare_record; assumption]).
    + apply hoare_record; auto.
Qed.

Lemma FunctionType_accepts_respects
    (params : list (FunctionTypeParam_ type))
    (returnType : FunctionTypeReturn_ type) (input : value) :
  respects R E (FunctionType_accepts L params returnType input).
Proof.
  unfold FunctionType_accepts.
  destruct (negb (hasFunctionType input)); [apply respects_ret|].
  destruct (TypeSymbol L input) as [[annotation_params annotation_returnType]|].
  - apply respects_bind.
    + apply respects_every. intros i param.
      destruct (nth_error annotation_params i).
      * apply acceptsType_respects.
      * destruct (negb (param_optional param)); [apply respects_ret|].
        apply (respects_acceptsType_undefined HL).
    + intros [|]; simpl; [|apply respects_ret].
      apply respects_bind; [apply acceptsType_respects|].
      intros [|]; apply respects_ret.
  - apply respects_bind.
    + apply respects_each. intros param. apply acceptsType_respects.
    + intros _. apply respects_bind; [apply acceptsType_respects|].
      intros _. apply respects_ret.
Qed.

Lemma FunctionType_expectArgument_respects (this : type)
    (path : IdentifierPath) (param : FunctionTypeParam_ type)
    (validation : Validation) :
  respects R E (FunctionType_expectArgument L toString this path param validation).
Proof.
  unfold FunctionType_expectArgument. apply respects_bind; [auto|].
  intros s. apply respects_ret.
Qed.

Lemma FunctionType_collectErrors_params_respects (this : type)
    (path : IdentifierPath)
    (annotation_params params : list (FunctionTypeParam_ type)) :
  forall i hasErrors validation,
    respects R E (FunctionType_collectErrors_params L toString this path
                annotation_params i params hasErrors validation).
Proof.
  induction params as [|param params' IH]; intros i hasErrors v; simpl.
  - apply respects_ret.
  - apply respects_bind.
    + destruct (nth_error annotation_params i).
      * apply respects_bind; [apply acceptsType_respects|].
        intros [|]; simpl;
          [apply respects_ret | apply FunctionType_expectArgument_respects].
      * destruct (negb (param_optional param));
          [apply FunctionType_expectArgument_respects|].
        apply respects_bind; [apply (respects_acceptsType_undefined HL)|].
        intros [|]; simpl;
          [apply respects_ret | apply FunctionType_expectArgument_respects].
    + intros [hasErrors' v']. apply IH.
Qed.

Lemma FunctionType_collectErrors_respects
    (params : list (FunctionTypeParam_ type))
    (rest : option (FunctionTypeRestParam_ type))
    (returnType : FunctionTypeReturn_ type)
    (validation : Validation) (path : IdentifierPath) (input : value) :
  respects R E (FunctionType_collectErrors L toString params rest returnType
              validation path input).
Proof.
  unfold FunctionType_collectErrors. cbv zeta.
  destruct (negb (hasFunctionType input)); [apply respects_ret|].
  destruct (TypeSymbol L input) as [[annotation_params annotation_returnType]|].
  - apply respects_bind;
      [apply FunctionType_collectErrors_params_respects|].
    intros [hasErrors v]. apply respects_bind; [apply acceptsType_respects|].
    intros [|]; simpl; [apply respects_ret|].
    apply respects_bind; [auto|]. intros s. apply respects_ret.
  - apply respects_bind.
    + apply respects_each. intros param. apply acceptsType_respects.
    + intros _. apply respects_bind; [apply acceptsType_respects|].
      intros _. apply respects_ret.
Qed.

Lemma FunctionType_compareWith_respects
    (params : list (FunctionTypeParam_ type))
    (returnType : FunctionTypeReturn_ type) (input : type) :
  respects R E (FunctionType_compareWith L params returnType input).
Proof.
  unfold FunctionType_compareWith.
  destruct input; try apply respects_ret.
  apply respects_bind; [apply (respects_compareTypes HL)|].
  intros r. destruct (r =? -1); [apply respects_ret|].
  destruct (Nat.ltb _ _); [apply respects_ret|].
  generalize (r =? 1). clear r. revert params0.
  induction params as [|param params' IH]; intros [|inputParam inputParams]
    isGreater; try apply respects_ret.
  simpl. apply respects_bind; [apply (respects_compareTypes HL)|].
  intros r. destruct (r =? -1); [apply respects_ret | apply IH].
Qed.

Lemma FunctionType_acceptsParams_respects
    (params : list (FunctionTypeParam_ type))
    (rest : option (FunctionTypeRestParam_ type)) (args : list value) :
  respects R E (FunctionType_acceptsParams accepts params rest args).
Proof.
  unfold FunctionType_acceptsParams. apply respects_bind.
  - apply respects_every. intros i param.
    destruct (Nat.ltb i (length args)); auto.
  - intros [|]; simpl; [|apply respects_ret].
    destruct rest as [rest|]; [|apply respects_ret].
    destruct (Nat.ltb _ _); [|apply respects_ret].
    apply respects_bind; [apply respects_every; auto|].
    intros [|]; apply respects_ret.
Qed.

Lemma FunctionType_invoke_respects
    (params : list (FunctionTypeParam_ type))
    (rest : option (FunctionTypeRestParam_ type))
    (returnType : FunctionTypeReturn_ type) (args : list type) :
  respects R E (FunctionType_invoke L accepts params rest returnType args).
Proof.
  unfold FunctionType_invoke. apply respects_bind.
  - apply respects_every. intros i param.
    destruct (nth_error args i); [apply acceptsType_respects | auto].
  - intros [|]; simpl; [|apply respects_ret].
    destruct rest as [rest|]; [|apply respects_ret].
    destruct (Nat.ltb _ _); [|apply respects_ret].
    apply respects_bind.
    + apply respects_every. intros i a. apply acceptsType_respects.
    + intros [|]; apply respects_ret.
Qed.

Lemma FunctionType_toString_respects
    (params : list (FunctionTypeParam_ type))
    (rest : option (FunctionTypeRestParam_ type))
    (returnType : FunctionTypeReturn_ type) :
  respects R E (FunctionType_toString toString params rest returnType).
Proof.
  unfold FunctionType_toString.
  apply respects_bind; [apply respects_mapM; auto|]. intros args.
  apply respects_bind.
  - destruct rest as [rest|]; [|apply respects_ret].
    apply respects_bind; [auto|]. intros s. apply respects_ret.
  - intros args'. apply respects_bind; [auto|]. intros s. apply respects_ret.
Qed.

End Bodies.

Theorem toString_respects (fuel : nat) :
  forall this, respects R E (toString L fuel this).
Proof.
  induction fuel as [|fuel IH]; intros this; [apply respects_diverge|].
  destruct this; simpl;
    try apply respects_ret; try apply respects_not_implemented;
    try (destruct (toString_of _) as [method|] eqn:Hmethod;
         [eapply (respects_toString_of HL); eauto
         |apply respects_not_implemented]).
  - apply SymbolLiteralType_toString_respects.
  - apply NullableType_toString_respects, IH.
  - apply (respects_typeParameter_toString HL).
  - apply FunctionType_toString_respects, IH.
Qed.

Theorem accepts_respects (fuel : nat) :
  forall this input, respects R E (accepts L fuel this input).
Proof.
  induction fuel as [|fuel IH]; intros this input; [apply respects_diverge|].
  destruct this; simpl;
    try apply respects_ret; try apply respects_not_implemented;
    try (destruct (accepts_of _) as [method|] eqn:Hmethod;
         [eapply (respects_accepts_of HL); eauto
         |apply respects_not_implemented]).
  - apply ThisType_accepts_respects.
  - apply NullableType_accepts_respects, IH.
  - apply FlowIntoType_accepts_respects, IH.
  - apply FunctionType_accepts_respects.
Qed.

Theorem collectErrors_respects (fuel : nat) :
  forall this validation path input,
    respects R E (collectErrors L fuel this validation path input).
Proof.
  induction fuel as [|fuel IH]; intros this validation path input;
    [apply respects_diverge|].
  destruct this; simpl;
    try apply respects_ret;
    try (destruct (collectErrors_of _) as [method|] eqn:Hmethod;
         [eapply (respects_collectErrors_of HL); eauto
         |apply respects_ret]).
  - apply ThisType_collectErrors_respects.
  - apply SymbolLiteralType_collectErrors_respects.
  - apply NullableType_collectErrors_respects, IH.
  - apply FlowIntoType_collectErrors_respects;
      [apply accepts_respects | apply IH].
  - apply FunctionType_collectErrors_respects, toString_respects.
Qed.

Theorem compareWith_respects (this input : type) :
  respects R E (compareWith L this input).
Proof.
  remember (chain_length this) as n eqn:Hn. revert this Hn.
  induction n as [n IH] using lt_wf_ind. intros this Hn.
  destruct this; simpl;
    try apply respects_ret; try apply respects_not_implemented;
    try (destruct (compareWith_of _) as [method|] eqn:Hmethod;
         [eapply (respects_compareWith_of HL); eauto
         |apply respects_not_implemented]).
  - apply NullableType_compareWith_respects.
  - apply (FlowIntoType_compareWith_respects (compareWith L) slot bound input).
    intros slot' bound' ->.
    apply (IH (chain_length (FlowIntoType slot' bound')));
      [|reflexivity].
    change (n = S (chain_length (FlowIntoType slot' bound'))) in Hn. lia.
  - apply FunctionType_compareWith_respects.
Qed.

End Respect.

(** The library of the examples preserves what the classes preserve. *)

Section SampleRespects.

Variable R : store -> store -> Prop.
Variable E : exn -> Prop.

Hypothesis R_refl : forall s, R s s.
Hypothesis R_trans : forall s1 s2 s3, R s1 s2 -> R s2 s3 -> R s1 s3.
Hypothesis R_record :
  forall s s' slot t, s !! slot = None -> R s s' -> R s (<[slot := t]> s').
Hypothesis R_union :
  forall s s' slot X t,
    s !! slot = Some X -> R s s' -> R s (<[slot := UnionType [X; t]]> s').
Hypothesis E_not_implemented : E (Error "Not implemented.").

Lemma Sample_leaf_respects (this : type)
    (name : string) (ok : value -> bool) (rank : type -> Z) :
  (forall method, accepts_of (Sample.leaf this name ok rank) = Some method ->
     forall dispatch v, respects R E (method dispatch v)) /\
  (forall method,
     collectErrors_of (Sample.leaf this name ok rank) = Some method ->
     forall dispatch validation path v,
       respects R E (method dispatch validation path v)) /\
  (forall method, compareWith_of (Sample.leaf this name ok rank) = Some method ->
     forall input, respects R E (method input)) /\
  (forall method, toString_of (Sample.leaf this name ok rank) = Some method ->
     forall dispatch, respects R E (method dispatch)).
Proof.
  repeat split; intros method Hm; inversion Hm; subst; intros;
    apply respects_ret; assumption.
Qed.

Lemma Sample_library_with_respects (compare : type -> type -> M Z) :
  (forall a b, respects R E (compare a b)) ->
  library_respects (Sample.library_with compare) R E.
Proof.
  intros Hcompare.
  assert (Hret : forall A (a : A), respects R E (ret a))
    by (intros; apply respects_ret; assumption).
  assert (Hbind : forall A B (m : M A) (k : A -> M B),
             respects R E m -> (forall a, respects R E (k a)) ->
             respects R E (bind m k))
    by (intros; apply respects_bind; assumption).
  assert (Hleaf : forall this name,
             let c := Sample.class_of compare (LeafType name) in
             this = LeafType name ->
             (forall method, accepts_of c = Some method ->
                forall dispatch v, respects R E (method dispatch v)) /\
             (forall method, collectErrors_of c = Some method ->
                forall dispatch validation path v,
                  respects R E (method dispatch validation path v)) /\
             (forall method, compareWith_of c = Some method ->
                forall input, respects R E (method input)) /\
             (forall method, toString_of c = Some method ->
                forall dispatch, respects R E (method dispatch))).
  { intros this name c _. subst c. unfold Sample.class_of.
    repeat (match goal with
            | |- context [if ?b then _ else _] => destruct b
            end; [apply Sample_leaf_respects|]).
    repeat split; intros method Hm; simpl in Hm; discriminate Hm. }
  constructor.
  - exact Hcompare.
  - intros t. apply Hret.
  - intros slot bound. apply Hret.
  - intros this method Hm dispatch Hd v.
    destruct this; simpl in Hm; try discriminate Hm;
      try (injection Hm as <-).
    + apply Hret.
    + destruct (_ && _); [apply Hret | apply Hd].
    + apply Hd.
    + apply Hd.
    + induction types as [|t types IH]; [apply Hret|].
      apply Hbind; [apply Hd|]. intros [|]; [apply Hret | exact IH].
    + eapply (proj1 (Hleaf (LeafType name) name eq_refl)). exact Hm.
  - intros this method Hm dispatch Hd validation path v.
    destruct this; simpl in Hm; try discriminate Hm;
      try (injection Hm as <-).
    + apply Hret.
    + destruct (_ && _); [apply Hret | apply Hd].
    + apply Hd.
    + apply Hd.
    + eapply (proj1 (proj2 (Hleaf (LeafType name) name eq_refl))). exact Hm.
  - intros this method Hm input.
    destruct this; simpl in Hm; try discriminate Hm;
      try (injection Hm as <-).
    + apply Hret.
    + destruct input; apply Hcompare.
    + destruct input; try apply Hret; apply Hcompare.
    + destruct input; apply Hcompare.
    + eapply (proj1 (proj2 (proj2 (Hleaf (LeafType name) name eq_refl)))).
      exact Hm.
  - intros this method Hm dispatch Hd.
    destruct this; simpl in Hm; try discriminate Hm;
      try (injection Hm as <-).
    + apply Hret.
    + apply Hbind; [apply Hd | intros; apply Hret].
    + apply Hbind; [apply Hd | intros; apply Hret].
    + apply Hd.
    + eapply (proj2 (proj2 (proj2 (Hleaf (LeafType name) name eq_refl)))).
      exact Hm.
Qed.

Lemma Sample_compareTypes_respects (fuel : nat) :
  forall a b, respects R E (Sample.compareTypes fuel a b).
Proof.
  induction fuel as [|fuel IH]; intros a b; simpl.
  - apply respects_diverge.
  - apply compareWith_respects; auto.
    apply Sample_library_with_respects. exact IH.
Qed.

Lemma Sample_library_respects (fuel : nat) :
  library_respects (Sample.library fuel) R E.
Proof.
  apply Sample_library_with_respects, Sample_compareTypes_respects.
Qed.

End SampleRespects.

(** ** FlowIntoType: widening of the recorded type *)

Lemma widened_trans (L : Library) (X Y Z : type) :
  widened L X Y -> widened L Y Z -> widened L X Z.
Proof.
  intros HXY HYZ. induction HYZ as [|Z' t _ IH]; [exact HXY|].
  apply widened_union. exact IH.
Qed.

Lemma store_widens_refl (L : Library) (s : store) : store_widens L s s.
Proof. intros slot X H. exists X. split; [exact H | constructor]. Qed.

Lemma store_widens_trans (L : Library) (s1 s2 s3 : store) :
  store_widens L s1 s2 -> store_widens L s2 s3 -> store_widens L s1 s3.
Proof.
  intros H12 H23 slot X H.
  destruct (H12 slot X H) as (X' & H' & HX').
  destruct (H23 slot X' H') as (X'' & H'' & HX'').
  exists X''. split; [exact H''|]. eapply widened_trans; eassumption.
Qed.

Lemma store_widens_record (L : Library) (s s' : store) (slot : nat) (t : type) :
  s !! slot = None -> store_widens L s s' ->
  store_widens L s (<[slot := t]> s').
Proof.
  intros Hnone H k X Hk.
  destruct (decide (slot = k)) as [->|Hne]; [congruence|].
  rewrite lookup_insert_ne by exact Hne. apply H. exact Hk.
Qed.

Lemma store_widens_union (L : Library) (s s' : store) (slot : nat)
    (X t : type) :
  s !! slot = Some X -> store_widens L s s' ->
  store_widens L s (<[slot := union L X t]> s').
Proof.
  intros Hsome H k Y Hk.
  destruct (decide (slot = k)) as [->|Hne].
  - rewrite lookup_insert_eq. exists (union L X t). split; [reflexivity|].
    assert (Y = X) by congruence. subst Y.
    apply widened_union. constructor.
  - rewrite lookup_insert_ne by exact Hne. apply H. exact Hk.
Qed.

Lemma FlowIntoType_accepts_recorded (L : Library) (fuel : nat)
    (slot : nat) (bound : option type) (input : value)
    (s s1 s2 : store) (X : type) (fits : bool) :
  s !! slot = Some X ->
  bound_admits L fuel bound input s s1 ->
  accepts L fuel X input s1 = Returns fits s2 ->
  accepts L (S fuel) (FlowIntoType slot bound) input s
  = Returns true
      (if fits then s2 else <[slot := union L X (typeOf L input)]> s2).
Proof.
  intros Hslot Hbound Hfits. simpl. unfold FlowIntoType_accepts.
  unfold bind at 1. unfold get_recorded. rewrite Hslot.
  destruct bound as [b|]; simpl in Hbound.
  - destruct Hbound as [Hb Hacc].
    destruct b; try discriminate Hb;
      (rewrite (bind_Returns _ _ _ _ _ Hacc); cbn [negb];
       rewrite (bind_Returns _ _ _ _ _ Hfits);
       destruct fits; reflexivity).
  - subst s1. rewrite bind_ret_l. cbn [negb].
    rewrite (bind_Returns _ _ _ _ _ Hfits). destruct fits; reflexivity.
Qed.

Lemma FlowIntoType_collectErrors_recorded (L : Library) (fuel : nat)
    (slot : nat) (bound : option type)
    (validation validation1 : Validation) (path : IdentifierPath)
    (input : value) (s s1 s2 : store) (X : type) (fits : bool) :
  s !! slot = Some X ->
  bound_passes L fuel bound validation path input s validation1 s1 ->
  accepts L fuel X input s1 = Returns fits s2 ->
  collectErrors L (S fuel) (FlowIntoType slot bound) validation path input s
  = Returns (false, validation1)
      (if fits then s2 else <[slot := union L X (typeOf L input)]> s2).
Proof.
  intros Hslot Hbound Hfits. simpl. unfold FlowIntoType_collectErrors.
  unfold bind at 1. unfold get_recorded. rewrite Hslot.
  destruct bound as [b|]; simpl in Hbound.
  - destruct Hbound as [Hb Hacc].
    destruct b; try discriminate Hb;
      (rewrite (bind_Returns _ _ _ _ _ Hacc); cbn iota;
       rewrite (bind_Returns _ _ _ _ _ Hfits);
       destruct fits; reflexivity).
  - destruct Hbound as [-> ->]. rewrite bind_ret_l. cbn iota.
    rewrite (bind_Returns _ _ _ _ _ Hfits). destruct fits; reflexivity.
Qed.

Lemma FlowIntoType_accepts_bound_rejects (L : Library) (fuel : nat)
    (slot : nat) (b : type) (input : value) (s s1 : store) (X : type) :
  s !! slot = Some X ->
  is_FlowIntoType b = false ->
  accepts L fuel b input s = Returns false s1 ->
  accepts L (S fuel) (FlowIntoType slot (Some b)) input s = Returns false s1.
Proof.
  intros Hslot Hb Hacc. simpl. unfold FlowIntoType_accepts.
  unfold bind at 1. unfold get_recorded. rewrite Hslot.
  destruct b; try discriminate Hb;
    (rewrite (bind_Returns _ _ _ _ _ Hacc); reflexivity).
Qed.

Lemma widening_preserved (L : Library) :
  library_respects L (store_widens L) (fun _ => True) ->
  (forall fuel this input s r s',
     accepts L fuel this input s = Returns r s' -> store_widens L s s') /\
  (forall fuel this validation path input s r s',
     collectErrors L fuel this validation path input s = Returns r s' ->
     store_widens L s s').
Proof.
  intros HL. split.
  - intros fuel this input s r s' H.
    assert (Hr : respects (store_widens L) (fun _ => True)
                   (accepts L fuel this input)).
    { apply (accepts_respects L (store_widens L) (fun _ => True)
               (store_widens_refl L) (store_widens_trans L)
               (store_widens_record L) (store_widens_union L) I I HL). }
    specialize (Hr s). unfold hoare in Hr. rewrite H in Hr. exact Hr.
  - intros fuel this validation path input s r s' H.
    assert (Hr : respects (store_widens L) (fun _ => True)
                   (collectErrors L fuel this validation path input)).
    { apply (collectErrors_respects L (store_widens L) (fun _ => True)
               (store_widens_refl L) (store_widens_trans L)
               (store_widens_record L) (store_widens_union L) I I I HL). }
    specialize (Hr s). unfold hoare in Hr. rewrite H in Hr. exact Hr.
Qed.

(** C4, as the code has it.  Take a type parameter that has recorded a
    type [X] and is not chained to another [FlowIntoType].  A value that
    its bound (if it has one) accepts and that [X] does not accept sets
    [recorded] to exactly [union(X, typeOf(value))] and the check succeeds,
    in [accepts] and in [collectErrors]; a value that the bound rejects
    fails the check and leaves [recorded] to the calls it made; a slot
    that is chained to another [FlowIntoType] hands the value over.  Once a type
    is recorded, every value that the bound admits passes, whether the
    recorded type fits it or not, so a value that was accepted before is
    accepted again.  A call of [accepts] or [collectErrors] on any node only
    widens the recorded types: each is afterwards the former one or a union
    built on it.  ("A value of type Y, Y not a subtype of X" is a value that
    [X.accepts] rejects: the code tests the value, not its type.) *)
Theorem FlowIntoType_recorded_only_widens
    (L : Library) (fuel : nat) (slot : nat) (bound : option type) :
  (forall input s s1 s2 X,
     s !! slot = Some X ->
     bound_admits L fuel bound input s s1 ->
     accepts L fuel X input s1 = Returns false s2 ->
     accepts L (S fuel) (FlowIntoType slot bound) input s
     = Returns true (<[slot := union L X (typeOf L input)]> s2)) /\
  (forall validation validation1 path input s s1 s2 X,
     s !! slot = Some X ->
     bound_passes L fuel bound validation path input s validation1 s1 ->
     accepts L fuel X input s1 = Returns false s2 ->
     collectErrors L (S fuel) (FlowIntoType slot bound) validation path input s
     = Returns (false, validation1)
         (<[slot := union L X (typeOf L input)]> s2)) /\
  (forall b input s s1 X,
     bound = Some b ->
     s !! slot = Some X ->
     is_FlowIntoType b = false ->
     accepts L fuel b input s = Returns false s1 ->
     accepts L (S fuel) (FlowIntoType slot bound) input s = Returns false s1) /\
  (forall b input s,
     bound = Some b ->
     is_FlowIntoType b = true ->
     accepts L (S fuel) (FlowIntoType slot bound) input s
     = accepts L fuel b input s) /\
  (forall input s s1 s2 X fits,
     s !! slot = Some X ->
     bound_admits L fuel bound input s s1 ->
     accepts L fuel X input s1 = Returns fits s2 ->
     exists s3,
       accepts L (S fuel) (FlowIntoType slot bound) input s = Returns true s3 /\
       (fits = true -> s3 = s2)) /\
  (library_respects L (store_widens L) (fun _ => True) ->
   (forall this input s r s',
      accepts L fuel this input s = Returns r s' -> store_widens L s s') /\
   (forall this validation path input s r s',
      collectErrors L fuel this validation path input s = Returns r s' ->
      store_widens L s s')).
Proof.
  split; [|split; [|split; [|split; [|split]]]].
  - intros input s s1 s2 X Hslot Hbound Hfits.
    apply (FlowIntoType_accepts_recorded L fuel slot bound input s s1 s2 X
             false Hslot Hbound Hfits).
  - intros validation validation1 path input s s1 s2 X Hslot Hbound Hfits.
    apply (FlowIntoType_collectErrors_recorded L fuel slot bound validation
             validation1 path input s s1 s2 X false Hslot Hbound Hfits).
  - intros b input s s1 X -> Hslot Hb Hacc.
    eapply FlowIntoType_accepts_bound_rejects; eassumption.
  - intros b input s -> Hb. simpl. unfold FlowIntoType_accepts.
    destruct b; try discriminate Hb. reflexivity.
  - intros input s s1 s2 X fits Hslot Hbound Hfits.
    eexists. split.
    + apply (FlowIntoType_accepts_recorded L fuel slot bound input s s1 s2 X
               fits Hslot Hbound Hfits).
    + intros ->. reflexivity.
  - intros HL. destruct (widening_preserved L HL) as [Ha Hc].
    split; [apply Ha | apply Hc].
Qed.

Lemma FlowIntoType_recorded_only_widens_witness :
  recorded_string !! 0%nat = Some Sample.string_ /\
  bound_admits (Sample.library 1) 2 None (number 1)
    recorded_string recorded_string /\
  accepts (Sample.library 1) 2 Sample.string_ (number 1) recorded_string
  = Returns false recorded_string /\
  accepts (Sample.library 1) 3 (FlowIntoType 0 None) (number 1) recorded_string
  = Returns true
      (<[0%nat := UnionType [Sample.string_; Sample.number_]]> recorded_string) /\
  library_respects (Sample.library 1) (store_widens (Sample.library 1))
    (fun _ => True) /\
  store_widens (Sample.library 1) recorded_string
    (<[0%nat := UnionType [Sample.string_; Sample.number_]]> recorded_string).
Proof.
  assert (Hslot : recorded_string !! 0%nat = Some Sample.string_)
    by reflexivity.
  assert (Hbound : bound_admits (Sample.library 1) 2 None (number 1)
                     recorded_string recorded_string) by reflexivity.
  assert (Hfits : accepts (Sample.library 1) 2 Sample.string_ (number 1)
                    recorded_string = Returns false recorded_string)
    by reflexivity.
  assert (HL : library_respects (Sample.library 1)
                 (store_widens (Sample.library 1)) (fun _ => True)).
  { apply Sample_library_respects.
    - apply store_widens_refl.
    - apply store_widens_trans.
    - apply store_widens_record.
    - apply (store_widens_union (Sample.library 1)).
    - exact I. }
  pose proof (FlowIntoType_recorded_only_widens (Sample.library 1) 2 0 None)
    as (Hstep & _ & _ & _ & _ & Hwiden).
  pose proof (Hstep (number 1) recorded_string recorded_string
                recorded_string Sample.string_ Hslot Hbound Hfits) as Hrun.
  split; [exact Hslot|]. split; [exact Hbound|]. split; [exact Hfits|].
  split; [exact Hrun|]. split; [exact HL|].
  pose proof (FlowIntoType_recorded_only_widens (Sample.library 1) 3 0 None)
    as (_ & _ & _ & _ & _ & Hwiden3).
  exact (proj1 (Hwiden3 HL) (FlowIntoType 0 None) (number 1)
           recorded_string true _ Hrun).
Defined.

(** A type parameter bounded by [string] that has recorded [string] rejects
    a number, which [string] does not accept either, and keeps its recorded
    type. *)
Lemma FlowIntoType_bound_prevents_widening :
  recorded_string !! 0%nat = Some Sample.string_ /\
  accepts (Sample.library 1) 2 Sample.string_ (number 1) recorded_string
  = Returns false recorded_string /\
  accepts (Sample.library 1) 3 (FlowIntoType 0 (Some Sample.string_))
    (number 1) recorded_string
  = Returns false recorded_string /\
  collectErrors (Sample.library 1) 3 (FlowIntoType 0 (Some Sample.string_))
    [] [] (number 1) recorded_string
  = Returns (true, [([], Sample.string_, "ERR_EXPECT_StringType")])
      recorded_string.
Proof. repeat split. Qed.

(** ** assert *)









(** ** The comparator and the values that separate two nodes *)


























(** C2, as the code has it: the dispatcher tests the candidates in the
    order of their declaration and returns at the first test that passes.
    The test of [(string) -> string] looks at the first argument only, so a
    call whose first argument is a string, and a call with four strings in
    particular, selects this candidate; the candidate with four parameters
    is never selected.  For [FunctionType.compareWith] the two signatures
    are tied one way (0 when the return types and the first parameters
    compare as 0) and incompatible the other way (-1, for want of
    parameters). *)
Theorem pattern_selects_first_declared_match
    (L : Library) (input foo bar baz qux : FunctionTypeParam_ type)
    (returnType1 returnType4 : FunctionTypeReturn_ type) (s : store) :
  (forall a b c d,
     pattern (str a) [str b; str c; str d] = (1%nat, Value (str a))) /\
  (forall text _arg1, pattern (str text) _arg1 = (1%nat, Value (str text))) /\
  (forall _arg0 _arg1, fst (pattern _arg0 _arg1) <> 4%nat) /\
  (compareTypes L (FunctionTypeReturn returnType1)
                  (FunctionTypeReturn returnType4) s = Returns 0 s ->
   compareTypes L (FunctionTypeParam input) (FunctionTypeParam foo) s
   = Returns 0 s ->
   compareWith L (FunctionType [input] None returnType1)
                 (FunctionType [foo; bar; baz; qux] None returnType4) s
   = Returns 0 s) /\
  (forall r s',
     compareTypes L (FunctionTypeReturn returnType4)
                    (FunctionTypeReturn returnType1) s = Returns r s' ->
     compareWith L (FunctionType [foo; bar; baz; qux] None returnType4)
                   (FunctionType [input] None returnType1) s
     = Returns (-1) s').
Proof.
  split; [reflexivity|]. split; [reflexivity|]. split; [|split].
  - intros _arg0 _arg1. unfold pattern.
    destruct (String.eqb (typeof _arg0) "string"); simpl; [discriminate|].
    discriminate.
  - intros Hret Hparam. simpl. unfold FunctionType_compareWith.
    rewrite (bind_Returns _ _ _ _ _ Hret). simpl.
    rewrite (bind_Returns _ _ _ _ _ Hparam). reflexivity.
  - intros r s' Hret. simpl. unfold FunctionType_compareWith.
    rewrite (bind_Returns _ _ _ _ _ Hret).
    destruct (r =? -1); reflexivity.
Qed.

Lemma pattern_selects_first_declared_match_witness :
  compareTypes (Sample.library 3)
    (FunctionTypeReturn (mkReturn Sample.string_))
    (FunctionTypeReturn (mkReturn Sample.string_)) ∅ = Returns 0 ∅ /\
  compareTypes (Sample.library 3)
    (FunctionTypeParam (Sample.param "input" Sample.string_))
    (FunctionTypeParam (Sample.param "foo" Sample.string_)) ∅ = Returns 0 ∅ /\
  compareWith (Sample.library 3)
    (FunctionType [Sample.param "input" Sample.string_] None
       (mkReturn Sample.string_))
    (FunctionType [Sample.param "foo" Sample.string_;
                   Sample.param "bar" Sample.string_;
                   Sample.param "baz" Sample.string_;
                   Sample.param "qux" Sample.string_] None
       (mkReturn Sample.string_)) ∅ = Returns 0 ∅.
Proof.
  assert (Hret : compareTypes (Sample.library 3)
                   (FunctionTypeReturn (mkReturn Sample.string_))
                   (FunctionTypeReturn (mkReturn Sample.string_)) ∅
                 = Returns 0 ∅) by reflexivity.
  assert (Hparam : compareTypes (Sample.library 3)
                     (FunctionTypeParam (Sample.param "input" Sample.string_))
                     (FunctionTypeParam (Sample.param "foo" Sample.string_)) ∅
                   = Returns 0 ∅) by reflexivity.
  split; [exact Hret|]. split; [exact Hparam|].
  exact (proj1 (proj2 (proj2 (proj2
           (pattern_selects_first_declared_match (Sample.library 3)
              (Sample.param "input" Sample.string_)
              (Sample.param "foo" Sample.string_)
              (Sample.param "bar" Sample.string_)
              (Sample.param "baz" Sample.string_)
              (Sample.param "qux" Sample.string_)
              (mkReturn Sample.string_) (mkReturn Sample.string_) ∅))))
           Hret Hparam).
Defined.

(** A call with four strings returns at the first [return] statement, the
    one of [(input: string) => input]. *)
Lemma pattern_four_strings_selects_one_parameter_candidate :
  pattern (str "a") [str "b"; str "c"; str "d"] = (1%nat, Value (str "a")) /\
  fst (pattern (str "a") [str "b"; str "c"; str "d"]) <> 4%nat.
Proof. split; [reflexivity | discriminate]. Qed.

(** * Further properties *)

(** ** The stateless classes *)




(** ** accepts and collectErrors *)

Lemma outcomes_agree_accepted (validation : Validation)
    (path : IdentifierPath) (s : store) :
  outcomes_agree validation path (Returns true s)
    (Returns (false, validation) s).
Proof. exists []. rewrite app_nil_r. split; reflexivity. Qed.

Lemma outcomes_agree_rejected (validation : Validation)
    (path : IdentifierPath) (expected : type) (message : string) (s : store) :
  outcomes_agree validation path (Returns false s)
    (Returns (true, addError validation path expected message) s).
Proof.
  exists [(path, expected, message)]. split; [reflexivity|].
  exists expected, message. reflexivity.
Qed.

(** A check that passes lets the rest of the method decide; a check that
    fails ends both methods. *)
Lemma outcomes_agree_bind (validation : Validation) (path : IdentifierPath)
    (a : M bool) (c : M (bool * Validation))
    (ka : M bool) (kc : Validation -> M (bool * Validation)) (s : store) :
  outcomes_agree validation path (a s) (c s) ->
  (forall s1, outcomes_agree validation path (ka s1) (kc validation s1)) ->
  outcomes_agree validation path
    ((ok <- a ;; if negb ok then ret false else ka) s)
    ((r <- c ;;
      let '(failed, validation1) := r in
      if failed then ret (true, validation1) else kc validation1) s).
Proof.
  intros Hac Hk. unfold bind.
  destruct (a s) as [[|] s1| |]; simpl in Hac.
  - destruct Hac as (errors & -> & ->). rewrite app_nil_r. apply Hk.
  - destruct Hac as (errors & -> & Herrors).
    exists errors. split; [reflexivity | exact Herrors].
  - rewrite Hac. reflexivity.
  - rewrite Hac. reflexivity.
Qed.

Lemma FlowIntoType_accepts_unchained (L : Library)
    (accepts : type -> value -> M bool) (slot : nat) (b : type)
    (input : value) (s : store) :
  is_FlowIntoType b = false ->
  FlowIntoType_accepts L accepts slot (Some b) input s
  = match s !! slot with
    | Some X =>
        (ok <- accepts b input ;;
         if negb ok then ret false
         else (fits <- accepts X input ;;
               if fits then ret true
               else set_recorded slot (union L X (typeOf L input)) ;;;
                    ret true)) s
    | None =>
        if String.eqb (typeName L b) "AnyType"
           || String.eqb (typeName L b) "ExistentialType"
        then Returns true s
        else (ok <- accepts b input ;;
              if negb ok then ret false
              else (set_recorded slot (typeOf L input) ;;; ret true)) s
    end.
Proof.
  intros Hb. unfold FlowIntoType_accepts. unfold bind at 1, get_recorded.
  destruct b; try discriminate Hb;
    (destruct (s !! slot); [reflexivity|];
     destruct (_ || _); reflexivity).
Qed.

Lemma FlowIntoType_collectErrors_unchained (L : Library)
    (accepts : type -> value -> M bool)
    (collectErrors :
       type -> Validation -> IdentifierPath -> value -> M (bool * Validation))
    (slot : nat) (b : type) (validation : Validation)
    (path : IdentifierPath) (input : value) (s : store) :
  is_FlowIntoType b = false ->
  FlowIntoType_collectErrors L accepts collectErrors slot (Some b)
    validation path input s
  = match s !! slot with
    | Some X =>
        (r <- collectErrors b validation path input ;;
         let '(failed, validation1) := r in
         if failed then ret (true, validation1)
         else (fun validation1 =>
                 fits <- accepts X input ;;
                 if fits then ret (false, validation1)
                 else set_recorded slot (union L X (typeOf L input)) ;;;
                      ret (false, validation1)) validation1) s
    | None =>
        if String.eqb (typeName L b) "AnyType"
           || String.eqb (typeName L b) "ExistentialType"
        then Returns (false, validation) s
        else (r <- collectErrors b validation path input ;;
              let '(failed, validation1) := r in
              if failed then ret (true, validation1)
              else (fun validation1 =>
                      set_recorded slot (typeOf L input) ;;;
                      ret (false, validation1)) validation1) s
    end.
Proof.
  intros Hb. unfold FlowIntoType_collectErrors.
  unfold bind at 1, get_recorded.
  destruct b; try discriminate Hb;
    (destruct (s !! slot); [reflexivity|];
     destruct (_ || _); reflexivity).
Qed.

Lemma FlowIntoType_accepts_unbound (L : Library)
    (accepts : type -> value -> M bool) (slot : nat)
    (input : value) (s : store) :
  FlowIntoType_accepts L accepts slot None input s
  = match s !! slot with
    | Some X =>
        (fits <- accepts X input ;;
         if fits then ret true
         else set_recorded slot (union L X (typeOf L input)) ;;; ret true) s
    | None => Returns true (<[slot := typeOf L input]> s)
    end.
Proof.
  unfold FlowIntoType_accepts. unfold bind at 1, get_recorded.
  destruct (s !! slot); reflexivity.
Qed.

Lemma FlowIntoType_collectErrors_unbound (L : Library)
    (accepts : type -> value -> M bool)
    (collectErrors :
       type -> Validation -> IdentifierPath -> value -> M (bool * Validation))
    (slot : nat) (validation : Validation)
    (path : IdentifierPath) (input : value) (s : store) :
  FlowIntoType_collectErrors L accepts collectErrors slot None
    validation path input s
  = match s !! slot with
    | Some X =>
        (fits <- accepts X input ;;
         if fits then ret (false, validation)
         else set_recorded slot (union L X (typeOf L input)) ;;;
              ret (false, validation)) s
    | None => Returns (false, validation) (<[slot := typeOf L input]> s)
    end.
Proof.
  unfold FlowIntoType_collectErrors. unfold bind at 1, get_recorded.
  destruct (s !! slot); reflexivity.
Qed.

(** What follows the check of the bound when a type is recorded. *)
Lemma outcomes_agree_recorded (L : Library)
    (accepts : type -> value -> M bool) (slot : nat) (X : type)
    (validation : Validation) (path : IdentifierPath) (input : value)
    (s1 : store) :
  outcomes_agree validation path
    ((fits <- accepts X input ;;
      if fits then ret true
      else set_recorded slot (union L X (typeOf L input)) ;;; ret true) s1)
    ((fits <- accepts X input ;;
      if fits then ret (false, validation)
      else set_recorded slot (union L X (typeOf L input)) ;;;
           ret (false, validation)) s1).
Proof.
  unfold bind. destruct (accepts X input s1) as [[|] s2| |];
    try reflexivity; apply (outcomes_agree_accepted validation path).
Qed.

Lemma ThisType_channels_agree (L : Library) (recorded input : value)
    (validation : Validation) (path : IdentifierPath) (s : store) :
  outcomes_agree validation path
    (ThisType_accepts recorded input s)
    (ThisType_collectErrors L recorded validation path input s).
Proof.
  unfold ThisType_accepts, ThisType_collectErrors.
  destruct (strict_equal input recorded);
    [apply (outcomes_agree_accepted validation path)|].
  unfold bind.
  destruct (ThisType_isInstance recorded input s) as [[|] s1| |];
    try reflexivity;
    [apply (outcomes_agree_accepted validation path)|].
  destruct (negb (loose_equal_null recorded));
    [apply (outcomes_agree_rejected validation path)
    |apply (outcomes_agree_accepted validation path)].
Qed.

Lemma SymbolLiteralType_channels_agree (L : Library) (val input : value)
    (validation : Validation) (path : IdentifierPath) (s : store) :
  String.eqb (typeof val) "symbol" = true ->
  outcomes_agree validation path
    (Returns (SymbolLiteralType_accepts val input) s)
    (SymbolLiteralType_collectErrors L val validation path input s).
Proof.
  intros Hval.
  unfold SymbolLiteralType_collectErrors, SymbolLiteralType_accepts,
    SymbolLiteralType_toString.
  destruct (strict_equal input val);
    [apply (outcomes_agree_accepted validation path)|].
  destruct val; try discriminate Hval.
  apply (outcomes_agree_rejected validation path).
Qed.

(** On the nodes of [VoidType], [ThisType], [SymbolLiteralType] (of a
    symbol, as the class declares), [NullableType] and [FlowIntoType], the
    silent and the diagnostic channel agree: [collectErrors] returns true
    exactly when [accepts] returns false, records one error at the given
    path in that case and nothing otherwise, and leaves the same store,
    [recorded] included; it throws exactly when [accepts] throws, and the
    same exception. *)
Theorem accepts_and_collectErrors_agree (L : Library) (fuel : nat) :
  forall this input s,
    diagnosable this = true ->
    symbolic this = true ->
    channels_agree L fuel this input s.
Proof.
  induction fuel as [|fuel IH]; intros this input s Hd Hs validation path;
    [reflexivity|].
  destruct this; try discriminate Hd; cbn [accepts collectErrors].
  - (* VoidType *)
    unfold ret, VoidType_collectErrors, VoidType_accepts.
    destruct (strict_equal input undefined);
      [apply (outcomes_agree_accepted validation path)
      |apply (outcomes_agree_rejected validation path)].
  - (* ThisType *)
    apply ThisType_channels_agree.
  - (* SymbolLiteralType *)
    apply SymbolLiteralType_channels_agree. exact Hs.
  - (* NullableType *)
    unfold NullableType_accepts, NullableType_collectErrors.
    destruct (loose_equal_null input);
      [apply (outcomes_agree_accepted validation path)
      |apply (IH this input s Hd Hs)].
  - (* FlowIntoType *)
    destruct bound as [b|].
    + simpl in Hd, Hs. destruct (is_FlowIntoType b) eqn:Hb.
      * destruct b; try discriminate Hb.
        unfold FlowIntoType_accepts, FlowIntoType_collectErrors.
        apply (IH _ input s Hd Hs).
      * rewrite FlowIntoType_accepts_unchained,
          FlowIntoType_collectErrors_unchained by exact Hb.
        destruct (s !! slot) as [X|].
        -- apply (outcomes_agree_bind validation path
                    (accepts L fuel b input)
                    (collectErrors L fuel b validation path input)).
           ++ apply (IH b input s Hd Hs).
           ++ intros s1. apply outcomes_agree_recorded.
        -- destruct (_ || _);
             [apply (outcomes_agree_accepted validation path)|].
           apply (outcomes_agree_bind validation path
                    (accepts L fuel b input)
                    (collectErrors L fuel b validation path input)).
           ++ apply (IH b input s Hd Hs).
           ++ intros s1. apply (outcomes_agree_accepted validation path).
    + rewrite FlowIntoType_accepts_unbound,
        FlowIntoType_collectErrors_unbound.
      destruct (s !! slot) as [X|].
      * apply outcomes_agree_recorded.
      * apply (outcomes_agree_accepted validation path).
Qed.

Lemma accepts_and_collectErrors_agree_witness :
  diagnosable (FlowIntoType 0 (Some (NullableType (SymbolLiteralType
                                                     (symbol 1))))) = true /\
  symbolic (FlowIntoType 0 (Some (NullableType (SymbolLiteralType
                                                  (symbol 1))))) = true /\
  outcomes_agree [] ["x"]
    (accepts (Sample.library 0) 4
       (FlowIntoType 0 (Some (NullableType (SymbolLiteralType (symbol 1)))))
       (number 1) recorded_string)
    (collectErrors (Sample.library 0) 4
       (FlowIntoType 0 (Some (NullableType (SymbolLiteralType (symbol 1)))))
       [] ["x"] (number 1) recorded_string) /\
  collectErrors (Sample.library 0) 4
    (FlowIntoType 0 (Some (NullableType (SymbolLiteralType (symbol 1)))))
    [] ["x"] (number 1) recorded_string
  = Returns (true, [(["x"], SymbolLiteralType (symbol 1),
                     "ERR_EXPECT_EXACT_VALUE typeof symbol")])
      recorded_string.
Proof.
  split; [reflexivity|]. split; [reflexivity|]. split; [|reflexivity].
  apply (accepts_and_collectErrors_agree (Sample.library 0) 4
           (FlowIntoType 0 (Some (NullableType (SymbolLiteralType
                                                  (symbol 1)))))
           (number 1) recorded_string eq_refl eq_refl [] ["x"]).
Defined.

(** ** The range of the comparator *)

Lemma returns_only_ret {A} (Q : A -> Prop) (a : A) :
  Q a -> returns_only Q (ret a).
Proof. intros H s a' s' Hr. inversion Hr. subst. exact H. Qed.

Lemma returns_only_throw {A} (Q : A -> Prop) (e : exn) :
  returns_only Q (@throw A e).
Proof. intros s a s' Hr. discriminate Hr. Qed.

Lemma returns_only_diverge {A} (Q : A -> Prop) :
  returns_only Q (@diverge A).
Proof. intros s a s' Hr. discriminate Hr. Qed.

Lemma returns_only_bind {A B} (Q : B -> Prop) (m : M A) (k : A -> M B) :
  (forall a, returns_only Q (k a)) -> returns_only Q (bind m k).
Proof.
  intros Hk s b s' Hr. apply bind_inv_Returns in Hr.
  destruct Hr as (a & s1 & _ & Hr). exact (Hk a s1 b s' Hr).
Qed.

(** A [bind] whose continuation may use what the first part returned. *)
Lemma returns_only_bind_with {A B} (P : A -> Prop) (Q : B -> Prop)
    (m : M A) (k : A -> M B) :
  returns_only P m ->
  (forall a, P a -> returns_only Q (k a)) ->
  returns_only Q (bind m k).
Proof.
  intros Hm Hk s b s' Hr. apply bind_inv_Returns in Hr.
  destruct Hr as (a & s1 & Ha & Hr).
  exact (Hk a (Hm s a s1 Ha) s1 b s' Hr).
Qed.

Lemma ternary_values : ternary (-1) /\ ternary 0 /\ ternary 1.
Proof. unfold ternary. lia. Qed.

Lemma FunctionType_compareWith_ternary (L : Library)
    (params : list (FunctionTypeParam_ type))
    (returnType : FunctionTypeReturn_ type) (input : type) :
  returns_only ternary (FunctionType_compareWith L params returnType input).
Proof.
  destruct ternary_values as (Hm & H0 & H1).
  unfold FunctionType_compareWith.
  destruct input; try (apply returns_only_ret; exact Hm).
  apply returns_only_bind. intros r.
  destruct (r =? -1); [apply returns_only_ret; exact Hm|].
  destruct (Nat.ltb _ _); [apply returns_only_ret; exact Hm|].
  generalize (r =? 1). clear r. revert params0.
  induction params as [|param params' IH]; intros [|inputParam inputParams]
    isGreater; simpl;
    try (apply returns_only_ret; destruct isGreater; assumption).
  apply returns_only_bind. intros r.
  destruct (r =? -1); [apply returns_only_ret; exact Hm | apply IH].
Qed.

Lemma FlowIntoType_compareWith_ternary (L : Library)
    (compareWith : type -> type -> M Z) (slot : nat) (bound : option type)
    (input : type) :
  (forall slot' bound',
     bound = Some (FlowIntoType slot' bound') ->
     returns_only ternary (compareWith (FlowIntoType slot' bound') input)) ->
  returns_only ternary
    (FlowIntoType_compareWith L compareWith slot bound input).
Proof.
  destruct ternary_values as (Hm & H0 & H1).
  intros Hchained. unfold FlowIntoType_compareWith.
  apply returns_only_bind. intros recorded.
  assert (Hrecorded : forall X,
             returns_only ternary
               (result <- compareTypes L X input ;;
                if result =? 0 then ret 0
                else set_recorded slot (union L X input) ;;; ret 1)).
  { intros X. apply returns_only_bind. intros r.
    destruct (r =? 0); [apply returns_only_ret; exact H0|].
    apply returns_only_bind. intros _. apply returns_only_ret. exact H1. }
  assert (Hrecord : returns_only ternary (set_recorded slot input ;;; ret 0)).
  { apply returns_only_bind. intros _. apply returns_only_ret. exact H0. }
  destruct bound as [b|].
  - destruct b; try (apply Hchained; reflexivity);
      (destruct recorded as [X|];
       [ apply returns_only_bind; intros r;
         destruct (r =? -1); [apply returns_only_ret; exact Hm | apply Hrecorded]
       | match goal with
         | |- context [if ?c then _ else _] => destruct c
         end; [apply returns_only_ret; exact H1|];
         apply returns_only_bind; intros r;
         destruct (r =? -1); [apply returns_only_ret; exact Hm | exact Hrecord] ]).
  - destruct recorded as [X|]; [|exact Hrecord].
    apply returns_only_bind. intros r.
    destruct (r =? -1); [apply returns_only_ret; exact Hm | apply Hrecorded].
Qed.

Lemma compareWith_returns_ternary (L : Library) :
  (forall a b, returns_only ternary (compareTypes L a b)) ->
  (forall this method,
     compareWith_of (class_of L this) = Some method ->
     forall input, returns_only ternary (method input)) ->
  forall this input, returns_only ternary (compareWith L this input).
Proof.
  destruct ternary_values as (Hm & H0 & H1).
  intros Hcompare Hlibrary this input.
  remember (chain_length this) as n eqn:Hn. revert this Hn.
  induction n as [n IH] using lt_wf_ind. intros this Hn.
  destruct this; simpl;
    try apply returns_only_throw;
    try (destruct (compareWith_of _) as [method|] eqn:Hmethod;
         [eapply Hlibrary; eauto | apply returns_only_throw]).
  - apply returns_only_ret. unfold VoidType_compareWith.
    destruct input; assumption.
  - apply returns_only_ret. unfold ThisType_compareWith.
    destruct input; try assumption.
    destruct (_ && _); [destruct (strict_equal _ _); assumption|].
    destruct (truthy recorded); assumption.
  - apply returns_only_ret. unfold SymbolLiteralType_compareWith.
    destruct input; try assumption.
    destruct (strict_equal _ _); assumption.
  - unfold NullableType_compareWith.
    destruct input; try (apply returns_only_ret; exact H1);
      try apply Hcompare;
      (apply returns_only_bind; intros r;
       destruct (r =? -1); apply returns_only_ret; assumption).
  - apply FlowIntoType_compareWith_ternary. intros slot' bound' ->.
    apply (IH (chain_length (FlowIntoType slot' bound'))); [|reflexivity].
    change (n = S (chain_length (FlowIntoType slot' bound'))) in Hn. lia.
  - apply FunctionType_compareWith_ternary.
Qed.

Lemma Sample_compareWith_of_ternary (compare : type -> type -> M Z) :
  (forall a b, returns_only ternary (compare a b)) ->
  forall this method,
    compareWith_of (class_of (Sample.library_with compare) this) = Some method ->
    forall input, returns_only ternary (method input).
Proof.
  destruct ternary_values as (Hm & H0 & H1).
  intros Hcompare this method Hmethod input.
  assert (Hsame : forall name other, ternary (Sample.same_leaf name other)).
  { intros name other. unfold Sample.same_leaf.
    destruct other; try assumption. destruct (String.eqb _ _); assumption. }
  destruct this; simpl in Hmethod; try discriminate Hmethod.
  - injection Hmethod as <-. apply returns_only_ret.
    destruct input; assumption.
  - injection Hmethod as <-. destruct input; apply Hcompare.
  - injection Hmethod as <-.
    destruct input; try (apply returns_only_ret; exact Hm). apply Hcompare.
  - injection Hmethod as <-. destruct input; apply Hcompare.
  - repeat (match type of Hmethod with
            | context [if ?b then _ else _] => destruct b
            end;
            [injection Hmethod as <-; apply returns_only_ret;
             first [exact H1 | apply Hsame]|]).
    discriminate Hmethod.
Qed.

Lemma Sample_compareTypes_ternary (fuel : nat) :
  forall a b, returns_only ternary (Sample.compareTypes fuel a b).
Proof.
  induction fuel as [|fuel IH]; intros a b; simpl.
  - apply returns_only_diverge.
  - apply compareWith_returns_ternary.
    + exact IH.
    + apply Sample_compareWith_of_ternary. exact IH.
Qed.

(** [compareWith] returns -1, 0 or 1 and nothing else: on a [FunctionType]
    whatever [compareTypes] returns for the parts of the signatures, and on
    every node as soon as [compareTypes] and the comparators of the library
    keep to these three values. *)
Theorem compareWith_returns_a_ranking (L : Library) :
  (forall params rest returnType input s r s',
     compareWith L (FunctionType params rest returnType) input s
     = Returns r s' ->
     r = -1 \/ r = 0 \/ r = 1) /\
  ((forall a b, returns_only ternary (compareTypes L a b)) ->
   (forall this method,
      compareWith_of (class_of L this) = Some method ->
      forall input, returns_only ternary (method input)) ->
   forall this input s r s',
     compareWith L this input s = Returns r s' ->
     r = -1 \/ r = 0 \/ r = 1).
Proof.
  split.
  - intros params rest returnType input s r s' H.
    exact (FunctionType_compareWith_ternary L params returnType input s r s' H).
  - intros Hcompare Hlibrary this input s r s' H.
    exact (compareWith_returns_ternary L Hcompare Hlibrary this input s r s' H).
Qed.

Lemma compareWith_returns_a_ranking_witness :
  (forall a b, returns_only ternary (compareTypes (Sample.library 3) a b)) /\
  (forall this method,
     compareWith_of (class_of (Sample.library 3) this) = Some method ->
     forall input, returns_only ternary (method input)) /\
  compareWith (Sample.library 3)
    (NullableType (NullableType Sample.string_))
    (NullableType Sample.string_) ∅ = Returns 1 ∅ /\
  (1 = -1 \/ 1 = 0 \/ 1 = 1).
Proof.
  assert (Hc : forall a b,
             returns_only ternary (compareTypes (Sample.library 3) a b))
    by apply Sample_compareTypes_ternary.
  assert (Hl : forall this method,
             compareWith_of (class_of (Sample.library 3) this) = Some method ->
             forall input, returns_only ternary (method input))
    by (apply Sample_compareWith_of_ternary, Sample_compareTypes_ternary).
  assert (Hrun : compareWith (Sample.library 3)
                   (NullableType (NullableType Sample.string_))
                   (NullableType Sample.string_) ∅ = Returns 1 ∅)
    by reflexivity.
  split; [exact Hc|]. split; [exact Hl|]. split; [exact Hrun|].
  exact (proj2 (compareWith_returns_a_ranking (Sample.library 3)) Hc Hl
           _ _ _ _ _ Hrun).
Defined.

(** ** What collectErrors records *)

Lemma records_nothing (validation : Validation) :
  records validation (false, validation).
Proof.
  exists []. rewrite app_nil_r. split; [reflexivity|].
  split; [discriminate | congruence].
Qed.

Lemma records_one (validation : Validation) (path : IdentifierPath)
    (expected : type) (message : string) :
  records validation (true, addError validation path expected message).
Proof.
  exists [(path, expected, message)]. split; [reflexivity|].
  split; [discriminate | reflexivity].
Qed.

(** One more error after a call that only recorded. *)
Lemma records_more (validation validation1 : Validation) (hasErrors : bool)
    (path : IdentifierPath) (expected : type) (message : string) :
  records validation (hasErrors, validation1) ->
  records validation (true, addError validation1 path expected message).
Proof.
  intros (errors & Hv & _). simpl in Hv. subst validation1.
  exists (errors ++ [(path, expected, message)])%list.
  unfold addError. rewrite app_assoc. split; [reflexivity|].
  split; [intros _ | reflexivity].
  destruct errors; discriminate.
Qed.

(** A call that recorded nothing hands the session over as it got it. *)
Lemma records_passed (validation validation1 : Validation) :
  records validation (false, validation1) -> validation1 = validation.
Proof.
  intros (errors & Hv & Hiff). simpl in Hv, Hiff.
  destruct errors as [|e errors]; [rewrite app_nil_r in Hv; exact Hv|].
  assert (H : false = true) by (apply Hiff; discriminate). discriminate H.
Qed.

Lemma FunctionType_collectErrors_params_records (L : Library)
    (toString : type -> M string) (this : type) (path : IdentifierPath)
    (annotation_params params : list (FunctionTypeParam_ type))
    (validation : Validation) :
  forall i hasErrors validation1,
    records validation (hasErrors, validation1) ->
    returns_only (records validation)
      (FunctionType_collectErrors_params L toString this path
         annotation_params i params hasErrors validation1).
Proof.
  induction params as [|param params' IH]; intros i hasErrors v Hv; simpl.
  - apply returns_only_ret. exact Hv.
  - assert (Hexpect : returns_only (records validation)
              (FunctionType_expectArgument L toString this path param v)).
    { unfold FunctionType_expectArgument. apply returns_only_bind. intros s.
      apply returns_only_ret. eapply records_more. exact Hv. }
    apply (returns_only_bind_with (records validation)).
    + destruct (nth_error annotation_params i).
      * apply returns_only_bind. intros [|]; simpl;
          [apply returns_only_ret; exact Hv | exact Hexpect].
      * destruct (negb (param_optional param)); [exact Hexpect|].
        apply returns_only_bind. intros [|]; simpl;
          [apply returns_only_ret; exact Hv | exact Hexpect].
    + intros [hasErrors' v'] Hv'. apply IH. exact Hv'.
Qed.

Lemma FunctionType_collectErrors_records (L : Library)
    (toString : type -> M string)
    (params : list (FunctionTypeParam_ type))
    (rest : option (FunctionTypeRestParam_ type))
    (returnType : FunctionTypeReturn_ type)
    (validation : Validation) (path : IdentifierPath) (input : value) :
  returns_only (records validation)
    (FunctionType_collectErrors L toString params rest returnType
       validation path input).
Proof.
  unfold FunctionType_collectErrors. cbv zeta.
  destruct (negb (hasFunctionType input));
    [apply returns_only_ret, records_one|].
  destruct (TypeSymbol L input) as [[annotation_params annotation_returnType]|].
  - apply (returns_only_bind_with (records validation)).
    + apply FunctionType_collectErrors_params_records. apply records_nothing.
    + intros [hasErrors v] Hv. apply returns_only_bind. intros [|]; simpl.
      * apply returns_only_ret. exact Hv.
      * apply returns_only_bind. intros s. apply returns_only_ret.
        eapply records_more. exact Hv.
  - apply returns_only_bind. intros _. apply returns_only_bind. intros _.
    apply returns_only_ret, records_nothing.
Qed.

Lemma FlowIntoType_collectErrors_records (L : Library)
    (accepts : type -> value -> M bool)
    (collectErrors :
       type -> Validation -> IdentifierPath -> value -> M (bool * Validation))
    (slot : nat) (bound : option type)
    (validation : Validation) (path : IdentifierPath) (input : value) :
  (forall t validation path v,
     returns_only (records validation) (collectErrors t validation path v)) ->
  returns_only (records validation)
    (FlowIntoType_collectErrors L accepts collectErrors slot bound
       validation path input).
Proof.
  intros Hdispatch. unfold FlowIntoType_collectErrors.
  apply returns_only_bind. intros recorded.
  assert (Hrecorded : forall X v,
             records validation (false, v) ->
             returns_only (records validation)
               (fits <- accepts X input ;;
                if fits then ret (false, v)
                else set_recorded slot (union L X (typeOf L input)) ;;;
                     ret (false, v))).
  { intros X v Hv. apply returns_only_bind. intros [|].
    - apply returns_only_ret. exact Hv.
    - apply returns_only_bind. intros _. apply returns_only_ret. exact Hv. }
  assert (Hrecord : forall v,
             records validation (false, v) ->
             returns_only (records validation)
               (set_recorded slot (typeOf L input) ;;; ret (false, v))).
  { intros v Hv. apply returns_only_bind. intros _.
    apply returns_only_ret. exact Hv. }
  destruct bound as [b|].
  - destruct b; try apply Hdispatch;
      (destruct recorded as [X|];
       [ apply (returns_only_bind_with (records validation));
         [apply Hdispatch|];
         intros [[|] v] Hv;
         [apply returns_only_ret; exact Hv | apply Hrecorded; exact Hv]
       | match goal with
         | |- context [if ?c then _ else _] => destruct c
         end; [apply returns_only_ret, records_nothing|];
         apply (returns_only_bind_with (records validation));
         [apply Hdispatch|];
         intros [[|] v] Hv;
         [apply returns_only_ret; exact Hv | apply Hrecord; exact Hv] ]).
  - destruct recorded as [X|].
    + apply (returns_only_bind_with (records validation));
        [apply returns_only_ret, records_nothing|].
      intros [[|] v] Hv;
        [apply returns_only_ret; exact Hv | apply Hrecorded; exact Hv].
    + apply Hrecord, records_nothing.
Qed.

Lemma collectErrors_records (L : Library) :
  library_records L ->
  forall fuel this validation path input,
    returns_only (records validation)
      (collectErrors L fuel this validation path input).
Proof.
  intros HL fuel.
  induction fuel as [|fuel IH]; intros this validation path input;
    [apply returns_only_diverge|].
  destruct this; simpl;
    try (apply returns_only_ret, records_nothing);
    try (destruct (collectErrors_of _) as [method|] eqn:Hmethod;
         [eapply HL; eauto | apply returns_only_ret, records_nothing]).
  - apply returns_only_ret. unfold VoidType_collectErrors.
    destruct (strict_equal _ _); [apply records_nothing | apply records_one].
  - unfold ThisType_collectErrors.
    destruct (strict_equal _ _); [apply returns_only_ret, records_nothing|].
    apply returns_only_bind. intros [|];
      [apply returns_only_ret, records_nothing|].
    destruct (negb _);
      [apply returns_only_ret, records_one
      |apply returns_only_ret, records_nothing].
  - unfold SymbolLiteralType_collectErrors.
    destruct (strict_equal _ _); [apply returns_only_ret, records_nothing|].
    apply returns_only_bind. intros text.
    apply returns_only_ret, records_one.
  - unfold NullableType_collectErrors.
    destruct (loose_equal_null input);
      [apply returns_only_ret, records_nothing | apply IH].
  - apply FlowIntoType_collectErrors_records. exact IH.
  - apply FunctionType_collectErrors_records.
Qed.

Lemma Sample_class_records (compare : type -> type -> M Z) (L : Library) :
  class_of L = Sample.class_of compare -> library_records L.
Proof.
  intros Hclass this method Hmethod dispatch Hdispatch validation path v.
  rewrite Hclass in Hmethod.
  assert (Hleaf : forall t name (ok : bool),
             returns_only (records validation)
               (ret (if ok then (false, validation)
                     else (true, addError validation path t
                                   (String.append "ERR_EXPECT_" name))))).
  { intros t name ok. apply returns_only_ret.
    destruct ok; [apply records_nothing | apply records_one]. }
  destruct this; simpl in Hmethod; try discriminate Hmethod.
  - injection Hmethod as <-. apply Hleaf.
  - injection Hmethod as <-.
    destruct (_ && _); [apply returns_only_ret, records_nothing|].
    apply Hdispatch.
  - injection Hmethod as <-. apply Hdispatch.
  - injection Hmethod as <-. apply Hdispatch.
  - repeat (match type of Hmethod with
            | context [if ?b then _ else _] => destruct b
            end;
            [simpl in Hmethod; injection Hmethod as <-;
             first [ apply Hleaf
                   | apply returns_only_ret, records_nothing
                   | apply returns_only_ret, records_one ]|]).
    simpl in Hmethod. discriminate Hmethod.
Qed.

(** [collectErrors] only appends: the session it returns holds the errors
    it was given, in their order, followed by the errors of the call, and
    the boolean it returns is true exactly when the call recorded an error.
    This holds on every node as soon as the [collectErrors] of the library
    do the same. *)
Theorem collectErrors_only_appends (L : Library) :
  library_records L ->
  forall fuel this validation path input s hasErrors validation1 s',
    collectErrors L fuel this validation path input s
    = Returns (hasErrors, validation1) s' ->
    exists errors,
      validation1 = (validation ++ errors)%list /\
      (hasErrors = true <-> errors <> []).
Proof.
  intros HL fuel this validation path input s hasErrors validation1 s' H.
  exact (collectErrors_records L HL fuel this validation path input s
           (hasErrors, validation1) s' H).
Qed.

Lemma collectErrors_only_appends_witness :
  exists errors,
    [([] : IdentifierPath, Sample.boolean_, "earlier");
     ([], string_to_string, "ERR_EXPECT_ARGUMENT x StringType");
     ([], string_to_string, "ERR_EXPECT_RETURN StringType")]
    = ([([], Sample.boolean_, "earlier")] ++ errors)%list /\
    (true = true <-> errors <> []).
Proof.
  apply (collectErrors_only_appends annotated_library
           (Sample_class_records (Sample.compareTypes 3) annotated_library
              eq_refl) 3
           string_to_string [([], Sample.boolean_, "earlier")] []
           (function 1%nat []) ∅ true _ ∅).
  vm_compute. reflexivity.
Defined.

(** ** FunctionType: accepts and collectErrors *)

Lemma FunctionType_collectErrors_params_step (L : Library)
    (toString : type -> M string) (this : type) (path : IdentifierPath)
    (annotation_params : list (FunctionTypeParam_ type)) (i : nat)
    (param : FunctionTypeParam_ type)
    (params : list (FunctionTypeParam_ type))
    (hasErrors : bool) (validation : Validation) (s : store) :
  FunctionType_collectErrors_params L toString this path annotation_params
    i (param :: params) hasErrors validation s
  = (ok <- annotation_check L annotation_params i param ;;
     r <- (if negb ok
           then FunctionType_expectArgument L toString this path param
                  validation
           else ret (hasErrors, validation)) ;;
     let '(hasErrors, validation) := r in
     FunctionType_collectErrors_params L toString this path annotation_params
       (S i) params hasErrors validation) s.
Proof.
  cbn [FunctionType_collectErrors_params]. unfold annotation_check, bind.
  destruct (nth_error annotation_params i) as [annotationParam|].
  - destruct (acceptsType L _ _ s) as [[|] s1| |]; reflexivity.
  - destruct (negb (param_optional param)); [reflexivity|].
    destruct (acceptsType_undefined L _ s) as [[|] s1| |]; reflexivity.
Qed.

(** Once an error is recorded, the loop reports one. *)
Lemma FunctionType_collectErrors_params_flagged (L : Library)
    (toString : type -> M string) (this : type) (path : IdentifierPath)
    (annotation_params : list (FunctionTypeParam_ type)) :
  forall params i validation,
    returns_only (fun r => fst r = true)
      (FunctionType_collectErrors_params L toString this path
         annotation_params i params true validation).
Proof.
  induction params as [|param params IH]; intros i validation s r s' H.
  - inversion H. reflexivity.
  - rewrite FunctionType_collectErrors_params_step in H.
    apply bind_inv_Returns in H. destruct H as (ok & s1 & _ & H).
    apply bind_inv_Returns in H. destruct H as ([h1 v1] & s2 & Hstep & H).
    assert (Hflag : h1 = true).
    { destruct ok; simpl in Hstep.
      - inversion Hstep. reflexivity.
      - unfold FunctionType_expectArgument in Hstep.
        apply bind_inv_Returns in Hstep.
        destruct Hstep as (text & s3 & _ & Hstep).
        inversion Hstep. reflexivity. }
    subst h1. exact (IH _ _ _ _ _ H).
Qed.

(** The loops of [accepts] and [collectErrors] over the parameters make the
    same tests as long as they pass; after the first that fails, [accepts]
    has returned and [collectErrors] reports an error in the end. *)
Lemma FunctionType_params_agree (L : Library)
    (toString : type -> M string) (this : type) (path : IdentifierPath)
    (annotation_params : list (FunctionTypeParam_ type)) :
  forall params i hasErrors validation s ok s1 r s2,
    every (annotation_check L annotation_params) i params s = Returns ok s1 ->
    FunctionType_collectErrors_params L toString this path annotation_params
      i params hasErrors validation s = Returns r s2 ->
    if ok then r = (hasErrors, validation) /\ s2 = s1 else fst r = true.
Proof.
  induction params as [|param params IH];
    intros i hasErrors validation s ok s1 r s2 Hevery Hcollect.
  - inversion Hevery. inversion Hcollect. subst. split; reflexivity.
  - rewrite FunctionType_collectErrors_params_step in Hcollect.
    cbn [every] in Hevery.
    apply bind_inv_Returns in Hevery.
    destruct Hevery as (ok0 & s0 & Hcheck & Hevery).
    rewrite (bind_Returns _ _ _ _ _ Hcheck) in Hcollect.
    destruct ok0; cbn [negb] in Hcollect.
    + rewrite bind_ret_l in Hcollect.
      exact (IH _ _ _ _ _ _ _ _ Hevery Hcollect).
    + inversion Hevery. subst ok s1.
      apply bind_inv_Returns in Hcollect.
      destruct Hcollect as ([h1 v1] & s3 & Hstep & Hcollect).
      unfold FunctionType_expectArgument in Hstep.
      apply bind_inv_Returns in Hstep.
      destruct Hstep as (text & s4 & _ & Hstep). inversion Hstep. subst.
      exact (FunctionType_collectErrors_params_flagged L toString this path
               annotation_params params (S i) _ _ _ _ Hcollect).
Qed.

(** [FunctionType.accepts] in terms of the tests of the parameters. *)
Lemma FunctionType_accepts_annotated (L : Library)
    (params annotation_params : list (FunctionTypeParam_ type))
    (returnType annotation_returnType : FunctionTypeReturn_ type)
    (input : value) (s : store) :
  hasFunctionType input = true ->
  TypeSymbol L input = Some (annotation_params, annotation_returnType) ->
  FunctionType_accepts L params returnType input s
  = (ok <- every (annotation_check L annotation_params) O params ;;
     if negb ok then ret false
     else acceptsType L (FunctionTypeReturn returnType)
                        (FunctionTypeReturn annotation_returnType)) s.
Proof.
  intros Hf Ha. unfold FunctionType_accepts. rewrite Hf, Ha. cbn [negb].
  unfold bind at 1 3.
  change (every _ O params s)
    with (every (annotation_check L annotation_params) O params s).
  destruct (every _ O params s) as [[|] s1| |]; try reflexivity.
  cbn [negb]. apply bind_bool_eta.
Qed.

(** On a [FunctionType], the silent and the diagnostic channel never
    contradict each other.  For an input that carries no annotation (a value
    that is no function, or a function without one) they agree as they do on
    the other classes: the same store, the opposite boolean, one error at the
    given path for a value that is no function and none for a function.  For
    an annotated function [accepts] stops at the first part of the signature
    that fails while [collectErrors] goes on, so the stores may differ; but
    whenever both return, [collectErrors] reports an error exactly when
    [accepts] rejects, and when [accepts] accepts nothing was recorded and
    the stores are the same. *)
Theorem FunctionType_accepts_and_collectErrors_agree
    (L : Library) (fuel : nat)
    (params : list (FunctionTypeParam_ type))
    (rest : option (FunctionTypeRestParam_ type))
    (returnType : FunctionTypeReturn_ type) (input : value) :
  (hasFunctionType input = false \/ TypeSymbol L input = None ->
   forall s,
     channels_agree L fuel (FunctionType params rest returnType) input s) /\
  (forall validation path s ok s1 hasErrors validation1 s2,
     accepts L fuel (FunctionType params rest returnType) input s
     = Returns ok s1 ->
     collectErrors L fuel (FunctionType params rest returnType)
       validation path input s = Returns (hasErrors, validation1) s2 ->
     hasErrors = negb ok /\
     (ok = true -> validation1 = validation /\ s2 = s1)).
Proof.
  split.
  - intros Hinput s validation path.
    destruct fuel as [|fuel]; [reflexivity|].
    cbn [accepts collectErrors].
    unfold FunctionType_accepts, FunctionType_collectErrors. cbv zeta.
    destruct (hasFunctionType input) eqn:Hf; cbn [negb].
    + destruct Hinput as [Hinput | Hinput]; [discriminate Hinput|].
      rewrite Hinput. unfold bind.
      destruct (each _ params s) as [[] s1| |]; try reflexivity.
      destruct (acceptsType L _ _ s1) as [ok s2| |]; try reflexivity.
      apply (outcomes_agree_accepted validation path).
    + apply (outcomes_agree_rejected validation path).
  - intros validation path s ok s1 hasErrors validation1 s2 Haccepts Hcollect.
    destruct fuel as [|fuel]; [discriminate Haccepts|].
    cbn [accepts collectErrors] in Haccepts, Hcollect.
    destruct (hasFunctionType input) eqn:Hf.
    2:{ unfold FunctionType_accepts in Haccepts.
        unfold FunctionType_collectErrors in Hcollect.
        rewrite Hf in Haccepts, Hcollect. cbn [negb] in Haccepts, Hcollect.
        inversion Haccepts. inversion Hcollect. subst.
        split; [reflexivity | discriminate]. }
    destruct (TypeSymbol L input)
      as [[annotation_params annotation_returnType]|] eqn:Ha.
    2:{ unfold FunctionType_accepts in Haccepts.
        unfold FunctionType_collectErrors in Hcollect.
        rewrite Hf, Ha in Haccepts, Hcollect.
        cbn [negb] in Haccepts, Hcollect. cbv zeta in Hcollect.
        apply bind_inv_Returns in Haccepts.
        destruct Haccepts as ([] & t1 & Heach & Haccepts).
        rewrite (bind_Returns _ _ _ _ _ Heach) in Hcollect.
        apply bind_inv_Returns in Haccepts.
        destruct Haccepts as (b & t2 & Hret & Haccepts).
        rewrite (bind_Returns _ _ _ _ _ Hret) in Hcollect.
        inversion Haccepts. inversion Hcollect. subst.
        split; [reflexivity | intros _; split; reflexivity]. }
    rewrite (FunctionType_accepts_annotated L params annotation_params
               returnType annotation_returnType input s Hf Ha) in Haccepts.
    unfold FunctionType_collectErrors in Hcollect.
    rewrite Hf, Ha in Hcollect. cbn [negb] in Hcollect. cbv zeta in Hcollect.
    apply bind_inv_Returns in Haccepts.
    destruct Haccepts as (ok0 & t1 & Hevery & Haccepts).
    apply bind_inv_Returns in Hcollect.
    destruct Hcollect as ([h1 v1] & t2 & Hloop & Hcollect).
    pose proof (FunctionType_params_agree L _ _ _ _ _ _ _ _ _ _ _ _ _
                  Hevery Hloop) as Hagree.
    destruct ok0; cbn [negb] in Haccepts.
    + destruct Hagree as [Hr ->]. injection Hr as -> ->.
      rewrite (bind_Returns _ _ _ _ _ Haccepts) in Hcollect.
      destruct ok; cbn [negb] in Hcollect.
      * inversion Hcollect. subst.
        split; [reflexivity | intros _; split; reflexivity].
      * apply bind_inv_Returns in Hcollect.
        destruct Hcollect as (text & t3 & _ & Hcollect).
        inversion Hcollect. split; [reflexivity | discriminate].
    + inversion Haccepts. subst ok s1. simpl in Hagree. subst h1.
      apply bind_inv_Returns in Hcollect.
      destruct Hcollect as (ok2 & t3 & _ & Hcollect).
      destruct ok2; cbn [negb] in Hcollect.
      * inversion Hcollect. split; [reflexivity | discriminate].
      * apply bind_inv_Returns in Hcollect.
        destruct Hcollect as (text & t4 & _ & Hcollect).
        inversion Hcollect. split; [reflexivity | discriminate].
Qed.

Lemma FunctionType_accepts_and_collectErrors_agree_witness :
  accepts annotated_library 3 string_to_string (function 1%nat []) ∅
  = Returns false ∅ /\
  collectErrors annotated_library 3 string_to_string [] ["f"]
    (function 1%nat []) ∅
  = Returns
      (true,
       [(["f"], string_to_string, "ERR_EXPECT_ARGUMENT x StringType");
        (["f"], string_to_string, "ERR_EXPECT_RETURN StringType")]) ∅ /\
  true = negb false /\
  hasFunctionType (number 1) = false /\
  channels_agree annotated_library 3 string_to_string (number 1) ∅.
Proof.
  assert (Haccepts : accepts annotated_library 3 string_to_string
                       (function 1%nat []) ∅ = Returns false ∅)
    by reflexivity.
  assert (Hcollect : collectErrors annotated_library 3 string_to_string
                       [] ["f"] (function 1%nat []) ∅
                     = Returns
                         (true,
                          [(["f"], string_to_string,
                            "ERR_EXPECT_ARGUMENT x StringType");
                           (["f"], string_to_string,
                            "ERR_EXPECT_RETURN StringType")]) ∅)
    by reflexivity.
  split; [exact Haccepts|]. split; [exact Hcollect|]. split.
  { exact (proj1 (proj2 (FunctionType_accepts_and_collectErrors_agree
                           annotated_library 3
                           [Sample.param "x" Sample.string_] None
                           (mkReturn Sample.string_) (function 1%nat []))
                    [] ["f"] ∅ false ∅ true _ ∅ Haccepts Hcollect)). }
  split; [reflexivity|].
  exact (proj1 (FunctionType_accepts_and_collectErrors_agree
                  annotated_library 3
                  [Sample.param "x" Sample.string_] None
                  (mkReturn Sample.string_) (number 1))
           (or_introl eq_refl) ∅).
Defined.

(** ** FlowIntoType: type parameters without a bound *)

Lemma store_widens_recorded (L : Library) (s s' : store) (slot : nat) :
  store_widens L s s' -> is_Some (s !! slot) -> is_Some (s' !! slot).
Proof.
  intros Hw [X HX]. destruct (Hw slot X HX) as (X' & HX' & _).
  exists X'. exact HX'.
Qed.

Lemma FlowIntoType_compareWith_unbound (L : Library)
    (compareWith : type -> type -> M Z) (slot : nat) (input : type)
    (s : store) :
  FlowIntoType_compareWith L compareWith slot None input s
  = match s !! slot with
    | Some X =>
        (result <- compareTypes L X input ;;
         if result =? 0 then ret 0
         else set_recorded slot (union L X input) ;;; ret 1) s
    | None => Returns 0 (<[slot := input]> s)
    end.
Proof.
  unfold FlowIntoType_compareWith. unfold bind at 1, get_recorded.
  destruct (s !! slot); reflexivity.
Qed.

Lemma FlowIntoType_compareWith_unchained (L : Library)
    (compareWith : type -> type -> M Z) (slot : nat) (b input : type)
    (s : store) :
  is_FlowIntoType b = false ->
  FlowIntoType_compareWith L compareWith slot (Some b) input s
  = match s !! slot with
    | Some X =>
        (r <- compareTypes L b input ;;
         if r =? -1 then ret (-1)
         else (result <- compareTypes L X input ;;
               if result =? 0 then ret 0
               else set_recorded slot (union L X input) ;;; ret 1)) s
    | None =>
        if unconstraining L b then Returns 1 s
        else (result <- compareTypes L b input ;;
              if result =? -1 then ret (-1)
              else set_recorded slot input ;;; ret 0) s
    end.
Proof.
  intros Hb. unfold FlowIntoType_compareWith, unconstraining.
  unfold bind at 1, get_recorded.
  destruct b; try discriminate Hb;
    (destruct (s !! slot); [reflexivity|];
     destruct (_ || _); reflexivity).
Qed.

Lemma unbounded_accepts (L : Library) :
  forall fuel this input s ok s',
    unbounded this = true ->
    accepts L fuel this input s = Returns ok s' ->
    ok = true /\
    (library_respects L (store_widens L) (fun _ => True) ->
     is_Some (s' !! final_slot this)).
Proof.
  induction fuel as [|fuel IH]; intros this input s ok s' Hu H;
    [discriminate H|].
  destruct this; try discriminate Hu.
  cbn [accepts] in H. destruct bound as [b|].
  - destruct b; try discriminate Hu.
    exact (IH (FlowIntoType slot0 bound) input s ok s' Hu H).
  - rewrite FlowIntoType_accepts_unbound in H.
    destruct (s !! slot) as [X|] eqn:HX.
    + apply bind_inv_Returns in H. destruct H as (fits & s1 & Hfits & H).
      destruct fits.
      * inversion H. subst. split; [reflexivity|]. intros HL.
        apply (store_widens_recorded L s s').
        -- exact (proj1 (widening_preserved L HL) fuel X input s true s' Hfits).
        -- exists X. exact HX.
      * apply bind_inv_Returns in H. destruct H as (u & s2 & Hset & H).
        inversion Hset. inversion H. subst. split; [reflexivity|]. intros _.
        cbn [final_slot]. rewrite lookup_insert_eq. eexists. reflexivity.
    + inversion H. subst. split; [reflexivity|]. intros _.
      cbn [final_slot]. rewrite lookup_insert_eq. eexists. reflexivity.
Qed.

Lemma unbounded_collectErrors (L : Library) :
  forall fuel this validation path input s r s',
    unbounded this = true ->
    collectErrors L fuel this validation path input s = Returns r s' ->
    r = (false, validation) /\
    (library_respects L (store_widens L) (fun _ => True) ->
     is_Some (s' !! final_slot this)).
Proof.
  induction fuel as [|fuel IH]; intros this validation path input s r s' Hu H;
    [discriminate H|].
  destruct this; try discriminate Hu.
  cbn [collectErrors] in H. destruct bound as [b|].
  - destruct b; try discriminate Hu.
    exact (IH (FlowIntoType slot0 bound) validation path input s r s' Hu H).
  - rewrite FlowIntoType_collectErrors_unbound in H.
    destruct (s !! slot) as [X|] eqn:HX.
    + apply bind_inv_Returns in H. destruct H as (fits & s1 & Hfits & H).
      destruct fits.
      * inversion H. subst. split; [reflexivity|]. intros HL.
        apply (store_widens_recorded L s s').
        -- exact (proj1 (widening_preserved L HL) fuel X input s true s' Hfits).
        -- exists X. exact HX.
      * apply bind_inv_Returns in H. destruct H as (u & s2 & Hset & H).
        inversion Hset. inversion H. subst. split; [reflexivity|]. intros _.
        cbn [final_slot]. rewrite lookup_insert_eq. eexists. reflexivity.
    + inversion H. subst. split; [reflexivity|]. intros _.
      cbn [final_slot]. rewrite lookup_insert_eq. eexists. reflexivity.
Qed.

Lemma unbounded_compareWith (L : Library) :
  forall this input s r s',
    unbounded this = true ->
    compareWith L this input s = Returns r s' ->
    (r = 0 \/ r = 1) /\
    (library_respects L (store_widens L) (fun _ => True) ->
     is_Some (s' !! final_slot this)).
Proof.
  intros this. remember (chain_length this) as n eqn:Hn. revert this Hn.
  induction n as [|n IH]; intros this Hn input s r s' Hu H;
    (destruct this; try discriminate Hu);
    cbn [compareWith] in H; (destruct bound as [b|]);
    try (destruct b; discriminate Hu);
    cbn [chain_length] in Hn; try discriminate Hn.
  - rewrite FlowIntoType_compareWith_unbound in H.
    destruct (s !! slot) as [X|] eqn:HX.
    + apply bind_inv_Returns in H. destruct H as (result & s1 & Hresult & H).
      destruct (result =? 0).
      * inversion H. subst. split; [left; reflexivity|]. intros HL.
        apply (store_widens_recorded L s s'); [|exists X; exact HX].
        pose proof (respects_compareTypes HL X input s) as Hr.
        unfold hoare in Hr. rewrite Hresult in Hr. exact Hr.
      * apply bind_inv_Returns in H. destruct H as (u & s2 & Hset & H).
        inversion Hset. inversion H. subst. split; [right; reflexivity|].
        intros _. cbn [final_slot]. rewrite lookup_insert_eq.
        eexists. reflexivity.
    + inversion H. subst. split; [left; reflexivity|]. intros _.
      cbn [final_slot]. rewrite lookup_insert_eq. eexists. reflexivity.
  - destruct b; try discriminate Hu.
    apply (IH (FlowIntoType slot0 bound)) with (input := input) (s := s);
      [|exact Hu|exact H].
    injection Hn as Hn. exact Hn.
Qed.

(** A [FlowIntoType] whose type parameter has no bound, directly or at the
    end of a chain of type parameters, never rejects: [accepts] returns
    true, [collectErrors] returns false and records no error, and
    [compareWith] returns 0 or 1, whenever they return.  When the library
    only widens the recorded types, the type parameter at the end of the
    chain has a recorded type afterwards. *)
Theorem unbounded_FlowIntoType_never_rejects (L : Library) (this : type) :
  unbounded this = true ->
  (forall fuel input s ok s',
     accepts L fuel this input s = Returns ok s' -> ok = true) /\
  (forall fuel validation path input s r s',
     collectErrors L fuel this validation path input s = Returns r s' ->
     r = (false, validation)) /\
  (forall input s r s',
     compareWith L this input s = Returns r s' -> r = 0 \/ r = 1) /\
  (library_respects L (store_widens L) (fun _ => True) ->
   (forall fuel input s ok s',
      accepts L fuel this input s = Returns ok s' ->
      is_Some (s' !! final_slot this)) /\
   (forall fuel validation path input s r s',
      collectErrors L fuel this validation path input s = Returns r s' ->
      is_Some (s' !! final_slot this)) /\
   (forall input s r s',
      compareWith L this input s = Returns r s' ->
      is_Some (s' !! final_slot this))).
Proof.
  intros Hu. split; [|split; [|split]].
  - intros fuel input s ok s' H.
    exact (proj1 (unbounded_accepts L fuel this input s ok s' Hu H)).
  - intros fuel validation path input s r s' H.
    exact (proj1 (unbounded_collectErrors L fuel this validation path input
                    s r s' Hu H)).
  - intros input s r s' H.
    exact (proj1 (unbounded_compareWith L this input s r s' Hu H)).
  - intros HL. split; [|split].
    + intros fuel input s ok s' H.
      exact (proj2 (unbounded_accepts L fuel this input s ok s' Hu H) HL).
    + intros fuel validation path input s r s' H.
      exact (proj2 (unbounded_collectErrors L fuel this validation path input
                      s r s' Hu H) HL).
    + intros input s r s' H.
      exact (proj2 (unbounded_compareWith L this input s r s' Hu H) HL).
Qed.

Lemma unbounded_FlowIntoType_never_rejects_witness :
  unbounded (FlowIntoType 1 (Some (FlowIntoType 0 None))) = true /\
  library_respects (Sample.library 1) (store_widens (Sample.library 1))
    (fun _ => True) /\
  accepts (Sample.library 1) 4 (FlowIntoType 1 (Some (FlowIntoType 0 None)))
    (number 1) recorded_string
  = Returns true
      (<[0%nat := UnionType [Sample.string_; Sample.number_]]> recorded_string) /\
  true = true /\
  is_Some ((<[0%nat := UnionType [Sample.string_; Sample.number_]]>
              recorded_string) !! 0%nat).
Proof.
  assert (Hu : unbounded (FlowIntoType 1 (Some (FlowIntoType 0 None))) = true)
    by reflexivity.
  assert (HL : library_respects (Sample.library 1)
                 (store_widens (Sample.library 1)) (fun _ => True)).
  { apply Sample_library_respects.
    - apply store_widens_refl.
    - apply store_widens_trans.
    - apply store_widens_record.
    - apply (store_widens_union (Sample.library 1)).
    - exact I. }
  assert (Hrun : accepts (Sample.library 1) 4
                   (FlowIntoType 1 (Some (FlowIntoType 0 None)))
                   (number 1) recorded_string
                 = Returns true
                     (<[0%nat := UnionType [Sample.string_; Sample.number_]]>
                        recorded_string)) by reflexivity.
  pose proof (unbounded_FlowIntoType_never_rejects (Sample.library 1)
                (FlowIntoType 1 (Some (FlowIntoType 0 None))) Hu)
    as (Haccepts & _ & _ & Hrecorded).
  split; [exact Hu|]. split; [exact HL|]. split; [exact Hrun|]. split.
  - exact (Haccepts 4%nat (number 1) recorded_string true _ Hrun).
  - exact (proj1 (Hrecorded HL) 4%nat (number 1) recorded_string true _ Hrun).
Defined.

(** ** FlowIntoType: the first value and the comparator *)

(** The first value that a type parameter sees.  Without a bound its type
    is recorded as it is.  Under a bound [AnyType] or [ExistentialType]
    nothing is recorded and the bound is not asked.  Under any other bound
    the answer is the one of the bound, and the type of the value is
    recorded when the bound accepts it, over whatever the call of the bound
    left in the slot. *)
Theorem FlowIntoType_first_observation
    (L : Library) (fuel : nat) (slot : nat) (input : value) (s : store) :
  s !! slot = None ->
  (forall validation path,
     accepts L (S fuel) (FlowIntoType slot None) input s
     = Returns true (<[slot := typeOf L input]> s) /\
     collectErrors L (S fuel) (FlowIntoType slot None) validation path input s
     = Returns (false, validation) (<[slot := typeOf L input]> s)) /\
  (forall b validation path,
     is_FlowIntoType b = false ->
     unconstraining L b = true ->
     accepts L (S fuel) (FlowIntoType slot (Some b)) input s
     = Returns true s /\
     collectErrors L (S fuel) (FlowIntoType slot (Some b))
       validation path input s
     = Returns (false, validation) s) /\
  (forall b ok s1,
     is_FlowIntoType b = false ->
     unconstraining L b = false ->
     accepts L fuel b input s = Returns ok s1 ->
     accepts L (S fuel) (FlowIntoType slot (Some b)) input s
     = Returns ok (if ok then <[slot := typeOf L input]> s1 else s1)) /\
  (forall b validation path failed validation1 s1,
     is_FlowIntoType b = false ->
     unconstraining L b = false ->
     collectErrors L fuel b validation path input s
     = Returns (failed, validation1) s1 ->
     collectErrors L (S fuel) (FlowIntoType slot (Some b))
       validation path input s
     = Returns (failed, validation1)
         (if failed then s1 else <[slot := typeOf L input]> s1)).
Proof.
  intros Hslot. split; [|split; [|split]].
  - intros validation path. cbn [accepts collectErrors].
    rewrite FlowIntoType_accepts_unbound, FlowIntoType_collectErrors_unbound.
    rewrite Hslot. split; reflexivity.
  - intros b validation path Hb Hany. cbn [accepts collectErrors].
    rewrite FlowIntoType_accepts_unchained,
      FlowIntoType_collectErrors_unchained by exact Hb.
    rewrite Hslot. unfold unconstraining in Hany. rewrite Hany.
    split; reflexivity.
  - intros b ok s1 Hb Hany Hbound. cbn [accepts].
    rewrite FlowIntoType_accepts_unchained by exact Hb.
    rewrite Hslot. unfold unconstraining in Hany. rewrite Hany.
    rewrite (bind_Returns _ _ _ _ _ Hbound). destruct ok; reflexivity.
  - intros b validation path failed validation1 s1 Hb Hany Hbound.
    cbn [collectErrors].
    rewrite FlowIntoType_collectErrors_unchained by exact Hb.
    rewrite Hslot. unfold unconstraining in Hany. rewrite Hany.
    rewrite (bind_Returns _ _ _ _ _ Hbound). destruct failed; reflexivity.
Qed.

Lemma FlowIntoType_first_observation_witness :
  (∅ : store) !! 0%nat = None /\
  unconstraining (Sample.library 1) (LeafType "AnyType") = true /\
  accepts (Sample.library 1) 3 (FlowIntoType 0 (Some (LeafType "AnyType")))
    (number 1) ∅ = Returns true ∅ /\
  unconstraining (Sample.library 1) Sample.string_ = false /\
  accepts (Sample.library 1) 2 Sample.string_ (str "a") ∅ = Returns true ∅ /\
  accepts (Sample.library 1) 3 (FlowIntoType 0 (Some Sample.string_))
    (str "a") ∅ = Returns true (<[0%nat := Sample.string_]> ∅) /\
  collectErrors (Sample.library 1) 2 Sample.string_ [] ["x"] (number 1) ∅
  = Returns (true, [(["x"], Sample.string_, "ERR_EXPECT_StringType")]) ∅ /\
  collectErrors (Sample.library 1) 3 (FlowIntoType 0 (Some Sample.string_))
    [] ["x"] (number 1) ∅
  = Returns (true, [(["x"], Sample.string_, "ERR_EXPECT_StringType")]) ∅.
Proof.
  assert (Hslot : (∅ : store) !! 0%nat = None) by reflexivity.
  assert (Hany : unconstraining (Sample.library 1) (LeafType "AnyType") = true)
    by reflexivity.
  assert (Hstring : unconstraining (Sample.library 1) Sample.string_ = false)
    by reflexivity.
  assert (Hbound : accepts (Sample.library 1) 2 Sample.string_ (str "a") ∅
                   = Returns true ∅) by reflexivity.
  assert (Hfails : collectErrors (Sample.library 1) 2 Sample.string_ [] ["x"]
                     (number 1) ∅
                   = Returns (true, [(["x"], Sample.string_,
                                      "ERR_EXPECT_StringType")]) ∅)
    by reflexivity.
  pose proof (FlowIntoType_first_observation (Sample.library 1) 2 0
                (number 1) ∅ Hslot) as (_ & Hunconstrained & _ & Hcollect).
  pose proof (FlowIntoType_first_observation (Sample.library 1) 2 0
                (str "a") ∅ Hslot) as (_ & _ & Haccepts & _).
  split; [exact Hslot|]. split; [exact Hany|]. split.
  { exact (proj1 (Hunconstrained (LeafType "AnyType") [] [] eq_refl Hany)). }
  split; [exact Hstring|]. split; [exact Hbound|]. split.
  { exact (Haccepts Sample.string_ true ∅ eq_refl Hstring Hbound). }
  split; [exact Hfails|].
  exact (Hcollect Sample.string_ [] ["x"] true _ ∅ eq_refl Hstring Hfails).
Defined.

(** [FlowIntoType.compareWith] on a type parameter that is not chained to
    another one.  It answers -1 only when the comparison of its bound with
    the input does.  When a type [X] is recorded and the bound allows the
    input, the answer is 0 if [X] compares as 0 with the input, and
    otherwise 1, with [union(X, input)] recorded: also when [X] ranks below
    the input.  When nothing is recorded, the input is recorded as it is
    and the answer is 0, unless the bound ranks below the input (-1) or is
    [AnyType] or [ExistentialType] (1, and the bound is not asked); in both
    cases nothing is recorded. *)
Theorem FlowIntoType_compareWith_flow
    (L : Library) (slot : nat) (bound : option type) (input : type)
    (s : store) :
  (forall b, bound = Some b -> is_FlowIntoType b = false) ->
  (forall s',
     compareWith L (FlowIntoType slot bound) input s = Returns (-1) s' ->
     exists b, bound = Some b /\ compareTypes L b input s = Returns (-1) s') /\
  (forall X s1 r s2,
     s !! slot = Some X ->
     bound_allows L bound input s s1 ->
     compareTypes L X input s1 = Returns r s2 ->
     compareWith L (FlowIntoType slot bound) input s
     = if r =? 0 then Returns 0 s2
       else Returns 1 (<[slot := union L X input]> s2)) /\
  (s !! slot = None ->
   bound = None ->
   compareWith L (FlowIntoType slot bound) input s
   = Returns 0 (<[slot := input]> s)) /\
  (forall b,
     s !! slot = None ->
     bound = Some b ->
     unconstraining L b = true ->
     compareWith L (FlowIntoType slot bound) input s = Returns 1 s) /\
  (forall b r s1,
     s !! slot = None ->
     bound = Some b ->
     unconstraining L b = false ->
     compareTypes L b input s = Returns r s1 ->
     compareWith L (FlowIntoType slot bound) input s
     = if r =? -1 then Returns (-1) s1
       else Returns 0 (<[slot := input]> s1)).
Proof.
  intros Hunchained. cbn [compareWith].
  split; [|split; [|split; [|split]]].
  - intros s' H. destruct bound as [b|].
    + exists b. split; [reflexivity|].
      rewrite (FlowIntoType_compareWith_unchained L _ slot b input s
                 (Hunchained b eq_refl)) in H.
      destruct (s !! slot) as [X|].
      * apply bind_inv_Returns in H. destruct H as (r & s1 & Hr & H).
        destruct (Z.eqb_spec r (-1)) as [->|Hne].
        -- inversion H. subst. exact Hr.
        -- apply bind_inv_Returns in H.
           destruct H as (result & s2 & _ & H).
           destruct (result =? 0); [discriminate H|].
           apply bind_inv_Returns in H. destruct H as (u & s3 & _ & H).
           discriminate H.
      * destruct (unconstraining L b); [discriminate H|].
        apply bind_inv_Returns in H. destruct H as (r & s1 & Hr & H).
        destruct (Z.eqb_spec r (-1)) as [->|Hne].
        -- inversion H. subst. exact Hr.
        -- apply bind_inv_Returns in H. destruct H as (u & s3 & _ & H).
           discriminate H.
    + rewrite FlowIntoType_compareWith_unbound in H.
      destruct (s !! slot) as [X|]; [|discriminate H].
      apply bind_inv_Returns in H. destruct H as (result & s2 & _ & H).
      destruct (result =? 0); [discriminate H|].
      apply bind_inv_Returns in H. destruct H as (u & s3 & _ & H).
      discriminate H.
  - intros X s1 r s2 Hslot Hbound Hresult. destruct bound as [b|].
    + destruct Hbound as (Hb & r0 & Hr0 & Hcompare).
      rewrite (FlowIntoType_compareWith_unchained L _ slot b input s Hb).
      rewrite Hslot. rewrite (bind_Returns _ _ _ _ _ Hcompare).
      destruct (Z.eqb_spec r0 (-1)) as [->|_]; [congruence|].
      rewrite (bind_Returns _ _ _ _ _ Hresult).
      destruct (r =? 0); reflexivity.
    + simpl in Hbound. subst s1.
      rewrite FlowIntoType_compareWith_unbound. rewrite Hslot.
      rewrite (bind_Returns _ _ _ _ _ Hresult).
      destruct (r =? 0); reflexivity.
  - intros Hslot ->. rewrite FlowIntoType_compareWith_unbound.
    rewrite Hslot. reflexivity.
  - intros b Hslot -> Hany.
    rewrite (FlowIntoType_compareWith_unchained L _ slot b input s
               (Hunchained b eq_refl)).
    rewrite Hslot, Hany. reflexivity.
  - intros b r s1 Hslot -> Hany Hcompare.
    rewrite (FlowIntoType_compareWith_unchained L _ slot b input s
               (Hunchained b eq_refl)).
    rewrite Hslot, Hany. rewrite (bind_Returns _ _ _ _ _ Hcompare).
    destruct (r =? -1); reflexivity.
Qed.

Lemma FlowIntoType_compareWith_flow_witness :
  (forall b, @None type = Some b -> is_FlowIntoType b = false) /\
  recorded_string !! 0%nat = Some Sample.string_ /\
  bound_allows (Sample.library 3) None Sample.number_
    recorded_string recorded_string /\
  compareTypes (Sample.library 3) Sample.string_ Sample.number_ recorded_string
  = Returns (-1) recorded_string /\
  compareWith (Sample.library 3) (FlowIntoType 0 None) Sample.number_
    recorded_string
  = Returns 1
      (<[0%nat := UnionType [Sample.string_; Sample.number_]]> recorded_string).
Proof.
  assert (Hunchained : forall b,
             @None type = Some b -> is_FlowIntoType b = false)
    by (intros b Hb; discriminate Hb).
  assert (Hslot : recorded_string !! 0%nat = Some Sample.string_)
    by reflexivity.
  assert (Hbound : bound_allows (Sample.library 3) None Sample.number_
                     recorded_string recorded_string) by reflexivity.
  assert (Hresult : compareTypes (Sample.library 3) Sample.string_
                      Sample.number_ recorded_string
                    = Returns (-1) recorded_string) by reflexivity.
  split; [exact Hunchained|]. split; [exact Hslot|].
  split; [exact Hbound|]. split; [exact Hresult|].
  exact (proj1 (proj2 (FlowIntoType_compareWith_flow (Sample.library 3) 0 None
                         Sample.number_ recorded_string Hunchained))
           Sample.string_ recorded_string (-1) recorded_string
           Hslot Hbound Hresult).
Defined.

(** ** FunctionType.invoke *)

Lemma declared_type_checks_supplied (L : Library)
    (accepts1 accepts2 : type -> value -> M bool)
    (params : list (FunctionTypeParam_ type)) (args : list type) :
  (length params <= length args)%nat ->
  declared_type_checks L accepts1 params args
  = declared_type_checks L accepts2 params args.
Proof.
  intros Hlen. unfold declared_type_checks.
  apply List.map_ext_in. intros [i p] Hin. simpl.
  apply indexed_bound in Hin.
  destruct (nth_error args i) eqn:Hnth; [reflexivity|].
  apply List.nth_error_None in Hnth. lia.
Qed.

(** [invoke] returns the declared return type or the empty type and nothing
    else; it returns the return type exactly when the checks of the declared
    parameters and then those of the arguments beyond them, against the rest
    parameter, all pass, in this order and up to the first that fails.
    Where every declared parameter has an argument, [invoke] compares types
    only: no [accepts] is called, so no value is looked at. *)
Theorem FunctionType_invoke_return_type_or_empty
    (L : Library) (accepts : type -> value -> M bool)
    (params : list (FunctionTypeParam_ type))
    (rest : option (FunctionTypeRestParam_ type))
    (returnType : FunctionTypeReturn_ type) (args : list type) :
  (forall s t s',
     FunctionType_invoke L accepts params rest returnType args s
     = Returns t s' ->
     t = return_type returnType \/ t = empty L) /\
  (forall s,
     FunctionType_invoke L accepts params rest returnType args s
     = (ok <- all_of (declared_type_checks L accepts params args
                      ++ match rest with
                         | Some rest => excess_type_checks L params rest args
                         | None => []
                         end) ;;
        ret (if ok then return_type returnType else empty L)) s) /\
  ((length params <= length args)%nat ->
   forall (accepts' : type -> value -> M bool) s,
     FunctionType_invoke L accepts params rest returnType args s
     = FunctionType_invoke L accepts' params rest returnType args s).
Proof.
  split; [|split].
  - intros s t s' H. rewrite FunctionType_invoke_all_of in H.
    apply bind_inv_Returns in H. destruct H as (ok & s1 & _ & H).
    inversion H. destruct ok; [left | right]; reflexivity.
  - intros s. apply FunctionType_invoke_all_of.
  - intros Hlen accepts' s. rewrite !FunctionType_invoke_all_of.
    rewrite (declared_type_checks_supplied L accepts accepts' params args Hlen).
    reflexivity.
Qed.

Lemma FunctionType_invoke_return_type_or_empty_witness :
  FunctionType_invoke (Sample.library 3) (accepts (Sample.library 3) 3)
    [Sample.param "x" Sample.string_]
    (Some (mkRestParam "r" Sample.number_)) (mkReturn Sample.boolean_)
    [Sample.string_; Sample.number_; Sample.string_] ∅
  = Returns (LeafType "EmptyType") ∅ /\
  (LeafType "EmptyType" = Sample.boolean_ \/
   LeafType "EmptyType" = LeafType "EmptyType") /\
  (length [Sample.param "x" Sample.string_]
   <= length [Sample.string_; Sample.number_; Sample.string_])%nat /\
  FunctionType_invoke (Sample.library 3) (accepts (Sample.library 3) 3)
    [Sample.param "x" Sample.string_]
    (Some (mkRestParam "r" Sample.number_)) (mkReturn Sample.boolean_)
    [Sample.string_; Sample.number_; Sample.string_] ∅
  = FunctionType_invoke (Sample.library 3) (fun _ _ => diverge)
      [Sample.param "x" Sample.string_]
      (Some (mkRestParam "r" Sample.number_)) (mkReturn Sample.boolean_)
      [Sample.string_; Sample.number_; Sample.string_] ∅.
Proof.
  assert (Hrun : FunctionType_invoke (Sample.library 3)
                   (accepts (Sample.library 3) 3)
                   [Sample.param "x" Sample.string_]
                   (Some (mkRestParam "r" Sample.number_))
                   (mkReturn Sample.boolean_)
                   [Sample.string_; Sample.number_; Sample.string_] ∅
                 = Returns (LeafType "EmptyType") ∅) by reflexivity.
  assert (Hlen : (length [Sample.param "x" Sample.string_]
                  <= length [Sample.string_; Sample.number_; Sample.string_])%nat)
    by (simpl; lia).
  pose proof (FunctionType_invoke_return_type_or_empty (Sample.library 3)
                (accepts (Sample.library 3) 3)
                [Sample.param "x" Sample.string_]
                (Some (mkRestParam "r" Sample.number_))
                (mkReturn Sample.boolean_)
                [Sample.string_; Sample.number_; Sample.string_])
    as (Hrange & _ & Htypes).
  split; [exact Hrun|]. split; [exact (Hrange ∅ _ ∅ Hrun)|].
  split; [exact Hlen|].
  exact (Htypes Hlen (fun _ _ => diverge) ∅).
Defined.

(** ** FunctionType.assertParams and FunctionType.assertReturn *)

Lemma each_app {A B} (body : A -> M B) (l1 l2 : list A) (s : store) :
  each body (l1 ++ l2) s = (each body l1 ;;; each body l2) s.
Proof.
  revert s. induction l1 as [|a l1 IH]; intros s; [reflexivity|].
  cbn [app each]. unfold bind at 1 2 3.
  destruct (body a s) as [b s1| |]; try reflexivity.
  rewrite IH. reflexivity.
Qed.

Lemma each_map {A B C} (f : A -> B) (body : B -> M C) (l : list A)
    (s : store) :
  each body (map f l) s = each (fun a => body (f a)) l s.
Proof.
  revert s. induction l as [|a l IH]; intros s; [reflexivity|].
  cbn [map each]. unfold bind.
  destruct (body (f a) s) as [b s1| |]; try reflexivity. apply IH.
Qed.

Lemma returns_only_each {A B} (body : A -> M B) (l : list A) :
  returns_only (fun _ => True) (each body l).
Proof. intros s a s' _. exact I. Qed.

(** The loop over the declared parameters of [assertParams]. *)
Lemma FunctionType_assertParams_declared (L : Library) (fuel : nat)
    (args : list value) :
  forall (params : list (FunctionTypeParam_ type)) (i : nat) (s : store),
    (fix loop (i : nat) (params : list (FunctionTypeParam_ type)) : M unit :=
       match params with
       | [] => ret tt
       | param :: params' =>
           (if Nat.ltb i (length args)
            then assert L fuel (FunctionTypeParam param) (arg args i)
            else assert L fuel (FunctionTypeParam param) undefined) ;;;
           loop (S i) params'
       end) i params s
    = each (fun ip => assert L fuel (FunctionTypeParam (snd ip))
                        (arg args (fst ip)))
           (indexed i params) s.
Proof.
  unfold indexed.
  induction params as [|param params IH]; intros i s; [reflexivity|].
  cbn [length seq combine each fst snd].
  replace (if Nat.ltb i (length args)
           then assert L fuel (FunctionTypeParam param) (arg args i)
           else assert L fuel (FunctionTypeParam param) undefined)
    with (assert L fuel (FunctionTypeParam param) (arg args i)).
  2:{ destruct (Nat.ltb_spec i (length args)) as [Hlt|Hge]; [reflexivity|].
      rewrite (arg_beyond args i Hge). reflexivity. }
  unfold bind.
  destruct (assert L fuel (FunctionTypeParam param) (arg args i) s)
    as [v s1| |]; try reflexivity.
  apply IH.
Qed.

Lemma FunctionType_assertParams_each (L : Library) (fuel : nat)
    (params : list (FunctionTypeParam_ type))
    (rest : option (FunctionTypeRestParam_ type))
    (args : list value) (s : store) :
  FunctionType_assertParams L fuel params rest args s
  = (each (fun p => assert L fuel (fst p) (snd p))
          (declared_pairs params args ++ excess_pairs params rest args) ;;;
     ret args) s.
Proof.
  unfold FunctionType_assertParams. cbv zeta.
  unfold bind at 1. rewrite FunctionType_assertParams_declared.
  unfold bind at 2. rewrite each_app. unfold bind at 2.
  unfold declared_pairs. rewrite each_map. cbn [fst snd].
  destruct (each _ (indexed 0 params) s) as [[] s1| |]; try reflexivity.
  unfold excess_pairs. destruct rest as [rest|]; [|reflexivity].
  rewrite each_map. cbn [fst snd].
  destruct (Nat.ltb_spec (length params) (length args)) as [Hlt|Hge].
  - reflexivity.
  - rewrite (List.skipn_all2 args Hge). reflexivity.
Qed.

Lemma declared_pairs_firstn (params : list (FunctionTypeParam_ type))
    (args : list value) :
  declared_pairs params (firstn (length params) args)
  = declared_pairs params args.
Proof.
  unfold declared_pairs. apply List.map_ext_in. intros [i p] Hin. simpl.
  apply indexed_bound in Hin. unfold arg. rewrite List.nth_firstn.
  destruct (Nat.ltb_spec i (length params)); [reflexivity | lia].
Qed.

(** [assertParams] asserts each declared parameter against the argument at
    its position ([undefined] where there is none), then each argument
    beyond them against the rest parameter, in this order; the first
    assertion that throws ends it.  When it returns, it returns the
    arguments as it got them.  Without a rest parameter the arguments
    beyond the declared parameters are not asserted, so [assertParams]
    throws or passes as it does on the arguments cut to the declared
    parameters.  [assertReturn] returns its input. *)
Theorem FunctionType_assertParams_returns_arguments
    (L : Library) (fuel : nat)
    (params : list (FunctionTypeParam_ type))
    (rest : option (FunctionTypeRestParam_ type))
    (args : list value) :
  (forall s r s',
     FunctionType_assertParams L fuel params rest args s = Returns r s' ->
     r = args) /\
  (forall s,
     FunctionType_assertParams L fuel params rest args s
     = (each (fun p => assert L fuel (fst p) (snd p))
             (declared_pairs params args ++ excess_pairs params rest args) ;;;
        ret args) s) /\
  (forall s,
     (FunctionType_assertParams L fuel params None args ;;; ret tt) s
     = (FunctionType_assertParams L fuel params None
          (firstn (length params) args) ;;; ret tt) s) /\
  (forall returnType input s r s',
     FunctionType_assertReturn L fuel returnType input s = Returns r s' ->
     r = input).
Proof.
  split; [|split; [|split]].
  - intros s r s' H. rewrite FunctionType_assertParams_each in H.
    apply bind_inv_Returns in H. destruct H as (u & s1 & _ & H).
    inversion H. reflexivity.
  - intros s. apply FunctionType_assertParams_each.
  - intros s. unfold bind at 1 2. rewrite !FunctionType_assertParams_each.
    rewrite declared_pairs_firstn. unfold excess_pairs, bind.
    destruct (each _ _ s) as [u s1| |]; reflexivity.
  - intros returnType input s r s' H. unfold FunctionType_assertReturn in H.
    apply bind_inv_Returns in H. destruct H as (v & s1 & _ & H).
    inversion H. reflexivity.
Qed.

Lemma FunctionType_assertParams_returns_arguments_witness :
  FunctionType_assertParams (Sample.library 1) 3
    [Sample.param "x" Sample.string_] None [str "a"; number 1] ∅
  = Returns [str "a"; number 1] ∅ /\
  FunctionType_assertReturn (Sample.library 1) 3 (mkReturn Sample.string_)
    (str "a") ∅
  = Returns (str "a") ∅ /\
  [str "a"; number 1] = [str "a"; number 1] /\
  str "a" = str "a".
Proof.
  assert (Hparams : FunctionType_assertParams (Sample.library 1) 3
                      [Sample.param "x" Sample.string_] None
                      [str "a"; number 1] ∅
                    = Returns [str "a"; number 1] ∅) by reflexivity.
  assert (Hreturn : FunctionType_assertReturn (Sample.library 1) 3
                      (mkReturn Sample.string_) (str "a") ∅
                    = Returns (str "a") ∅) by reflexivity.
  pose proof (FunctionType_assertParams_returns_arguments (Sample.library 1) 3
                [Sample.param "x" Sample.string_] None [str "a"; number 1])
    as (Hargs & _ & _ & Hinput).
  split; [exact Hparams|]. split; [exact Hreturn|]. split.
  - exact (Hargs ∅ _ ∅ Hparams).
  - exact (Hinput (mkReturn Sample.string_) (str "a") ∅ _ ∅ Hreturn).
Defined.

(** ** NullableType over NullableType *)

(** Wrapping a nullable type a second time changes nothing for values: the
    two nodes accept the same inputs and record the same errors, with the
    same effects. *)
Theorem NullableType_idempotent
    (L : Library) (fuel : nat) (inner : type) (input : value) (s : store) :
  accepts L (S (S fuel)) (NullableType (NullableType inner)) input s
  = accepts L (S fuel) (NullableType inner) input s /\
  (forall validation path,
     collectErrors L (S (S fuel)) (NullableType (NullableType inner))
       validation path input s
     = collectErrors L (S fuel) (NullableType inner) validation path input s).
Proof.
  split.
  - cbn [accepts]. unfold NullableType_accepts.
    destruct (loose_equal_null input); reflexivity.
  - intros validation path. cbn [collectErrors].
    unfold NullableType_collectErrors.
    destruct (loose_equal_null input); reflexivity.
Qed.

(** ** The comparator on the leaves *)

(** The comparator of [VoidType], [ThisType] and [SymbolLiteralType] reads
    no store and changes none, and ranks its node at or above the input only
    if the input is of the same class.  A node compares as 0 with itself,
    except a [ThisType] that has captured no value (or a falsy one), which
    ranks above itself, and a [SymbolLiteralType] of [NaN], which ranks
    below itself.  Two [SymbolLiteralType]s compare the same way in both
    directions. *)
Theorem leaf_compareWith_within_class (L : Library) (t : type) :
  is_leaf t = true ->
  (forall u s, exists r,
     compareWith L t u s = Returns r s /\
     (r <> -1 -> same_class t u = true)) /\
  (forall s, compareWith L t t s = Returns (self_ranking t) s) /\
  (forall a b s,
     compareWith L (SymbolLiteralType a) (SymbolLiteralType b) s
     = compareWith L (SymbolLiteralType b) (SymbolLiteralType a) s).
Proof.
  intros Ht. split; [|split].
  - intros u s. destruct t; try discriminate Ht; cbn [compareWith];
      eexists; (split; [reflexivity|]); destruct u; simpl; congruence.
  - intros s. destruct t; try discriminate Ht; cbn [compareWith].
    + reflexivity.
    + unfold ThisType_compareWith, self_ranking.
      destruct (truthy recorded) eqn:Hr; simpl; [|reflexivity].
      rewrite (truthy_own recorded Hr). reflexivity.
    + reflexivity.
  - intros a b s. cbn [compareWith]. unfold SymbolLiteralType_compareWith.
    rewrite (strict_equal_sym a b). reflexivity.
Qed.

Lemma leaf_compareWith_within_class_witness :
  is_leaf (ThisType undefined) = true /\
  compareWith (Sample.library 1) (ThisType undefined) (ThisType undefined) ∅
  = Returns 1 ∅.
Proof.
  split; [reflexivity|].
  exact (proj1 (proj2 (leaf_compareWith_within_class (Sample.library 1)
                         (ThisType undefined) eq_refl)) ∅).
Defined.

(** ** The dispatcher of the pattern fixture *)

(** Whatever it is called with, the dispatcher returns its first argument:
    the tests of the second, third and fourth candidate repeat the test of
    the first and so never pass, and the first and the last candidate both
    return [_arg0].  The first [return] is reached exactly when [_arg0] is a
    string, the last one otherwise; the other arguments are never looked
    at. *)
Theorem pattern_returns_first_argument (_arg0 : value) (_arg1 : list value) :
  snd (pattern _arg0 _arg1) = Value _arg0 /\
  (fst (pattern _arg0 _arg1)
   = if String.eqb (typeof _arg0) "string" then 1%nat else 5%nat) /\
  (forall _arg1', pattern _arg0 _arg1' = pattern _arg0 _arg1).
Proof.
  unfold pattern. split; [|split].
  - destruct (String.eqb (typeof _arg0) "string"); reflexivity.
  - destruct (String.eqb (typeof _arg0) "string"); reflexivity.
  - intros _arg1'. destruct (String.eqb (typeof _arg0) "string"); reflexivity.
Qed.

(** ** The text of the stateless classes *)

(** On a node built from [VoidType], [ThisType], [SymbolLiteralType] (of a
    symbol, as the class declares) and [NullableType], [toString] ends as
    soon as the calls may nest as deep as the node does, leaves the store as
    it is, and prefixes the text of the inner node with one ["? "] per
    [NullableType].  On a [SymbolLiteralType] whose value is [null] or
    [undefined] it throws the [TypeError] of [this.value.toString()]. *)
Theorem stateless_toString_pure (L : Library) (t : type) :
  (stateless t = true ->
   symbolic t = true ->
   forall fuel s,
     (nesting t < fuel)%nat ->
     toString L fuel t s = Returns (rendered L t) s) /\
  (forall val fuel s,
     t = SymbolLiteralType val ->
     loose_equal_null val = true ->
     toString L (S fuel) t s = Throws nullish_error).
Proof.
  split.
  - induction t; intros Ht Hs fuel s Hfuel; try discriminate Ht;
      (destruct fuel as [|fuel]; [lia|]); try reflexivity.
    + cbn [toString]. unfold SymbolLiteralType_toString.
      destruct val; try discriminate Hs; reflexivity.
    + cbn [toString]. unfold NullableType_toString.
      simpl in Hfuel.
      rewrite (bind_Returns _ _ _ _ _ (IHt Ht Hs fuel s ltac:(lia))).
      reflexivity.
  - intros val fuel s -> Hval. cbn [toString].
    unfold SymbolLiteralType_toString. rewrite Hval. reflexivity.
Qed.

Lemma stateless_toString_pure_witness :
  stateless (NullableType (NullableType (SymbolLiteralType (symbol 1))))
  = true /\
  symbolic (NullableType (NullableType (SymbolLiteralType (symbol 1))))
  = true /\
  (nesting (NullableType (NullableType (SymbolLiteralType (symbol 1)))) < 3)%nat /\
  toString (Sample.library 0) 3
    (NullableType (NullableType (SymbolLiteralType (symbol 1))))
    recorded_string
  = Returns "? ? typeof symbol" recorded_string /\
  loose_equal_null undefined = true /\
  toString (Sample.library 0) 1 (SymbolLiteralType undefined) recorded_string
  = Throws nullish_error.
Proof.
  split; [reflexivity|]. split; [reflexivity|]. split; [simpl; lia|]. split.
  - apply (proj1 (stateless_toString_pure (Sample.library 0)
                    (NullableType (NullableType
                                     (SymbolLiteralType (symbol 1)))))
             eq_refl eq_refl).
    simpl. lia.
  - split; [reflexivity|].
    exact (proj2 (stateless_toString_pure (Sample.library 0)
                    (SymbolLiteralType undefined))
             undefined 0%nat recorded_string eq_refl eq_refl).
Defined.

(** ** Comparisons and the recorded types *)

(** As [accepts] and [collectErrors] do, the comparisons and the operations
    on signatures only widen the recorded types when the library does:
    after [compareWith], [acceptsType], [toString],
    [FunctionType.acceptsParams] and [FunctionType.invoke], every type
    parameter that had a recorded type has this type or a union built on
    it. *)
Theorem comparisons_only_widen (L : Library) :
  library_respects L (store_widens L) (fun _ => True) ->
  (forall this input s r s',
     compareWith L this input s = Returns r s' -> store_widens L s s') /\
  (forall this input s r s',
     acceptsType L this input s = Returns r s' -> store_widens L s s') /\
  (forall fuel this s r s',
     toString L fuel this s = Returns r s' -> store_widens L s s') /\
  (forall fuel params rest args s r s',
     FunctionType_acceptsParams (accepts L fuel) params rest args s
     = Returns r s' ->
     store_widens L s s') /\
  (forall fuel params rest returnType args s r s',
     FunctionType_invoke L (accepts L fuel) params rest returnType args s
     = Returns r s' ->
     store_widens L s s').
Proof.
  intros HL.
  assert (Hrun : forall A (m : M A) s r s',
             respects (store_widens L) (fun _ => True) m ->
             m s = Returns r s' -> store_widens L s s').
  { intros A m s r s' Hm H. specialize (Hm s). unfold hoare in Hm.
    rewrite H in Hm. exact Hm. }
  assert (Haccepts : forall fuel t v,
             respects (store_widens L) (fun _ => True) (accepts L fuel t v)).
  { intros fuel t v.
    apply (accepts_respects L (store_widens L) (fun _ => True)
             (store_widens_refl L) (store_widens_trans L)
             (store_widens_record L) (store_widens_union L) I I HL). }
  split; [|split; [|split; [|split]]].
  - intros this input s r s'. apply Hrun.
    apply (compareWith_respects L (store_widens L) (fun _ => True)
             (store_widens_refl L) (store_widens_trans L)
             (store_widens_record L) (store_widens_union L) I HL).
  - intros this input s r s'. apply Hrun.
    apply (acceptsType_respects L (store_widens L) (fun _ => True)
             (store_widens_refl L) (store_widens_trans L) HL).
  - intros fuel this s r s'. apply Hrun.
    apply (toString_respects L (store_widens L) (fun _ => True)
             (store_widens_refl L) (store_widens_trans L) I I HL).
  - intros fuel params rest args s r s'. apply Hrun.
    apply (FunctionType_acceptsParams_respects (store_widens L) (fun _ => True)
             (store_widens_refl L) (store_widens_trans L)
             (accepts L fuel) (Haccepts fuel)).
  - intros fuel params rest returnType args s r s'. apply Hrun.
    apply (FunctionType_invoke_respects L (store_widens L) (fun _ => True)
             (store_widens_refl L) (store_widens_trans L) HL
             (accepts L fuel) (Haccepts fuel)).
Qed.

Lemma comparisons_only_widen_witness :
  library_respects (Sample.library 3) (store_widens (Sample.library 3))
    (fun _ => True) /\
  compareWith (Sample.library 3) (FlowIntoType 0 None) Sample.number_
    recorded_string
  = Returns 1
      (<[0%nat := UnionType [Sample.string_; Sample.number_]]> recorded_string) /\
  store_widens (Sample.library 3) recorded_string
    (<[0%nat := UnionType [Sample.string_; Sample.number_]]> recorded_string).
Proof.
  assert (HL : library_respects (Sample.library 3)
                 (store_widens (Sample.library 3)) (fun _ => True)).
  { apply Sample_library_respects.
    - apply store_widens_refl.
    - apply store_widens_trans.
    - apply store_widens_record.
    - apply (store_widens_union (Sample.library 3)).
    - exact I. }
  assert (Hrun : compareWith (Sample.library 3) (FlowIntoType 0 None)
                   Sample.number_ recorded_string
                 = Returns 1
                     (<[0%nat := UnionType [Sample.string_; Sample.number_]]>
                        recorded_string)) by reflexivity.
  split; [exact HL|]. split; [exact Hrun|].
  exact (proj1 (comparisons_only_widen (Sample.library 3) HL)
           (FlowIntoType 0 None) Sample.number_ recorded_string 1 _ Hrun).
Defined.

(** ** FunctionType: the rest parameter *)

Lemma messages_addError (validation : Validation) (path : IdentifierPath)
    (expected : type) (message : string) :
  messages (addError validation path expected message)
  = (messages validation ++ [(path, message)])%list.
Proof. unfold messages, addError. rewrite List.map_app. reflexivity. Qed.

Lemma same_report_Returns (hasErrors : bool) (v1 v2 : Validation)
    (s : store) :
  messages v1 = messages v2 ->
  same_report (Returns (hasErrors, v1) s) (Returns (hasErrors, v2) s).
Proof. intros H. simpl. split; [reflexivity|]. split; [exact H | reflexivity]. Qed.

Lemma FunctionType_collectErrors_params_same_report (L : Library)
    (toString : type -> M string) (this1 this2 : type)
    (path : IdentifierPath)
    (annotation_params : list (FunctionTypeParam_ type)) :
  forall params i hasErrors v1 v2 s,
    messages v1 = messages v2 ->
    same_report
      (FunctionType_collectErrors_params L toString this1 path
         annotation_params i params hasErrors v1 s)
      (FunctionType_collectErrors_params L toString this2 path
         annotation_params i params hasErrors v2 s).
Proof.
  induction params as [|param params IH]; intros i hasErrors v1 v2 s Hv.
  - apply same_report_Returns. exact Hv.
  - rewrite !FunctionType_collectErrors_params_step. unfold bind at 1 3.
    destruct (annotation_check L annotation_params i param s)
      as [[|] s1| |]; cbn [negb]; try reflexivity.
    + rewrite !bind_ret_l. apply IH. exact Hv.
    + unfold FunctionType_expectArgument, bind at 1 2 3 4.
      destruct (toString (param_type param) s1) as [text s2| |];
        try reflexivity.
      unfold ret at 1 2. apply IH. rewrite !messages_addError, Hv.
      reflexivity.
Qed.

Lemma FunctionType_collectErrors_same_report (L : Library)
    (toString : type -> M string)
    (params : list (FunctionTypeParam_ type))
    (rest rest' : option (FunctionTypeRestParam_ type))
    (returnType : FunctionTypeReturn_ type)
    (validation : Validation) (path : IdentifierPath) (input : value)
    (s : store) :
  same_report
    (FunctionType_collectErrors L toString params rest returnType
       validation path input s)
    (FunctionType_collectErrors L toString params rest' returnType
       validation path input s).
Proof.
  unfold FunctionType_collectErrors. cbv zeta.
  destruct (negb (hasFunctionType input)).
  { apply same_report_Returns. rewrite !messages_addError. reflexivity. }
  destruct (TypeSymbol L input) as [[annotation_params annotation_returnType]|].
  - pose proof (FunctionType_collectErrors_params_same_report L toString
                  (FunctionType params rest returnType)
                  (FunctionType params rest' returnType)
                  path annotation_params params O false validation validation
                  s eq_refl) as Hloop.
    unfold bind at 1 4.
    destruct (FunctionType_collectErrors_params L toString
                (FunctionType params rest returnType) _ _ _ _ _ _ s)
      as [[h1 v1] s1| |];
      destruct (FunctionType_collectErrors_params L toString
                  (FunctionType params rest' returnType) _ _ _ _ _ _ s)
      as [[h2 v2] s2| |]; simpl in Hloop; try contradiction;
      try discriminate Hloop; try exact Hloop.
    destruct Hloop as (-> & Hv & ->). unfold bind.
    destruct (acceptsType L _ _ s2) as [[|] s3| |]; cbn [negb];
      try reflexivity.
    + apply same_report_Returns. exact Hv.
    + destruct (toString (FunctionTypeReturn returnType) s3)
        as [text s4| |]; try reflexivity.
      apply same_report_Returns. rewrite !messages_addError, Hv. reflexivity.
  - unfold bind.
    destruct (each _ params s) as [[] s1| |]; try reflexivity.
    destruct (acceptsType L _ _ s1) as [ok s2| |]; try reflexivity.
    apply same_report_Returns. reflexivity.
Qed.

(** No check of a [FunctionType] reads its rest parameter: two signatures
    that differ in their rest parameters only accept the same functions
    and compare alike, on either side of the comparison, and their
    [collectErrors] end alike, with the same store and the same errors up
    to the node that each error names. *)
Theorem FunctionType_rest_not_consulted
    (L : Library) (fuel : nat)
    (params : list (FunctionTypeParam_ type))
    (rest rest' : option (FunctionTypeRestParam_ type))
    (returnType : FunctionTypeReturn_ type) :
  (forall input s,
     accepts L fuel (FunctionType params rest returnType) input s
     = accepts L fuel (FunctionType params rest' returnType) input s) /\
  (forall inputParams inputRest inputRest' inputReturnType s,
     compareWith L (FunctionType params rest returnType)
       (FunctionType inputParams inputRest inputReturnType) s
     = compareWith L (FunctionType params rest' returnType)
         (FunctionType inputParams inputRest' inputReturnType) s) /\
  (forall validation path input s,
     same_report
       (collectErrors L fuel (FunctionType params rest returnType)
          validation path input s)
       (collectErrors L fuel (FunctionType params rest' returnType)
          validation path input s)).
Proof.
  split; [|split].
  - intros input s. destruct fuel; reflexivity.
  - intros inputParams inputRest inputRest' inputReturnType s. reflexivity.
  - intros validation path input s. destruct fuel as [|fuel]; [exact I|].
    cbn [collectErrors]. apply FunctionType_collectErrors_same_report.
Qed.

(** ** FunctionType: an annotated function and the comparator *)

Lemma acceptsType_ranked (L : Library) (this input : type) (r : Z)
    (s : store) :
  compareTypes L this input s = Returns r s ->
  acceptsType L this input s = Returns (negb (r =? -1)) s.
Proof.
  intros H. unfold acceptsType. rewrite (bind_Returns _ _ _ _ _ H).
  destruct (r =? -1); reflexivity.
Qed.

(** The loops of [compareWith] and of [accepts] over the parameters, when
    the comparisons of the parameters leave the store alone. *)
Lemma FunctionType_params_ranked (L : Library)
    (rank : FunctionTypeParam_ type -> FunctionTypeParam_ type -> Z)
    (s : store) :
  forall params before after isGreater,
    (length params <= length after)%nat ->
    (forall p a,
       In p params -> In a after ->
       compareTypes L (FunctionTypeParam p) (FunctionTypeParam a) s
       = Returns (rank p a) s) ->
    exists r,
      FunctionType_compareWith_params L isGreater params after s
      = Returns r s /\
      (r = -1 \/ r = (if isGreater then 1 else 0) \/ r = 1) /\
      every (annotation_check L (before ++ after)) (length before) params s
      = Returns (negb (r =? -1)) s.
Proof.
  induction params as [|p params IH];
    intros before after isGreater Hlen Hrank.
  - exists (if isGreater then 1 else 0). split; [reflexivity|].
    split; [right; left; reflexivity|]. destruct isGreater; reflexivity.
  - destruct after as [|a after]; [simpl in Hlen; lia|].
    cbn [FunctionType_compareWith_params every].
    assert (Hpa : compareTypes L (FunctionTypeParam p) (FunctionTypeParam a) s
                  = Returns (rank p a) s).
    { apply Hrank; left; reflexivity. }
    assert (Hcheck : annotation_check L (before ++ a :: after)
                       (length before) p s
                     = Returns (negb (rank p a =? -1)) s).
    { unfold annotation_check.
      rewrite List.nth_error_app2 by lia. rewrite Nat.sub_diag. cbn [nth_error].
      apply acceptsType_ranked. exact Hpa. }
    rewrite (bind_Returns _ _ _ _ _ Hpa), (bind_Returns _ _ _ _ _ Hcheck).
    destruct (rank p a =? -1) eqn:Hr; cbn [negb].
    + exists (-1). split; [reflexivity|]. split; [left; reflexivity|].
      reflexivity.
    + destruct (IH (before ++ [a])%list after
                  (if rank p a =? 1 then true else isGreater))
        as (r & Hcompare & Hrange & Hevery).
      * simpl in Hlen. lia.
      * intros p' a' Hp' Ha'. apply Hrank; right; assumption.
      * exists r. split; [exact Hcompare|]. split.
        -- destruct Hrange as [Hm | [H0 | H1]];
             [left; exact Hm | | right; right; exact H1].
           destruct (rank p a =? 1); [right; right; exact H0|].
           right; left; exact H0.
        -- rewrite <- app_assoc in Hevery. cbn [app] in Hevery.
           rewrite List.length_app in Hevery. cbn [length] in Hevery.
           rewrite Nat.add_1_r in Hevery. exact Hevery.
Qed.

(** For a function whose annotation declares at least as many parameters
    as the signature, [accepts] answers as the comparator does on the
    annotation: when the comparisons of the parts leave the store alone,
    [accepts] returns false exactly when [compareWith], given the signature
    of the annotation, returns -1. *)
Theorem FunctionType_accepts_annotation_as_comparison
    (L : Library) (fuel : nat)
    (params : list (FunctionTypeParam_ type))
    (rest : option (FunctionTypeRestParam_ type))
    (returnType : FunctionTypeReturn_ type) (input : value)
    (annotation_params : list (FunctionTypeParam_ type))
    (annotation_returnType : FunctionTypeReturn_ type)
    (rank : FunctionTypeParam_ type -> FunctionTypeParam_ type -> Z)
    (returnRank : Z) :
  hasFunctionType input = true ->
  TypeSymbol L input = Some (annotation_params, annotation_returnType) ->
  (length params <= length annotation_params)%nat ->
  (forall s,
     compareTypes L (FunctionTypeReturn returnType)
                    (FunctionTypeReturn annotation_returnType) s
     = Returns returnRank s) ->
  (forall p a s,
     In p params -> In a annotation_params ->
     compareTypes L (FunctionTypeParam p) (FunctionTypeParam a) s
     = Returns (rank p a) s) ->
  forall s, exists r,
    compareWith L (FunctionType params rest returnType)
      (FunctionType annotation_params None annotation_returnType) s
    = Returns r s /\
    accepts L (S fuel) (FunctionType params rest returnType) input s
    = Returns (negb (r =? -1)) s.
Proof.
  intros Hf Ha Hlen Hreturn Hrank s.
  cbn [compareWith accepts].
  rewrite (FunctionType_accepts_annotated L params annotation_params
             returnType annotation_returnType input s Hf Ha).
  unfold FunctionType_compareWith.
  rewrite (bind_Returns _ _ _ _ _ (Hreturn s)).
  destruct (FunctionType_params_ranked L rank s params [] annotation_params
              (returnRank =? 1) Hlen (fun p a Hp Ha' => Hrank p a s Hp Ha'))
    as (r & Hcompare & Hrange & Hevery).
  cbn [app length] in Hevery. rewrite (bind_Returns _ _ _ _ _ Hevery).
  destruct (Nat.ltb_spec (length annotation_params) (length params))
    as [Hlt|_]; [lia|].
  destruct (returnRank =? -1) eqn:Hrr.
  - exists (-1). split; [reflexivity|].
    destruct (r =? -1); cbn [negb]; [reflexivity|].
    rewrite (acceptsType_ranked L _ _ returnRank s (Hreturn s)).
    rewrite Hrr. reflexivity.
  - exists r. split; [exact Hcompare|].
    destruct (r =? -1); cbn [negb]; [reflexivity|].
    rewrite (acceptsType_ranked L _ _ returnRank s (Hreturn s)).
    rewrite Hrr. reflexivity.
Qed.

Lemma FunctionType_accepts_annotation_as_comparison_witness :
  hasFunctionType (function 2%nat []) = true /\
  TypeSymbol annotated_library (function 2%nat [])
  = Some ([Sample.param "x" Sample.string_], mkReturn Sample.string_) /\
  (length [Sample.param "x" Sample.number_]
   <= length [Sample.param "x" Sample.string_])%nat /\
  exists r,
    compareWith annotated_library
      (FunctionType [Sample.param "x" Sample.number_] None
         (mkReturn Sample.string_))
      (FunctionType [Sample.param "x" Sample.string_] None
         (mkReturn Sample.string_)) ∅
    = Returns r ∅ /\
    accepts annotated_library 1
      (FunctionType [Sample.param "x" Sample.number_] None
         (mkReturn Sample.string_)) (function 2%nat []) ∅
    = Returns (negb (r =? -1)) ∅.
Proof.
  split; [reflexivity|]. split; [reflexivity|]. split; [simpl; lia|].
  apply (FunctionType_accepts_annotation_as_comparison annotated_library 0
           [Sample.param "x" Sample.number_] None (mkReturn Sample.string_)
           (function 2%nat []) [Sample.param "x" Sample.string_]
           (mkReturn Sample.string_)
           (fun _ _ => -1) 0).
  - reflexivity.
  - reflexivity.
  - simpl. lia.
  - intros s. reflexivity.
  - intros p a s [<-|[]] [<-|[]]. reflexivity.
Defined.

(** ** FunctionType.toString *)

Lemma mapM_pure {A B} (f : A -> M B) (g : A -> B) (l : list A) (s : store) :
  (forall a, In a l -> f a s = Returns (g a) s) ->
  mapM f l s = Returns (map g l) s.
Proof.
  induction l as [|a l IH]; intros H; [reflexivity|].
  cbn [mapM map].
  rewrite (bind_Returns _ _ _ _ _ (H a (or_introl eq_refl))).
  rewrite (bind_Returns _ _ _ _ _ (IH (fun a' Hin => H a' (or_intror Hin)))).
  reflexivity.
Qed.

(** The text of a signature: the texts of the declared parameters in their
    order, then the text of the rest parameter if there is one, separated
    by [", "] and enclosed in parentheses, then [" => "] and the text of the
    return type.  The parts are rendered in this order, and the store is
    left alone when their renderings leave it alone. *)
Theorem FunctionType_toString_renders
    (L : Library) (fuel : nat)
    (params : list (FunctionTypeParam_ type))
    (rest : option (FunctionTypeRestParam_ type))
    (returnType : FunctionTypeReturn_ type)
    (text : type -> string) (s : store) :
  (forall p,
     In p params ->
     toString L fuel (FunctionTypeParam p) s
     = Returns (text (FunctionTypeParam p)) s) ->
  (forall r,
     rest = Some r ->
     toString L fuel (FunctionTypeRestParam r) s
     = Returns (text (FunctionTypeRestParam r)) s) ->
  toString L fuel (FunctionTypeReturn returnType) s
  = Returns (text (FunctionTypeReturn returnType)) s ->
  toString L (S fuel) (FunctionType params rest returnType) s
  = Returns
      (String.append "("
         (String.append
            (String.concat ", "
               (map (fun p => text (FunctionTypeParam p)) params
                ++ match rest with
                   | Some r => [text (FunctionTypeRestParam r)]
                   | None => []
                   end))
            (String.append ") => " (text (FunctionTypeReturn returnType)))))
      s.
Proof.
  intros Hparams Hrest Hreturn. cbn [toString]. unfold FunctionType_toString.
  rewrite (bind_Returns _ _ _ _ _
             (mapM_pure (fun param => toString L fuel (FunctionTypeParam param))
                (fun p => text (FunctionTypeParam p)) params s Hparams)).
  destruct rest as [r|].
  - rewrite (bind_Returns _ _ s s
               (map (fun p => text (FunctionTypeParam p)) params
                ++ [text (FunctionTypeRestParam r)])%list).
    2:{ rewrite (bind_Returns _ _ _ _ _ (Hrest r eq_refl)). reflexivity. }
    rewrite (bind_Returns _ _ _ _ _ Hreturn). reflexivity.
  - rewrite bind_ret_l. rewrite (bind_Returns _ _ _ _ _ Hreturn).
    rewrite app_nil_r. reflexivity.
Qed.

Lemma FunctionType_toString_renders_witness :
  toString (Sample.library 1) 3
    (FunctionType [Sample.param "x" Sample.string_]
       (Some (mkRestParam "r" Sample.number_)) (mkReturn Sample.boolean_)) ∅
  = Returns "(x: StringType, ...r: NumberType) => BooleanType" ∅.
Proof.
  apply (FunctionType_toString_renders (Sample.library 1) 2
           [Sample.param "x" Sample.string_]
           (Some (mkRestParam "r" Sample.number_)) (mkReturn Sample.boolean_)
           (fun t => match t with
                     | FunctionTypeParam _ => "x: StringType"
                     | FunctionTypeRestParam _ => "...r: NumberType"
                     | _ => "BooleanType"
                     end) ∅).
  - intros p [<-|[]]. reflexivity.
  - intros r Hr. injection Hr as <-. reflexivity.
  - reflexivity.
Defined.

(** ** unwrap *)

Lemma unwrap_stateless (t : type) :
  stateless t = true ->
  exists u,
    unwrap t = Some u /\ is_leaf u = true /\
    forall input,
      accepted t input
      = (is_NullableType t && loose_equal_null input) || accepted u input.
Proof.
  induction t; intros Ht; try discriminate Ht;
    try (eexists; split; [reflexivity|]; split; [reflexivity|];
         intros input; reflexivity).
  destruct (IHt Ht) as (u & Hu & Hleaf & Haccepted).
  exists u. split; [exact Hu|]. split; [exact Hleaf|].
  intros input. cbn [accepted is_NullableType andb].
  rewrite Haccepted.
  destruct (loose_equal_null input); [reflexivity|].
  rewrite andb_false_r. reflexivity.
Qed.

(** [unwrap] strips every [NullableType] from around a node: what it
    returns is not a [NullableType] and unwraps to itself.  A node built
    from [VoidType], [ThisType], [SymbolLiteralType] and [NullableType]
    unwraps to the leaf inside it, and accepts what this leaf accepts, and
    [null] and [undefined] besides when it is a [NullableType]. *)
Theorem unwrap_strips_NullableType (t : type) :
  (forall u,
     unwrap t = Some u -> is_NullableType u = false /\ unwrap u = Some u) /\
  (stateless t = true ->
   exists u,
     unwrap t = Some u /\ is_leaf u = true /\
     forall input,
       accepted t input
       = (is_NullableType t && loose_equal_null input) || accepted u input).
Proof.
  split; [|apply unwrap_stateless].
  induction t; intros u Hu; cbn [unwrap] in Hu; try discriminate Hu;
    try (injection Hu as <-; split; reflexivity).
  exact (IHt u Hu).
Qed.

Lemma unwrap_strips_NullableType_witness :
  unwrap (NullableType (NullableType (ThisType null))) = Some (ThisType null) /\
  is_NullableType (ThisType null) = false /\
  unwrap (ThisType null) = Some (ThisType null) /\
  stateless (NullableType (NullableType (ThisType null))) = true /\
  exists u,
    unwrap (NullableType (NullableType (ThisType null))) = Some u /\
    is_leaf u = true /\
    forall input,
      accepted (NullableType (NullableType (ThisType null))) input
      = (is_NullableType (NullableType (NullableType (ThisType null)))
         && loose_equal_null input) || accepted u input.
Proof.
  assert (Hu : unwrap (NullableType (NullableType (ThisType null)))
               = Some (ThisType null)) by reflexivity.
  assert (Hs : stateless (NullableType (NullableType (ThisType null))) = true)
    by reflexivity.
  destruct (proj1 (unwrap_strips_NullableType
                     (NullableType (NullableType (ThisType null))))
              (ThisType null) Hu) as [Hn Hfix].
  split; [exact Hu|]. split; [exact Hn|]. split; [exact Hfix|].
  split; [exact Hs|].
  exact (proj2 (unwrap_strips_NullableType
                  (NullableType (NullableType (ThisType null)))) Hs).
Defined.
